(** * agent-git-branch-cleaner: a shallow embedding of the TypeScript sources

    The development follows the four source files:
    - [src/config.ts]  : [DEFAULT_CONFIG], [loadConfig], [matchesExcludePattern],
                         [matchGlobPattern];
    - [src/cli.ts]     : [parseArgs];
    - [src/index.ts] (and its earlier non-interactive variant): [execGit],
                         [askUserConfirmation], the tools [delete_local_branch]
                         and [get_main_branch], and the first lines of [runAgent].

    JavaScript strings are sequences of UTF-16 code units; they are modelled
    as [list N].  The regular expression engine, the file system, [JSON.parse],
    [git] and the terminal are the host of the program: the regular expression
    fragment the program generates is modelled in full, the rest is a record
    of host operations over which every statement is quantified. *)

From Stdlib Require Import List Bool Ascii String NArith ZArith QArith Lia.
Import ListNotations.
Close Scope Q_scope.

Set Implicit Arguments.
Set Warnings "-register-all".

(** ** JavaScript strings *)

Module JS.

Definition char := N.
Definition jsstring := list char.

(** A string literal of the source, as code units (ASCII literals only). *)
Definition js (s : string) : jsstring :=
  map N_of_ascii (list_ascii_of_string s).

(** [a === b] on strings. *)
Fixpoint str_eqb (a b : jsstring) : bool :=
  match a, b with
  | [], [] => true
  | x :: a', y :: b' => N.eqb x y && str_eqb a' b'
  | _, _ => false
  end.

(** Code units used by the sources. *)
Definition c_star : char := Eval cbv in N_of_ascii "*".
Definition c_quest : char := Eval cbv in N_of_ascii "?".
Definition c_dot : char := Eval cbv in N_of_ascii ".".
Definition c_caret : char := Eval cbv in N_of_ascii "^".
Definition c_dollar : char := Eval cbv in N_of_ascii "$".
Definition c_backslash : char := 92%N.

(** ECMAScript LineTerminator: LF, CR, LS (U+2028), PS (U+2029). *)
Definition isLineTerminator (c : char) : bool :=
  N.eqb c 10 || N.eqb c 13 || N.eqb c 8232 || N.eqb c 8233.

(** ECMAScript WhiteSpace (TAB, VT, FF, SP, NBSP, ZWNBSP and the category
    Zs), which together with the line terminators is what [trim] and
    [parseInt] strip. *)
Definition isWhiteSpace (c : char) : bool :=
  N.eqb c 9 || N.eqb c 11 || N.eqb c 12 || N.eqb c 32 || N.eqb c 160
  || N.eqb c 65279 || N.eqb c 5760
  || (N.leb 8192 c && N.leb c 8202)
  || N.eqb c 8239 || N.eqb c 8287 || N.eqb c 12288.

Definition isStrWhiteSpaceChar (c : char) : bool :=
  isWhiteSpace c || isLineTerminator c.

Fixpoint trimStart (s : jsstring) : jsstring :=
  match s with
  | c :: s' => if isStrWhiteSpaceChar c then trimStart s' else s
  | [] => []
  end.

Definition trimEnd (s : jsstring) : jsstring := rev (trimStart (rev s)).

(** [s.trim()] *)
Definition trim (s : jsstring) : jsstring := trimEnd (trimStart s).

(** [s.startsWith(p)] *)
Fixpoint startsWith (s p : jsstring) {struct p} : bool :=
  match p, s with
  | [], _ => true
  | y :: p', x :: s' => N.eqb x y && startsWith s' p'
  | _ :: _, [] => false
  end.

(** [s.replace(pat, rep)] for a string pattern: the first occurrence of
    [pat] is replaced, the rest of [s] is kept.  ([rep] holds no [$]
    substitution pattern at the call sites.)  The empty pattern matches at
    index 0. *)
Fixpoint replaceFirst (pat rep s : jsstring) : jsstring :=
  if startsWith s pat then rep ++ skipn (List.length pat) s
  else match s with
       | [] => []
       | c :: s' => c :: replaceFirst pat rep s'
       end.

(** The line feed of the string literals. *)
Definition newline : jsstring := [10]%N.

(** ASCII, and the lower case of an ASCII code unit. *)
Definition isAscii (c : char) : bool := N.ltb c 128.

Definition asciiLower (c : char) : char :=
  if N.leb 65 c && N.leb c 90 then (c + 32)%N else c.

End JS.
Import JS.

(** ** The glob matcher of [src/config.ts] *)

Module Glob.

(** *** The three textual substitutions of [matchGlobPattern]

    Each of the three regular expressions of the [replace] calls matches
    exactly one code unit and carries the [g] flag, so each call maps over
    the code units of its receiver: a matched unit is replaced, the others are
    copied. *)

Definition replaceEach (matched : char -> bool) (rep : char -> jsstring)
    (s : jsstring) : jsstring :=
  flat_map (fun c => if matched c then rep c else [c]) s.

(** The class [[.+^${}()|[\]\\]] of the first [replace]. *)
Definition specialChars : jsstring := Eval cbv in js ".+^${}()|[]\".

Definition isSpecial (c : char) : bool := existsb (N.eqb c) specialChars.

(** [.replace(/[.+^${}()|[\]\\]/g, "\\$&")]: [$&] is the matched unit. *)
Definition escapeSpecial (pattern : jsstring) : jsstring :=
  replaceEach isSpecial (fun c => [c_backslash; c]) pattern.

(** [.replace(/\*/g, ".*")] *)
Definition replaceStars (s : jsstring) : jsstring :=
  replaceEach (N.eqb c_star) (fun _ => [c_dot; c_star]) s.

(** [.replace(/\?/g, ".")] *)
Definition replaceQuestions (s : jsstring) : jsstring :=
  replaceEach (N.eqb c_quest) (fun _ => [c_dot]) s.

Definition regexPattern (pattern : jsstring) : jsstring :=
  replaceQuestions (replaceStars (escapeSpecial pattern)).

(** The template literal [`^${regexPattern}$`]. *)
Definition regexSource (pattern : jsstring) : jsstring :=
  [c_caret] ++ regexPattern pattern ++ [c_dollar].

(** *** The regular expressions the host is asked to build

    [new RegExp(source)] without flags.  The fragment modelled here is the
    one the substitutions above can produce: the assertions [^] and [$], the
    atom [.], a pattern character, an identity escape of a syntax character,
    and the greedy quantifier [*] on an atom.  Every other construct
    (classes, groups, alternation, other quantifiers and escapes) is outside
    the fragment: [RegExp_new] answers [None] for it, as it does where the
    host raises a [SyntaxError]. *)

Inductive atom : Type :=
| AChar (c : char)     (* a pattern character or an identity escape *)
| ADot.                (* [.] *)

Inductive term : Type :=
| TBol                 (* [^] *)
| TEol                 (* [$] *)
| TAtom (a : atom)
| TStar (a : atom).    (* atom followed by [*] *)

Definition RegExp := list term.

(** ECMAScript SyntaxCharacter. *)
Definition syntaxChars : jsstring := Eval cbv in js "^$\.*+?()[]{}|".

Definition isSyntaxCharacter (c : char) : bool := existsb (N.eqb c) syntaxChars.

(** After an atom: a [*] makes it a starred term. *)
Definition quantified (a : atom) (rest : jsstring)
    (k : jsstring -> option (list term)) : option (list term) :=
  match rest with
  | c :: rest' =>
      if N.eqb c c_star then option_map (cons (TStar a)) (k rest')
      else option_map (cons (TAtom a)) (k rest)
  | [] => option_map (cons (TAtom a)) (k rest)
  end.

Fixpoint parsePattern (src : jsstring) : option (list term) :=
  match src with
  | [] => Some []
  | c :: rest =>
      if N.eqb c c_caret then option_map (cons TBol) (parsePattern rest)
      else if N.eqb c c_dollar then option_map (cons TEol) (parsePattern rest)
      else if N.eqb c c_backslash then
        match rest with
        | d :: rest' =>
            if isSyntaxCharacter d
            then quantified (AChar d) rest' parsePattern
            else None
        | [] => None
        end
      else if N.eqb c c_dot then quantified ADot rest parsePattern
      else if isSyntaxCharacter c then None
      else quantified (AChar c) rest parsePattern
  end.

Definition RegExp_new (source : jsstring) : option RegExp := parsePattern source.

(** *** Matching

    A backtracking matcher in continuation style, as ECMAScript specifies
    it: [k] is what remains to be matched after the current term, [pos] the
    index in the input, [s] the input from [pos] on.  Without the [s] flag
    [.] matches any code unit except a line terminator; without the [m] flag
    [^] holds at index 0 only and [$] at the end of the input only. *)

Definition atomMatches (a : atom) (x : char) : bool :=
  match a with
  | AChar c => N.eqb x c
  | ADot => negb (isLineTerminator x)
  end.

(** Greedy [a*]: take one more unit when possible, otherwise (or when the
    continuation fails afterwards) go on with the continuation here. *)
Fixpoint star (a : atom) (k : nat -> jsstring -> bool)
    (pos : nat) (s : jsstring) : bool :=
  match s with
  | x :: s' => (atomMatches a x && star a k (S pos) s') || k pos s
  | [] => k pos []
  end.

Fixpoint run (re : RegExp) (pos : nat) (s : jsstring) : bool :=
  match re with
  | [] => true
  | TBol :: re' => Nat.eqb pos 0 && run re' pos s
  | TEol :: re' => match s with [] => run re' pos s | _ :: _ => false end
  | TAtom a :: re' =>
      match s with
      | x :: s' => atomMatches a x && run re' (S pos) s'
      | [] => false
      end
  | TStar a :: re' => star a (run re') pos s
  end.

(** [regex.test(str)] for a regular expression without [g] and [y]: the
    match is attempted at every index from 0 on. *)
Fixpoint testFrom (re : RegExp) (pos : nat) (s : jsstring) : bool :=
  run re pos s ||
  match s with
  | [] => false
  | _ :: s' => testFrom re (S pos) s'
  end.

Definition RegExp_test (re : RegExp) (str : jsstring) : bool := testFrom re 0 str.

(** *** [matchGlobPattern] and [matchesExcludePattern] *)

Definition matchGlobPattern (str pattern : jsstring) : option bool :=
  if str_eqb str pattern then Some true
  else
    match RegExp_new (regexSource pattern) with
    | Some regex => Some (RegExp_test regex str)
    | None => None
    end.

Fixpoint matchesExcludePattern (branchName : jsstring)
    (patterns : list jsstring) : option bool :=
  match patterns with
  | [] => Some false
  | pattern :: patterns' =>
      match matchGlobPattern branchName pattern with
      | Some true => Some true
      | Some false => matchesExcludePattern branchName patterns'
      | None => None
      end
  end.

(** *** Reading the expression back *)

(** The three substitutions together, on one code unit of the pattern. *)
Definition encode (c : char) : jsstring :=
  if isSpecial c then [c_backslash; c]
  else if N.eqb c c_star then [c_dot; c_star]
  else if N.eqb c c_quest then [c_dot]
  else [c].

(** The term a code unit of the pattern stands for. *)
Definition termOf (c : char) : term :=
  if N.eqb c c_star then TStar ADot
  else if N.eqb c c_quest then TAtom ADot
  else TAtom (AChar c).

(** *** The glob contract

    Written after the specification, to compare [matchGlobPattern] with:
    [*] stands for zero or more code units, [?] for exactly one, every other
    code unit for itself; the whole name is produced.  [GlobBy wild] admits
    only the code units accepted by [wild] under a wildcard; the contract
    [Glob] admits them all. *)

Inductive GlobBy (wild : char -> bool) : jsstring -> jsstring -> Prop :=
| glob_nil : GlobBy wild [] []
| glob_star p w n :
    forallb wild w = true -> GlobBy wild p n ->
    GlobBy wild (c_star :: p) (w ++ n)
| glob_quest p x n :
    wild x = true -> GlobBy wild p n ->
    GlobBy wild (c_quest :: p) (x :: n)
| glob_char c p n :
    c <> c_star -> c <> c_quest -> GlobBy wild p n ->
    GlobBy wild (c :: p) (c :: n).

Definition Glob : jsstring -> jsstring -> Prop := GlobBy (fun _ => true).

Definition notLineTerminator (c : char) : bool := negb (isLineTerminator c).

(** A pattern with a [*] or a [?] in it. *)
Definition hasWildcard (pattern : jsstring) : bool :=
  existsb (fun c => N.eqb c c_star || N.eqb c c_quest) pattern.

End Glob.

(** ** Values, exceptions and the host *)

Module Host.

(** Values of the program: what [JSON.parse] answers and what the tools
    hand to [JSON.stringify].  A number is held by its exact value. *)
Inductive value : Type :=
| VUndefined
| VNull
| VBool (b : bool)
| VNum (q : Q)
| VStr (s : jsstring)
| VArr (elems : list value)
| VObj (props : list (jsstring * value)).

(** A thrown value, with what the sources read from it:
    [error instanceof Error], [error.message], ["stderr" in error] with
    [error.stderr], and the text of [`${error}`]. *)
Record thrown : Type := {
  isError : bool;
  message : jsstring;
  stderr : option jsstring;
  text : jsstring
}.

(** [new Error(msg)] *)
Definition newError (msg : jsstring) : thrown :=
  {| isError := true; message := msg; stderr := None;
     text := js "Error: " ++ msg |}.

(** The [TypeError] of the engine. *)
Definition typeError (msg : jsstring) : thrown :=
  {| isError := true; message := msg; stderr := None;
     text := js "TypeError: " ++ msg |}.

(** What the program does to the outside, in the order it does it. *)
Inductive event : Type :=
| ConsoleLog (line : jsstring)
| ConsoleWarn (line : jsstring)
| Exec (command cwd : jsstring)           (* [execSync(command, { cwd })] *)
| Question (prompt answer : jsstring).    (* [rl.question(prompt, ...)] *)

Definition trace := list event.

(** The host operations.  [execSync] and the terminal may answer by what
    happened before, so they take the trace so far.  [readFileSync],
    [JSON.parse] and [execSync] answer or throw; [process.cwd], [path.resolve],
    [path.join] and [fs.existsSync] are taken to answer: the process has a
    working directory and the paths are strings. *)
Record Host : Type := {
  process_cwd : jsstring;
  path_resolve : jsstring -> jsstring;
  path_join : jsstring -> jsstring -> jsstring;
  existsSync : jsstring -> bool;
  readFileSync : jsstring -> thrown + jsstring;
  JSON_parse : jsstring -> thrown + value;
  execSync : trace -> jsstring -> jsstring -> thrown + jsstring;
  question : trace -> jsstring -> jsstring;
  toLowerCase : jsstring -> jsstring
}.

(** *** Computations: a trace, and a result, an exception or an exit *)

Inductive outcome (A : Type) : Type :=
| Return (a : A)
| Throw (e : thrown)
| Exit (code : Z).                        (* [process.exit(code)] *)

Arguments Return {A} a.
Arguments Throw {A} e.
Arguments Exit {A} code.

Definition M (A : Type) : Type := trace -> outcome A * trace.

Definition ret {A} (a : A) : M A := fun tr => (Return a, tr).

Definition throw {A} (e : thrown) : M A := fun tr => (Throw e, tr).

Definition process_exit {A} (code : Z) : M A := fun tr => (Exit code, tr).

Definition bind {A B} (m : M A) (k : A -> M B) : M B :=
  fun tr =>
    match m tr with
    | (Return a, tr') => k a tr'
    | (Throw e, tr') => (Throw e, tr')
    | (Exit code, tr') => (Exit code, tr')
    end.

(** [try { m } catch (error) { handler }] *)
Definition try_catch {A} (m : M A) (handler : thrown -> M A) : M A :=
  fun tr =>
    match m tr with
    | (Throw e, tr') => handler e tr'
    | r => r
    end.

Definition emit (e : event) : M unit := fun tr => (Return tt, tr ++ [e]).

Definition console_log (line : jsstring) : M unit := emit (ConsoleLog line).
Definition console_warn (line : jsstring) : M unit := emit (ConsoleWarn line).

(** A host call that answers or throws. *)
Definition liftE {A} (r : thrown + A) : M A :=
  match r with
  | inr a => ret a
  | inl e => throw e
  end.

Declare Scope js_scope.
Delimit Scope js_scope with js.
Notation "x <- m ;; k" := (bind m (fun x => k))
  (at level 61, m at next level, right associativity) : js_scope.
Notation "m ;; k" := (bind m (fun _ => k))
  (at level 61, right associativity) : js_scope.

(** *** Values as the sources use them *)

Definition isNullish (v : value) : bool :=
  match v with
  | VUndefined | VNull => true
  | _ => false
  end.

(** [a ?? b] *)
Definition nullish (a b : value) : value := if isNullish a then b else a.

Fixpoint lookup (key : jsstring) (props : list (jsstring * value)) : value :=
  match props with
  | [] => VUndefined
  | (k, v) :: props' => if str_eqb k key then v else lookup key props'
  end.

(** [o.key], for the three keys the sources read: an own property of an
    object; [undefined] on an array, a string, a number or a boolean, which
    have no property of those names; a [TypeError] on [null] and
    [undefined]. *)
Definition prop (o : value) (key : jsstring) : value :=
  match o with
  | VObj props => lookup key props
  | _ => VUndefined
  end.

Definition getProp (o : value) (key : jsstring) : M value :=
  if isNullish o
  then throw (typeError (js "Cannot read properties of null or undefined"))
  else ret (prop o key).

Definition isHighSurrogate (c : char) : bool := N.leb 55296 c && N.leb c 56319.
Definition isLowSurrogate (c : char) : bool := N.leb 56320 c && N.leb c 57343.

(** The iteration of a string: by code point, a surrogate pair is one
    element. *)
Fixpoint codePoints (s : jsstring) : list jsstring :=
  match s with
  | [] => []
  | c :: s' =>
      match s' with
      | d :: s'' =>
          if isHighSurrogate c && isLowSurrogate d
          then [c; d] :: codePoints s''
          else [c] :: codePoints s'
      | [] => [[c]]
      end
  end.

(** What [...v] iterates in an array literal: the elements of an array,
    the code points of a string; nothing else of what [JSON.parse] answers
    is iterable. *)
Definition iterable (v : value) : option (list value) :=
  match v with
  | VArr elems => Some elems
  | VStr s => Some (map VStr (codePoints s))
  | _ => None
  end.

Definition spread (v : value) : M (list value) :=
  match iterable v with
  | Some elems => ret elems
  | None => throw (typeError (js "Spread syntax requires ...iterable"))
  end.

(** [if (s)] on a string that may be [undefined]. *)
Definition truthy (s : option jsstring) : bool :=
  match s with
  | Some (_ :: _) => true
  | _ => false
  end.

(** [c.repeat(n)] *)
Definition repeat_str (s : jsstring) (n : nat) : jsstring :=
  List.concat (List.repeat s n).

(** *** [toLowerCase]

    The lower case of a string is the host's, by the Unicode tables.  Two
    facts of those tables are all the sources rely on: an ASCII string is
    lowered unit by unit, and the lower case of a string that holds a unit
    outside ASCII holds a unit that is outside ASCII or is [k] or [i] (the
    Kelvin sign U+212A lowers to [k], the dotted capital I U+0130 to [i]
    with a combining dot; nothing else outside ASCII lowers into ASCII). *)
Definition tellsNonAscii (c : char) : bool :=
  negb (isAscii c) || N.eqb c 107 || N.eqb c 105.

Record LowerCaseLaws (h : Host) : Prop := {
  lower_ascii :
    forall s, forallb isAscii s = true -> toLowerCase h s = map asciiLower s;
  lower_other :
    forall s, forallb isAscii s = false ->
              existsb tellsNonAscii (toLowerCase h s) = true
}.

End Host.
Import Host.

(** ** [src/config.ts]: the configuration *)

Module Config.

Local Open Scope js_scope.

(** [interface Config].  The file is read with [JSON.parse(content) as
    Partial<Config>], a cast that checks nothing, so at run time the fields
    hold whatever values the file gave. *)
Record Config : Type := {
  excludePatterns : list value;
  staleDays : value;
  protectedBranches : list value
}.

Definition builtinProtected : list jsstring :=
  [js "main"; js "master"; js "dev"; js "develop"; js "development";
   js "stage"; js "staging"; js "prod"; js "production"; js "preview";
   js "release"].

(** [{ ...DEFAULT_CONFIG }] copies the object and shares its two arrays;
    no caller writes to them ([runAgent] builds new arrays from them), so the
    copy is the value [DEFAULT_CONFIG]. *)
Definition DEFAULT_CONFIG : Config :=
  {| excludePatterns := [];
     staleDays := VNum 30;
     protectedBranches := map VStr builtinProtected |}.

Definition CONFIG_FILE_NAMES : list jsstring :=
  [js ".branchcleanerrc"; js ".branchcleanerrc.json";
   js ".branchcleaner.json"; js "branchcleaner.config.json"].

(** The clipboard sign of the log line, U+1F4CB, as its surrogate pair. *)
Definition clipboard : jsstring := [55357; 56523]%N.

(** The [for] loop over [CONFIG_FILE_NAMES]: the first file that exists. *)
Fixpoint searchConfig (h : Host) (cwd : jsstring) (names : list jsstring)
    : option jsstring :=
  match names with
  | [] => None
  | fileName :: names' =>
      let filePath := path_join h cwd fileName in
      if existsSync h filePath then Some filePath
      else searchConfig h cwd names'
  end.

(** The [try] block of [loadConfig]. *)
Definition readConfig (h : Host) (configPath : jsstring) : M Config :=
  content <- liftE (readFileSync h configPath) ;;
  userConfig <- liftE (JSON_parse h content) ;;
  console_log (clipboard ++ js " Loaded config from: " ++ configPath) ;;
  userExclude <- getProp userConfig (js "excludePatterns") ;;
  excludes <- spread (nullish userExclude (VArr [])) ;;
  userStaleDays <- getProp userConfig (js "staleDays") ;;
  userProtected <- getProp userConfig (js "protectedBranches") ;;
  protecteds <- spread (nullish userProtected (VArr [])) ;;
  ret {| excludePatterns := protectedBranches DEFAULT_CONFIG ++ excludes;
         staleDays := nullish userStaleDays (staleDays DEFAULT_CONFIG);
         protectedBranches := protectedBranches DEFAULT_CONFIG ++ protecteds |}.

(** The [catch] block. *)
Definition parseFailed (error : thrown) : M Config :=
  console_warn (js "Warning: Failed to parse config file: " ++ text error) ;;
  ret DEFAULT_CONFIG.

Definition loadConfig (h : Host) (customPath : option jsstring) : M Config :=
  match (if truthy customPath then customPath else None) with
  | Some custom =>
      let configPath := path_resolve h custom in
      if negb (existsSync h configPath) then
        console_warn (js "Warning: Config file not found at " ++ configPath
                      ++ js ", using defaults") ;;
        ret DEFAULT_CONFIG
      else if negb (truthy (Some configPath)) then ret DEFAULT_CONFIG
      else try_catch (readConfig h configPath) parseFailed
  | None =>
      let configPath := searchConfig h (process_cwd h) CONFIG_FILE_NAMES in
      if negb (truthy configPath) then ret DEFAULT_CONFIG
      else
        match configPath with
        | Some configPath => try_catch (readConfig h configPath) parseFailed
        | None => ret DEFAULT_CONFIG
        end
  end.

(** The file [loadConfig] goes on to read, when there is one: the explicit
    path when it is given and exists, else the first conventional file of
    the working directory. *)
Definition configFile (h : Host) (customPath : option jsstring)
    : option jsstring :=
  let found :=
    if truthy customPath then
      match customPath with
      | Some custom =>
          if existsSync h (path_resolve h custom)
          then Some (path_resolve h custom) else None
      | None => None
      end
    else searchConfig h (process_cwd h) CONFIG_FILE_NAMES in
  if truthy found then found else None.

(** The configuration a file gives, from what [JSON.parse] made of it. *)
Definition merged (userConfig : value) (excludes protecteds : list value)
    : Config :=
  {| excludePatterns := map VStr builtinProtected ++ excludes;
     staleDays := nullish (prop userConfig (js "staleDays")) (VNum 30);
     protectedBranches := map VStr builtinProtected ++ protecteds |}.

Definition loadedLine (configPath : jsstring) : event :=
  ConsoleLog (clipboard ++ js " Loaded config from: " ++ configPath).

Definition parseWarning (error : thrown) : event :=
  ConsoleWarn (js "Warning: Failed to parse config file: " ++ text error).

Definition notFoundWarning (configPath : jsstring) : event :=
  ConsoleWarn (js "Warning: Config file not found at " ++ configPath
               ++ js ", using defaults").

(** The file is read, parsed and merged: the way through the [try] block
    that reaches its [return]. *)
Definition Loaded (h : Host) (configPath : jsstring) (config : Config) : Prop :=
  exists content userConfig excludes protecteds,
    readFileSync h configPath = inr content
    /\ JSON_parse h content = inr userConfig
    /\ isNullish userConfig = false
    /\ iterable (nullish (prop userConfig (js "excludePatterns")) (VArr []))
       = Some excludes
    /\ iterable (nullish (prop userConfig (js "protectedBranches")) (VArr []))
       = Some protecteds
    /\ config = merged userConfig excludes protecteds.

End Config.

(** ** [src/cli.ts]: the command line *)

Module Cli.

Local Open Scope js_scope.

Record CliArgs : Type := {
  repoPath : option jsstring;
  configPath : option jsstring;
  excludePatterns : list jsstring;
  staleDays : option Z;
  help : bool
}.

Definition set_repoPath (r : CliArgs) (v : option jsstring) : CliArgs :=
  {| repoPath := v; configPath := configPath r;
     excludePatterns := excludePatterns r; staleDays := staleDays r;
     help := help r |}.

Definition set_configPath (r : CliArgs) (v : option jsstring) : CliArgs :=
  {| repoPath := repoPath r; configPath := v;
     excludePatterns := excludePatterns r; staleDays := staleDays r;
     help := help r |}.

Definition push_excludePattern (r : CliArgs) (v : jsstring) : CliArgs :=
  {| repoPath := repoPath r; configPath := configPath r;
     excludePatterns := excludePatterns r ++ [v]; staleDays := staleDays r;
     help := help r |}.

Definition set_staleDays (r : CliArgs) (v : Z) : CliArgs :=
  {| repoPath := repoPath r; configPath := configPath r;
     excludePatterns := excludePatterns r; staleDays := Some v;
     help := help r |}.

Definition set_help (r : CliArgs) : CliArgs :=
  {| repoPath := repoPath r; configPath := configPath r;
     excludePatterns := excludePatterns r; staleDays := staleDays r;
     help := true |}.

(** *** [parseInt(string, 10)]

    The answer is an integer or [NaN]; [None] stands for [NaN], and an
    integer is held by its exact value (the engine rounds it to a double
    past 2^53).  An argument that is [undefined] is read as the string
    ["undefined"]. *)

Definition isDigit (c : char) : bool := N.leb 48 c && N.leb c 57.

Definition digitValue (c : char) : Z := Z.of_N c - 48.

Fixpoint leadingDigits (s : jsstring) : jsstring :=
  match s with
  | c :: s' => if isDigit c then c :: leadingDigits s' else []
  | [] => []
  end.

Definition decimalValue (digits : jsstring) : Z :=
  fold_left (fun acc c => (10 * acc + digitValue c)%Z) digits 0%Z.

Definition c_minus : char := Eval cbv in N_of_ascii "-".
Definition c_plus : char := Eval cbv in N_of_ascii "+".

Definition parseInt (string : option jsstring) : option Z :=
  let inputString :=
    match string with Some s => s | None => js "undefined" end in
  let S := trimStart inputString in
  let sign : Z :=
    match S with c :: _ => if N.eqb c c_minus then (-1)%Z else 1%Z | [] => 1%Z end in
  let S :=
    match S with
    | c :: S' => if N.eqb c c_minus || N.eqb c c_plus then S' else S
    | [] => S
    end in
  match leadingDigits S with
  | [] => None
  | digits => Some (sign * decimalValue digits)%Z
  end.

(** [parseInt] answers a number exactly when, past leading white space and
    one sign, the argument starts with a digit. *)
Definition startsWithInteger (v : jsstring) : bool :=
  match trimStart v with
  | c :: S' =>
      if N.eqb c c_minus || N.eqb c c_plus
      then match S' with d :: _ => isDigit d | [] => false end
      else isDigit c
  | [] => false
  end.

(** *** [parseArgs] *)

Definition isOption (arg : jsstring) (short long : string) : bool :=
  str_eqb arg (js short) || str_eqb arg (js long).

(** The [for] loop with its [switch]; [args[++i]] takes the next argument,
    which is [undefined] past the end. *)
Fixpoint parseLoop (args : list jsstring) (result : CliArgs) : CliArgs :=
  match args with
  | [] => result
  | arg :: rest =>
      if isOption arg "-h" "--help" then parseLoop rest (set_help result)
      else if isOption arg "-p" "--path" then
        match rest with
        | v :: rest' => parseLoop rest' (set_repoPath result (Some v))
        | [] => set_repoPath result None
        end
      else if isOption arg "-c" "--config" then
        match rest with
        | v :: rest' => parseLoop rest' (set_configPath result (Some v))
        | [] => set_configPath result None
        end
      else if isOption arg "-e" "--exclude" then
        match rest with
        | pattern :: rest' =>
            parseLoop rest'
              (if truthy (Some pattern)
               then push_excludePattern result pattern else result)
        | [] => result
        end
      else if isOption arg "-s" "--stale-days" then
        match rest with
        | v :: rest' =>
            parseLoop rest'
              (match parseInt (Some v) with
               | Some days => set_staleDays result days
               | None => result
               end)
        | [] =>
            match parseInt None with
            | Some days => set_staleDays result days
            | None => result
            end
        end
      else
        parseLoop rest
          (if negb (startsWith arg (js "-")) && negb (truthy (repoPath result))
           then set_repoPath result (Some arg) else result)
  end.

(** The text of [printHelp], line by line ([quote] is the double quote). *)
Definition quote : jsstring := [34]%N.

Definition unlines (lines : list jsstring) : jsstring :=
  flat_map (fun line => line ++ [10]%N) lines.

Definition usage : jsstring :=
  unlines
  [[];
   [55358; 56825]%N ++ js " Git Branch Cleaner Agent";
   [];
   js "An AI-powered tool to safely clean up unnecessary git branches.";
   [];
   js "USAGE:";
   js "  git-branch-cleaner [OPTIONS] [REPO_PATH]";
   [];
   js "OPTIONS:";
   js "  -h, --help              Show this help message";
   js "  -p, --path <path>       Path to the git repository (default: current directory)";
   js "  -c, --config <path>     Path to config file (default: .branchcleanerrc in repo)";
   js "  -e, --exclude <pattern> Exclude branches matching pattern (can be used multiple times)";
   js "  -s, --stale-days <days> Days of inactivity to consider a branch stale (default: 30)";
   [];
   js "EXAMPLES:";
   js "  # Clean branches in current directory";
   js "  git-branch-cleaner";
   [];
   js "  # Clean branches in a specific repo";
   js "  git-branch-cleaner /path/to/repo";
   [];
   js "  # Exclude preview branches";
   js "  git-branch-cleaner --exclude " ++ quote ++ js "preview-*" ++ quote;
   [];
   js "  # Multiple exclusions with custom stale threshold";
   js "  git-branch-cleaner -e " ++ quote ++ js "release-*" ++ quote ++ js " -e " ++ quote ++ js "hotfix-*" ++ quote ++ js " -s 60";
   [];
   js "CONFIG FILE:";
   js "  Create a .branchcleanerrc file in your repo root:";
   js "  {";
   js "    " ++ quote ++ js "excludePatterns" ++ quote ++ js ": [" ++ quote ++ js "preview-*" ++ quote ++ js ", " ++ quote ++ js "release-*" ++ quote ++ js "],";
   js "    " ++ quote ++ js "staleDays" ++ quote ++ js ": 30,";
   js "    " ++ quote ++ js "protectedBranches" ++ quote ++ js ": [" ++ quote ++ js "custom-protected" ++ quote ++ js "]";
   js "  }";
   [];
   js "PROTECTED BRANCHES (never deleted):";
   js "  main, master, dev, develop, development,";
   js "  stage, staging, prod, production, preview, release"].

Definition printHelp : M unit := console_log usage.

(** [args] is [process.argv.slice(2)]. *)
Definition parseArgs (args : list jsstring) : M CliArgs :=
  let result :=
    parseLoop args
      {| repoPath := None; configPath := None; excludePatterns := [];
         staleDays := None; help := false |} in
  if help result then printHelp ;; process_exit 0%Z
  else ret result.

End Cli.

(** ** [src/index.ts]: git, the confirmation and the tools *)

Module Tools.

Local Open Scope js_scope.

(** [colors] *)
Definition esc (code : string) : jsstring := [27]%N ++ js code.
Definition colors_reset : jsstring := esc "[0m".
Definition colors_cyan : jsstring := esc "[36m".
Definition colors_green : jsstring := esc "[32m".
Definition colors_yellow : jsstring := esc "[33m".
Definition colors_red : jsstring := esc "[31m".

(** The signs of the messages: U+26A0 U+FE0F, U+2705, U+274C. *)
Definition warningSign : jsstring := [9888; 65039]%N.
Definition checkMark : jsstring := [9989]%N.
Definition crossMark : jsstring := [10060]%N.

(** [execGit]: the command is run; its output comes back trimmed; a failure
    that is an [Error] with a [stderr] is thrown again as a new [Error],
    any other failure as it is. *)
Definition execGit (h : Host) (command cwd : jsstring) : M jsstring :=
  fun tr =>
    let tr' := tr ++ [Exec command cwd] in
    match execSync h tr command cwd with
    | inr out => (Return (trim out), tr')
    | inl error =>
        match isError error, stderr error with
        | true, Some err =>
            (Throw (newError (js "Git command failed: " ++ err)), tr')
        | _, _ => (Throw error, tr')
        end
    end.

(** [promptUser]: the question is put on the terminal and answered. *)
Definition promptUser (h : Host) (prompt : jsstring) : M jsstring :=
  fun tr =>
    let shown := colors_cyan ++ prompt ++ colors_reset ++ js " " in
    let answer := question h tr shown in
    (Return answer, tr ++ [Question shown answer]).

(** [xs.forEach(f)] *)
Fixpoint forEach {A} (xs : list A) (f : A -> M unit) : M unit :=
  match xs with
  | [] => ret tt
  | x :: xs' => f x ;; forEach xs' f
  end.

(** [answer.toLowerCase() === "yes" || answer.toLowerCase() === "y"] *)
Definition confirmedBy (h : Host) (answer : jsstring) : bool :=
  str_eqb (toLowerCase h answer) (js "yes")
  || str_eqb (toLowerCase h answer) (js "y").

Definition askUserConfirmation (h : Host) (message : jsstring)
    (branches : list jsstring) : M bool :=
  console_log (newline ++ repeat_str (js "=") 50) ;;
  console_log (colors_yellow ++ warningSign ++ js "  CONFIRMATION REQUIRED"
               ++ colors_reset) ;;
  console_log (repeat_str (js "=") 50) ;;
  console_log message ;;
  console_log (newline ++ js "Branches to be deleted:") ;;
  forEach branches
    (fun b => console_log (js "  " ++ colors_red ++ js "- " ++ b ++ colors_reset)) ;;
  console_log [] ;;
  answer <- promptUser h (js "Do you want to proceed? (yes/no):") ;;
  let confirmed := confirmedBy h answer in
  console_log (if confirmed
               then colors_green ++ checkMark ++ js " Confirmed" ++ colors_reset
               else colors_red ++ crossMark ++ js " Cancelled" ++ colors_reset) ;;
  ret confirmed.

(** A tool answers [{ content: [{ type: "text", text: JSON.stringify(o) }] }];
    the model keeps the object [o]. *)
Definition ToolResult := value.

Definition field (key : string) (v : value) : jsstring * value := (js key, v).

Definition errorMessage (error : thrown) : jsstring :=
  if isError error then message error else js "Unknown error".

Definition cannotDeleteCurrent : jsstring :=
  js "Cannot delete the currently checked out branch".

(** The tool [delete_local_branch]. *)
Definition delete_local_branch (h : Host) (repoPath : jsstring)
    (branch_name : jsstring) (force : option bool) : M ToolResult :=
  let force := match force with Some f => f | None => false end in
  currentBranch <- execGit h (js "git rev-parse --abbrev-ref HEAD") repoPath ;;
  if str_eqb currentBranch branch_name then
    ret (VObj [field "success" (VBool false);
               field "error" (VStr cannotDeleteCurrent)])
  else
    let flag := if force then js "-D" else js "-d" in
    try_catch
      (execGit h (js "git branch " ++ flag ++ js " " ++ branch_name) repoPath ;;
       ret (VObj [field "success" (VBool true);
                  field "message"
                    (VStr (js "Local branch '" ++ branch_name
                           ++ js "' deleted successfully"))]))
      (fun error =>
         ret (VObj [field "success" (VBool false);
                    field "error" (VStr (errorMessage error))])).

(** The tool [get_main_branch]; [mainBranch] starts as ["main"] and is
    assigned in the handlers. *)
Definition get_main_branch (h : Host) (repoPath : jsstring) : M ToolResult :=
  let mainBranch := js "main" in
  mainBranch <-
    try_catch
      (execGit h (js "git rev-parse --verify main") repoPath ;;
       ret mainBranch)
      (fun _ =>
         try_catch
           (execGit h (js "git rev-parse --verify master") repoPath ;;
            ret (js "master"))
           (fun _ =>
              try_catch
                (remoteHead <-
                   execGit h (js "git symbolic-ref refs/remotes/origin/HEAD")
                     repoPath ;;
                 ret (replaceFirst (js "refs/remotes/origin/") [] remoteHead))
                (fun _ => ret (js "main")))) ;;
  ret (VObj [field "mainBranch" (VStr mainBranch)]).

(** [Math.floor((now - lastCommitDate) / (1000 * 60 * 60 * 24))] of
    [get_branch_info], on times in milliseconds. *)
Definition msPerDay : Z := (1000 * 60 * 60 * 24)%Z.

Definition daysSinceLastCommit (now lastCommitDate : Z) : Z :=
  ((now - lastCommitDate) / msPerDay)%Z.

(** The settings of a run, from the first lines of [runAgent]. *)
Record Settings : Type := {
  excludePatterns : list value;
  staleDays : value;
  repoPath : jsstring
}.

Definition settings (h : Host) (args : Cli.CliArgs) (config : Config.Config)
    : Settings :=
  {| excludePatterns :=
       Config.excludePatterns config ++ map VStr (Cli.excludePatterns args);
     staleDays :=
       match Cli.staleDays args with
       | Some days => VNum (inject_Z days)
       | None => Config.staleDays config
       end;
     repoPath :=
       match Cli.repoPath args with
       | Some p => p
       | None => process_cwd h
       end |}.

Definition runAgent_settings (h : Host) (argv : list jsstring) : M Settings :=
  args <- Cli.parseArgs argv ;;
  config <- Config.loadConfig h (Cli.configPath args) ;;
  ret (settings h args config).

(** What [askUserConfirmation] prints before it asks, and what it asks. *)
Definition banner (message : jsstring) (branches : list jsstring) : trace :=
  [ConsoleLog (newline ++ repeat_str (js "=") 50);
   ConsoleLog (colors_yellow ++ warningSign ++ js "  CONFIRMATION REQUIRED"
               ++ colors_reset);
   ConsoleLog (repeat_str (js "=") 50);
   ConsoleLog message;
   ConsoleLog (newline ++ js "Branches to be deleted:")]
  ++ map (fun b => ConsoleLog (js "  " ++ colors_red ++ js "- " ++ b
                               ++ colors_reset)) branches
  ++ [ConsoleLog []].

Definition proceedPrompt : jsstring :=
  colors_cyan ++ js "Do you want to proceed? (yes/no):" ++ colors_reset
  ++ js " ".

Definition verdictLine (confirmed : bool) : jsstring :=
  if confirmed
  then colors_green ++ checkMark ++ js " Confirmed" ++ colors_reset
  else colors_red ++ crossMark ++ js " Cancelled" ++ colors_reset.

(** The words [yes] and [y] in every letter case. *)
Definition yesWords : list jsstring :=
  [js "yes"; js "yeS"; js "yEs"; js "yES"; js "Yes"; js "YeS"; js "YEs";
   js "YES"; js "y"; js "Y"].

(** The commands of the two tools, and their answers. *)
Definition c_currentBranch : jsstring := js "git rev-parse --abbrev-ref HEAD".
Definition c_verifyMain : jsstring := js "git rev-parse --verify main".
Definition c_verifyMaster : jsstring := js "git rev-parse --verify master".
Definition c_remoteHead : jsstring :=
  js "git symbolic-ref refs/remotes/origin/HEAD".

Definition refusal : ToolResult :=
  VObj [field "success" (VBool false);
        field "error" (VStr (js "Cannot delete the currently checked out branch"))].

Definition mainBranchIs (n : jsstring) : ToolResult :=
  VObj [field "mainBranch" (VStr n)].

End Tools.

(** The earlier variant of [index.ts] asks without colours; its tools are
    those of [Tools], word for word. *)
Module ToolsPlain.

Local Open Scope js_scope.

Definition askUserConfirmation (h : Host) (message : jsstring)
    (branches : list jsstring) : M bool :=
  console_log (newline ++ repeat_str (js "=") 50) ;;
  console_log (Tools.warningSign ++ js "  CONFIRMATION REQUIRED") ;;
  console_log (repeat_str (js "=") 50) ;;
  console_log message ;;
  console_log (newline ++ js "Branches to be deleted:") ;;
  Tools.forEach branches (fun b => console_log (js "  - " ++ b)) ;;
  console_log [] ;;
  fun tr =>
    let shown := js "Do you want to proceed? (yes/no): " in
    let answer := question h tr shown in
    let confirmed := Tools.confirmedBy h answer in
    (console_log (if confirmed
                  then Tools.checkMark ++ js " Confirmed"
                  else Tools.crossMark ++ js " Cancelled") ;;
     ret confirmed) (tr ++ [Question shown answer]).

Definition plainBanner (message : jsstring) (branches : list jsstring) : trace :=
  [ConsoleLog (newline ++ repeat_str (js "=") 50);
   ConsoleLog (Tools.warningSign ++ js "  CONFIRMATION REQUIRED");
   ConsoleLog (repeat_str (js "=") 50);
   ConsoleLog message;
   ConsoleLog (newline ++ js "Branches to be deleted:")]
  ++ map (fun b => ConsoleLog (js "  - " ++ b)) branches
  ++ [ConsoleLog []].

Definition plainPrompt : jsstring := js "Do you want to proceed? (yes/no): ".

Definition plainVerdict (confirmed : bool) : jsstring :=
  if confirmed
  then Tools.checkMark ++ js " Confirmed"
  else Tools.crossMark ++ js " Cancelled".

End ToolsPlain.

(** ** The branch classifier of the specification *)

Module Classifier.





(** Modelled from the spec: the run of characters a [*] stands for in the
    glob of section 4.1, zero or more arbitrary characters: the rest of
    the pattern is tried on the name and on each of its tails. *)
Fixpoint anyRun (rest : jsstring -> bool) (name : jsstring) : bool :=
  rest name
  || match name with
     | [] => false
     | _ :: name' => anyRun rest name'
     end.

(** Modelled from the spec: the restricted glob of section 4.1, a contract
    and not the function of [src/config.ts], which the classifier is
    specified against: [*] stands for zero or more arbitrary characters,
    [?] for exactly one arbitrary character, every other character for
    itself, and the whole name is to be matched.  A character is a UTF-16
    code unit, as in the strings of the sources. *)
Fixpoint globMatches (pattern name : jsstring) {struct pattern} : bool :=
  match pattern with
  | [] => match name with [] => true | _ :: _ => false end
  | c :: pattern' =>
      if N.eqb c c_star then anyRun (globMatches pattern') name
      else
        match name with
        | [] => false
        | x :: name' =>
            (N.eqb c c_quest || N.eqb x c) && globMatches pattern' name'
        end
  end.

(** Modelled from the spec: [matches] of section 4.1.  Exact equality is
    always a match; otherwise the pattern is read as a glob. *)
Definition matches (name pattern : jsstring) : bool :=
  str_eqb name pattern || globMatches pattern name.

(** Modelled from the spec: the whole days of section 4.3, step 4.  The
    specification gives no unit for its points in time; they are taken in
    milliseconds, and a day as 24 hours of them, the days begun and not
    ended not counted. *)
Definition wholeDays (elapsed : Z) : Z := (elapsed / 86400000)%Z.


End Classifier.

(** ** The stale-days rule of the specification *)

Module StaleDaysContract.

(** Written after the specification (section 4.2), to compare the sources
    with: the value of the file counts when it is a valid integer, else the
    default 30 does; the value of the command line replaces it when it is a
    valid non-negative integer. *)

Definition isInteger (v : value) : bool :=
  match v with
  | VNum q => Pos.eqb (Qden (Qred q)) 1
  | _ => false
  end.

Definition isNonNegativeInteger (s : jsstring) : bool :=
  match s with
  | [] => false
  | _ => forallb Cli.isDigit s
  end.

Definition configured (fileValue : value) : value :=
  if isInteger fileValue then fileValue else VNum 30.

Definition effective (fileValue : value) (cli : option jsstring) : value :=
  match cli with
  | Some s =>
      if isNonNegativeInteger s then VNum (inject_Z (Cli.decimalValue s))
      else configured fileValue
  | None => configured fileValue
  end.

(** A command line with an optional [-c path] and an optional stale-days
    option, short or long. *)
Definition staleFlag (long : bool) : jsstring :=
  if long then js "--stale-days" else js "-s".

Definition commandLine (customPath : option jsstring)
    (staleDaysArg : option (bool * jsstring)) : list jsstring :=
  match customPath with Some p => [js "-c"; p] | None => [] end
  ++ match staleDaysArg with
     | Some (long, v) => [staleFlag long; v]
     | None => []
     end.

(** The threshold a run ends up with. *)
Definition staleDaysOf (run : outcome Tools.Settings * trace) : option value :=
  match fst run with
  | Return s => Some (Tools.staleDays s)
  | _ => None
  end.

End StaleDaysContract.

(** ** Hosts to run the model on *)

Module Samples.

Definition enoent : thrown :=
  {| isError := true;
     message := js "ENOENT: no such file or directory";
     stderr := None;
     text := js "Error: ENOENT: no such file or directory" |}.

Definition syntaxError : thrown :=
  {| isError := true;
     message := js "Unexpected token";
     stderr := None;
     text := js "SyntaxError: Unexpected token" |}.

Definition gitFailure (err : string) : thrown :=
  {| isError := true;
     message := js "Command failed";
     stderr := Some (js err);
     text := js "Error: Command failed" |}.

Definition joinPath (dir file : jsstring) : jsstring := dir ++ js "/" ++ file.

(** A working directory without a configuration file and without a
    repository; the user answers [Yes]. *)
Definition bareHost : Host :=
  {| process_cwd := js "/work";
     path_resolve := fun p => joinPath (js "/work") p;
     path_join := joinPath;
     existsSync := fun _ => false;
     readFileSync := fun _ => inl enoent;
     JSON_parse := fun _ => inl syntaxError;
     execSync := fun _ _ _ => inl (gitFailure "fatal: not a git repository");
     question := fun _ _ => js "Yes";
     toLowerCase := map asciiLower |}.

(** The same with files: [files] gives the content of the files that
    exist, [parse] what [JSON.parse] makes of a content. *)
Definition hostWithFiles (files : jsstring -> option jsstring)
    (parse : jsstring -> thrown + value) : Host :=
  {| process_cwd := js "/work";
     path_resolve := fun p => joinPath (js "/work") p;
     path_join := joinPath;
     existsSync := fun p => match files p with Some _ => true | None => false end;
     readFileSync :=
       fun p => match files p with Some c => inr c | None => inl enoent end;
     JSON_parse := parse;
     execSync := fun _ _ _ => inl (gitFailure "fatal: not a git repository");
     question := fun _ _ => js "Yes";
     toLowerCase := map asciiLower |}.

(** [.branchcleanerrc] in the working directory, holding [{ staleDays: v }]. *)
Definition rcFile (p : jsstring) : option jsstring :=
  if str_eqb p (js "/work/.branchcleanerrc") then Some (js "{...}") else None.

Definition staleDaysHost (v : value) : Host :=
  hostWithFiles rcFile (fun _ => inr (VObj [(js "staleDays", v)])).

(** [.branchcleanerrc] with a content that does not parse. *)
Definition brokenRcHost : Host :=
  hostWithFiles rcFile (fun _ => inl syntaxError).

(** A repository: [git] answers by the command alone. *)
Definition gitHost (git : jsstring -> thrown + jsstring) : Host :=
  {| process_cwd := js "/repo";
     path_resolve := fun p => joinPath (js "/repo") p;
     path_join := joinPath;
     existsSync := fun _ => false;
     readFileSync := fun _ => inl enoent;
     JSON_parse := fun _ => inl syntaxError;
     execSync := fun _ command _ => git command;
     question := fun _ _ => js "no";
     toLowerCase := map asciiLower |}.

(** On [feature-x]; no [main], no [master], the remote's default is
    [develop]. *)
Definition onFeatureX (command : jsstring) : thrown + jsstring :=
  if str_eqb command (js "git rev-parse --abbrev-ref HEAD")
  then inr (js "feature-x" ++ [10]%N)
  else if str_eqb command (js "git symbolic-ref refs/remotes/origin/HEAD")
  then inr (js "refs/remotes/origin/develop" ++ [10]%N)
  else inl (gitFailure "fatal: Needed a single revision").



End Samples.

(** ** More of the strings *)

Module Text.

(** [s.split(sep)] for a separator of one code unit: the pieces between
    the separators, the empty string giving one empty piece. *)
Fixpoint split (sep : char) (s : jsstring) : list jsstring :=
  match s with
  | [] => [[]]
  | c :: s' =>
      if N.eqb c sep then [] :: split sep s'
      else match split sep s' with
           | piece :: pieces => (c :: piece) :: pieces
           | [] => [[c]]
           end
  end.

(** [pieces.join(sep)] *)
Fixpoint join (sep : jsstring) (pieces : list jsstring) : jsstring :=
  match pieces with
  | [] => []
  | [piece] => piece
  | piece :: pieces' => piece ++ sep ++ join sep pieces'
  end.

(** [s.endsWith(suffix)] *)
Definition endsWith (s suffix : jsstring) : bool :=
  startsWith (rev s) (rev suffix).

Definition c_bar : char := Eval cbv in N_of_ascii "|".
Definition c_lf : char := 10%N.
Definition c_slash : char := Eval cbv in N_of_ascii "/".

(** A string without the code unit [c]. *)
Definition free (c : char) (s : jsstring) : bool :=
  forallb (fun x => negb (N.eqb x c)) s.

(** A string that [trim] leaves as it is: it neither starts nor ends with
    white space. *)
Definition trimmed (s : jsstring) : bool :=
  match s, rev s with
  | c :: _, d :: _ => negb (isStrWhiteSpaceChar c) && negb (isStrWhiteSpaceChar d)
  | _, _ => true
  end.

End Text.

(** ** [src/cli.ts]: command lines to state the loop on *)

Module CliLines.

Definition optionSpellings : list jsstring :=
  [js "-h"; js "--help"; js "-p"; js "--path"; js "-c"; js "--config";
   js "-e"; js "--exclude"; js "-s"; js "--stale-days"].

Definition isKnownOption (arg : jsstring) : bool :=
  existsb (str_eqb arg) optionSpellings.

(** An argument that does not start with [-]. *)
Definition isPositional (arg : jsstring) : bool :=
  negb (startsWith arg (js "-")).

Definition excludeFlag (long : bool) : jsstring :=
  if long then js "--exclude" else js "-e".

(** [-e p1 -e p2 ...], each in its short or long spelling. *)
Definition excludeArgs (ps : list (bool * jsstring)) : list jsstring :=
  flat_map (fun lp => [excludeFlag (fst lp); snd lp]) ps.

(** [-s v1 -s v2 ...] *)
Definition staleArgs (vs : list (bool * jsstring)) : list jsstring :=
  flat_map (fun lv => [StaleDaysContract.staleFlag (fst lv); snd lv]) vs.

Definition nonEmpty (s : jsstring) : bool := truthy (Some s).

Definition initial : Cli.CliArgs :=
  {| Cli.repoPath := None; Cli.configPath := None; Cli.excludePatterns := [];
     Cli.staleDays := None; Cli.help := false |}.

End CliLines.

(** ** [src/index.ts]: the other tools *)

Module MoreTools.
Import Text Tools.

Local Open Scope js_scope.

(** *** [replace] with a regular expression

    [exec] is the matcher of [Glob.run] that also tells where the match
    ends: it answers the input left after the match the backtracking finds
    first. *)

Fixpoint starRest (a : Glob.atom) (k : nat -> jsstring -> option jsstring)
    (pos : nat) (s : jsstring) : option jsstring :=
  match s with
  | x :: s' =>
      if Glob.atomMatches a x then
        match starRest a k (S pos) s' with
        | Some rest => Some rest
        | None => k pos s
        end
      else k pos s
  | [] => k pos []
  end.

Fixpoint exec (re : Glob.RegExp) (pos : nat) (s : jsstring) : option jsstring :=
  match re with
  | [] => Some s
  | Glob.TBol :: re' => if Nat.eqb pos 0 then exec re' pos s else None
  | Glob.TEol :: re' => match s with [] => exec re' pos s | _ :: _ => None end
  | Glob.TAtom a :: re' =>
      match s with
      | x :: s' => if Glob.atomMatches a x then exec re' (S pos) s' else None
      | [] => None
      end
  | Glob.TStar a :: re' => starRest a (exec re') pos s
  end.

(** [s.replace(regex, rep)] without the [g] flag, for a [rep] without [$]:
    the first match from the left is replaced. *)
Fixpoint replaceFrom (re : Glob.RegExp) (rep : jsstring) (pos : nat)
    (s : jsstring) : jsstring :=
  match exec re pos s with
  | Some rest => rep ++ rest
  | None =>
      match s with
      | [] => []
      | c :: s' => c :: replaceFrom re rep (S pos) s'
      end
  end.

Definition replaceRegExp (re : Glob.RegExp) (rep s : jsstring) : jsstring :=
  replaceFrom re rep 0 s.

(** *** [delete_remote_branch]

    The expression [new RegExp(`^${remote}/`)] is built from the remote
    name as it is.  The model answers [None] where that expression is
    outside the fragment of [Glob.RegExp_new]. *)

Definition pushDelete (remote cleanBranchName : jsstring) : jsstring :=
  js "git push " ++ remote ++ js " --delete " ++ cleanBranchName.

Definition delete_remote_branch (h : Host) (repoPath branch_name : jsstring)
    (remote : option jsstring) : option (M ToolResult) :=
  let remote := match remote with Some r => r | None => js "origin" end in
  match Glob.RegExp_new ([c_caret] ++ remote ++ js "/") with
  | None => None
  | Some regex =>
      let cleanBranchName := replaceRegExp regex [] branch_name in
      Some
        (try_catch
           (execGit h (pushDelete remote cleanBranchName) repoPath ;;
            ret (VObj [field "success" (VBool true);
                       field "message"
                         (VStr (js "Remote branch '" ++ remote ++ js "/"
                                ++ cleanBranchName
                                ++ js "' deleted successfully"))]))
           (fun error =>
              ret (VObj [field "success" (VBool false);
                         field "error" (VStr (errorMessage error))])))
  end.

(** *** [check_merged_status] *)

Definition noMainBranch : ToolResult :=
  VObj [field "error" (VStr (js "Could not find main or master branch"));
        field "merged" (VBool false)].

(** [b.trim().replace("* ", "")] *)
Definition branchOfLine (b : jsstring) : jsstring :=
  replaceFirst (js "* ") [] (trim b).

Definition check_merged_status (h : Host) (repoPath branch_name : jsstring)
    : M ToolResult :=
  found <-
    try_catch
      (execGit h (js "git rev-parse --verify main") repoPath ;;
       ret (Some (js "main")))
      (fun _ =>
         try_catch
           (execGit h (js "git rev-parse --verify master") repoPath ;;
            ret (Some (js "master")))
           (fun _ => ret None)) ;;
  match found with
  | None => ret noMainBranch
  | Some mainBranch =>
      try_catch
        (mergedBranches <-
           execGit h (js "git branch --merged " ++ mainBranch) repoPath ;;
         let isMerged :=
           existsb (fun b => str_eqb (branchOfLine b) branch_name)
             (split c_lf mergedBranches) in
         ret (VObj [field "branch" (VStr branch_name);
                    field "mainBranch" (VStr mainBranch);
                    field "merged" (VBool isMerged)]))
        (fun error =>
           ret (VObj [field "branch" (VStr branch_name);
                      field "error" (VStr (errorMessage error));
                      field "merged" (VBool false)]))
  end.

(** *** [get_branch_info]

    The clock is of the host: [Date.now()], and [new Date(date).getTime()],
    which is [NaN] for a text that is no date ([None] stands for [NaN]). *)

Record Clock : Type := {
  Date_now : trace -> Z;
  Date_getTime : jsstring -> option Z
}.

(** The values the tool destructures from [info.split("|")]; a name past
    the end of the array is [undefined]. *)
Record LastCommit : Type := {
  hash : option jsstring;
  author : option jsstring;
  email : option jsstring;
  date : option jsstring;
  message : option jsstring
}.

(** The object the tool serialises. *)
Inductive BranchInfo : Type :=
| Info (branch : jsstring) (lastCommit : LastCommit)
       (daysSinceLastCommit : option Z)
| InfoError (branch : jsstring) (error : jsstring).

Definition gitLog (branch_name : jsstring) : jsstring :=
  js "git log -1 --format=" ++ Cli.quote ++ js "%H|%an|%ae|%ci|%s"
  ++ Cli.quote ++ js " " ++ branch_name.

Definition get_branch_info (h : Host) (clock : Clock)
    (repoPath branch_name : jsstring) : M BranchInfo :=
  try_catch
    (info <- execGit h (gitLog branch_name) repoPath ;;
     let parts := split c_bar info in
     let date := nth_error parts 3 in
     let lastCommitTime :=
       match date with
       | Some d => Date_getTime clock d
       | None => None
       end in
     fun tr =>
       let now := Date_now clock tr in
       (Return
          (Info branch_name
             {| hash := nth_error parts 0; author := nth_error parts 1;
                email := nth_error parts 2; date := date;
                message := nth_error parts 4 |}
             (match lastCommitTime with
              | Some t => Some (daysSinceLastCommit now t)
              | None => None
              end)),
        tr))
    (fun error => ret (InfoError branch_name (errorMessage error))).

(** *** [list_branches] *)

Inductive BranchType : Type := type_local | type_remote.

Record BranchEntry : Type := {
  name : jsstring;
  type : BranchType;
  lastCommitDate : option jsstring;
  commitHash : option jsstring
}.

Definition refFormat : jsstring :=
  js " --format=" ++ Cli.quote
  ++ js "%(refname:short)|%(committerdate:iso)|%(objectname:short)"
  ++ Cli.quote.

Definition forEachRef (refs : string) : jsstring :=
  js "git for-each-ref --sort=-committerdate " ++ js refs ++ refFormat.

(** The body of the two [for] loops: a line is split at [|], and kept when
    its name is not empty and, for a remote, does not end with [/HEAD]. *)
Definition entryOfLine (t : BranchType) (line : jsstring) : list BranchEntry :=
  let parts := split c_bar line in
  let name := match parts with n :: _ => n | [] => [] end in
  let keep :=
    match t with
    | type_local => truthy (Some name)
    | type_remote => truthy (Some name) && negb (endsWith name (js "/HEAD"))
    end in
  if keep
  then [{| name := name; type := t; lastCommitDate := nth_error parts 1;
           commitHash := nth_error parts 2 |}]
  else [].

Definition entriesOf (t : BranchType) (output : jsstring) : list BranchEntry :=
  if truthy (Some output)
  then flat_map (entryOfLine t) (split c_lf output)
  else [].

Definition list_branches (h : Host) (repoPath : jsstring)
    (include_local include_remote : option bool) : M (list BranchEntry) :=
  let include_local := match include_local with Some b => b | None => true end in
  let include_remote := match include_remote with Some b => b | None => true end in
  locals <-
    (if include_local then
       localOutput <- execGit h (forEachRef "refs/heads/") repoPath ;;
       ret (entriesOf type_local localOutput)
     else ret []) ;;
  remotes <-
    (if include_remote then
       try_catch (execGit h (js "git fetch --prune") repoPath ;; ret tt)
         (fun _ => ret tt) ;;
       remoteOutput <- execGit h (forEachRef "refs/remotes/") repoPath ;;
       ret (entriesOf type_remote remoteOutput)
     else ret []) ;;
  ret (locals ++ remotes).

(** *** [ask_confirmation] and [get_current_branch] *)

Definition ask_confirmation (h : Host) (message : jsstring)
    (branches_to_delete : list jsstring) : M ToolResult :=
  confirmed <- askUserConfirmation h message branches_to_delete ;;
  ret (VObj [field "confirmed" (VBool confirmed);
             field "message"
               (VStr (if confirmed then js "User approved the deletion"
                      else js "User cancelled the operation"))]).

Definition get_current_branch (h : Host) (repoPath : jsstring) : M ToolResult :=
  currentBranch <- execGit h (js "git rev-parse --abbrev-ref HEAD") repoPath ;;
  ret (VObj [field "currentBranch" (VStr currentBranch)]).

(** An event that runs a command. *)
Definition isExec (e : event) : bool :=
  match e with
  | Exec _ _ => true
  | _ => false
  end.

Definition isConsole (e : event) : bool :=
  match e with
  | ConsoleLog _ | ConsoleWarn _ => true
  | _ => false
  end.

(** *** What the tools answer, and on what *)

(** The [catch] of [execGit]: what it throws for a failure of [execSync]. *)
Definition rethrown (error : thrown) : thrown :=
  match isError error, stderr error with
  | true, Some err => newError (js "Git command failed: " ++ err)
  | _, _ => error
  end.

Definition failed (error : thrown) : ToolResult :=
  VObj [field "success" (VBool false);
        field "error" (VStr (errorMessage (rethrown error)))].

Definition gitBranchDelete (force : option bool) (branch_name : jsstring)
    : jsstring :=
  js "git branch "
  ++ (if match force with Some f => f | None => false end
      then js "-D" else js "-d")
  ++ js " " ++ branch_name.

Definition localDeleted (branch_name : jsstring) : ToolResult :=
  VObj [field "success" (VBool true);
        field "message"
          (VStr (js "Local branch '" ++ branch_name
                 ++ js "' deleted successfully"))].

Definition remoteDeleted (remote cleanBranchName : jsstring) : ToolResult :=
  VObj [field "success" (VBool true);
        field "message"
          (VStr (js "Remote branch '" ++ remote ++ js "/" ++ cleanBranchName
                 ++ js "' deleted successfully"))].

(** A remote name without a syntax character of regular expressions. *)
Definition plain (remote : jsstring) : bool :=
  forallb (fun c => negb (Glob.isSyntaxCharacter c)) remote.

(** The branch name without the prefix [remote/], when it has it. *)
Definition stripRemote (remote branch_name : jsstring) : jsstring :=
  if startsWith branch_name (remote ++ js "/")
  then skipn (List.length remote + 1) branch_name
  else branch_name.

Definition noWhiteSpace (s : jsstring) : bool :=
  forallb (fun c => negb (isStrWhiteSpaceChar c)) s.

(** A line of [git branch --merged]: an indentation, the mark of the
    current branch or none, and the name. *)
Definition mergedLine (l : jsstring * bool * jsstring) : jsstring :=
  fst (fst l) ++ (if snd (fst l) then js "* " else []) ++ snd l.

Definition mergedAnswer (branch_name mainBranch : jsstring) (isMerged : bool)
    : ToolResult :=
  VObj [field "branch" (VStr branch_name);
        field "mainBranch" (VStr mainBranch);
        field "merged" (VBool isMerged)].

Definition gitBranchMerged (mainBranch : jsstring) : jsstring :=
  js "git branch --merged " ++ mainBranch.

(** A line of [git for-each-ref] in the format asked for: name, date and
    hash between bars; and the entry the tools make of it. *)
Definition refLine (r : jsstring * jsstring * jsstring) : jsstring :=
  fst (fst r) ++ [c_bar] ++ snd (fst r) ++ [c_bar] ++ snd r.

Definition entryOf (t : BranchType) (r : jsstring * jsstring * jsstring)
    : BranchEntry :=
  {| name := fst (fst r); type := t; lastCommitDate := Some (snd (fst r));
     commitHash := Some (snd r) |}.

Definition wellFormedRef (r : jsstring * jsstring * jsstring) : bool :=
  truthy (Some (fst (fst r)))
  && free c_bar (fst (fst r)) && free c_lf (fst (fst r))
  && free c_bar (snd (fst r)) && free c_lf (snd (fst r))
  && free c_bar (snd r) && free c_lf (snd r).

Definition isRemoteHead (r : jsstring * jsstring * jsstring) : bool :=
  endsWith (fst (fst r)) (js "/HEAD").

(** The subject of a commit up to its first bar. *)
Definition upToBar (subject : jsstring) : jsstring :=
  match split c_bar subject with
  | piece :: _ => piece
  | [] => []
  end.

(** A line of that form: white space before, a name without white space. *)
Definition goodMergedLine (l : jsstring * bool * jsstring) : Prop :=
  forallb isStrWhiteSpaceChar (fst (fst l)) = true
  /\ snd l <> [] /\ noWhiteSpace (snd l) = true.

(** The commands of [list_branches]. *)
Definition c_heads : jsstring := forEachRef "refs/heads/".
Definition c_remotes : jsstring := forEachRef "refs/remotes/".
Definition c_fetch : jsstring := js "git fetch --prune".

(** An entry as [list_branches] makes them. *)
Definition goodEntry (e : BranchEntry) : Prop :=
  name e <> [] /\ free c_bar (name e) = true
  /\ (type e = type_remote -> endsWith (name e) (js "/HEAD") = false).

(** The term of a code unit that stands for itself. *)
Definition literal (c : char) : Glob.term := Glob.TAtom (Glob.AChar c).

End MoreTools.

(** ** More hosts to run the model on *)

Module MoreSamples.
Import Tools MoreTools Samples.

(** [main] resolves; [feature-x] and the current branch [main] are merged. *)
Definition mergedSample (command : jsstring) : thrown + jsstring :=
  if str_eqb command c_verifyMain then inr (js "0a1b2c3")
  else if str_eqb command (gitBranchMerged (js "main"))
  then inr (js "  feature-x" ++ [10]%N ++ js "* main" ++ [10]%N)
  else inl (gitFailure "fatal: Needed a single revision").

(** Two local branches, listed in the format asked for. *)
Definition refsSample (command : jsstring) : thrown + jsstring :=
  if str_eqb command c_heads
  then inr (js "main|2024-01-02|0a1b2c3" ++ [10]%N
            ++ js "feature-x|2024-01-01|4d5e6f7" ++ [10]%N)
  else inl (gitFailure "fatal: Needed a single revision").

End MoreSamples.
(** * Properties *)

Module JSFacts.

Lemma str_eqb_spec (a b : jsstring) : reflect (a = b) (str_eqb a b).
Proof.
  revert b; induction a as [|x a IH]; intros [|y b]; simpl;
    try (constructor; congruence).
  destruct (N.eqb_spec x y) as [->|Hxy]; simpl.
  - destruct (IH b) as [->|Hab]; constructor; congruence.
  - constructor; congruence.
Qed.

Lemma str_eqb_refl (a : jsstring) : str_eqb a a = true.
Proof. destruct (str_eqb_spec a a); congruence. Qed.

Lemma str_eqb_eq (a b : jsstring) : str_eqb a b = true <-> a = b.
Proof. destruct (str_eqb_spec a b); split; congruence. Qed.

Lemma str_eqb_neq (a b : jsstring) : str_eqb a b = false <-> a <> b.
Proof. destruct (str_eqb_spec a b); split; congruence. Qed.

End JSFacts.
Import JSFacts.

(** ** The glob matcher *)

Module GlobProps.
Import Glob.

(** *** The examples of the specification *)

Example matchGlob_feature_x :
  matchGlobPattern (js "feature-x") (js "feature-*") = Some true.
Proof. reflexivity. Qed.

Example matchGlob_feature :
  matchGlobPattern (js "feature") (js "feature-*") = Some false.
Proof. reflexivity. Qed.

Example matchGlob_release_dot :
  matchGlobPattern (js "release-1.2") (js "release-*") = Some true
  /\ matchGlobPattern (js "release-1x2") (js "release-1.2") = Some false.
Proof. split; reflexivity. Qed.

Example matchGlob_question :
  matchGlobPattern (js "ab") (js "a?") = Some true
  /\ matchGlobPattern (js "abc") (js "a?") = Some false.
Proof. split; reflexivity. Qed.

(** *** The expression built from a pattern *)

Ltac case_unit c k :=
  destruct (N.eqb_spec c k);
  [subst c;
   solve [ reflexivity | discriminate | intros; discriminate
         | intros; repeat split; reflexivity ] |].

Ltac case_special c :=
  case_unit c 46%N; case_unit c 43%N; case_unit c 94%N; case_unit c 36%N;
  case_unit c 123%N; case_unit c 125%N; case_unit c 40%N; case_unit c 41%N;
  case_unit c 124%N; case_unit c 91%N; case_unit c 93%N; case_unit c 92%N.

Lemma replaceEach_app matched rep (s t : jsstring) :
  replaceEach matched rep (s ++ t)
  = replaceEach matched rep s ++ replaceEach matched rep t.
Proof. apply flat_map_app. Qed.

Lemma isSyntaxCharacter_split (c : char) :
  isSyntaxCharacter c = isSpecial c || N.eqb c c_star || N.eqb c c_quest.
Proof.
  unfold isSyntaxCharacter, isSpecial, syntaxChars, specialChars, c_star, c_quest.
  simpl. case_special c. case_unit c 42%N. case_unit c 63%N. reflexivity.
Qed.

Lemma isSpecial_not_wildcard (c : char) :
  isSpecial c = true -> N.eqb c c_star = false /\ N.eqb c c_quest = false.
Proof.
  unfold isSpecial, specialChars, c_star, c_quest. simpl.
  case_special c. discriminate.
Qed.

Lemma regexPattern_cons (c : char) (p : jsstring) :
  regexPattern (c :: p) = encode c ++ regexPattern p.
Proof.
  unfold regexPattern, escapeSpecial, replaceStars, replaceQuestions, encode.
  change (c :: p) with ([c] ++ p).
  rewrite !replaceEach_app. f_equal.
  unfold replaceEach, isSpecial, specialChars, c_star, c_quest, c_dot, c_backslash.
  cbn [flat_map existsb app].
  case_special c. cbn [orb flat_map app].
  rewrite (N.eqb_sym 42 c). case_unit c 42%N. cbn [flat_map app].
  rewrite (N.eqb_sym 63 c). case_unit c 63%N. reflexivity.
Qed.

Lemma regexPattern_nil : regexPattern [] = [].
Proof. reflexivity. Qed.

(** No encoded unit starts with [*], so a [*] in the expression always
    follows the [.] it was written with. *)
Lemma encode_head (c : char) (rest : jsstring) :
  exists h t, encode c ++ rest = h :: t /\ N.eqb h c_star = false.
Proof.
  unfold encode. destruct (isSpecial c) eqn:Hsp.
  - eexists _, _. split; [reflexivity|reflexivity].
  - destruct (N.eqb_spec c c_star).
    + eexists _, _. split; reflexivity.
    + destruct (N.eqb c c_quest).
      * eexists _, _. split; reflexivity.
      * eexists _, _. split; [reflexivity|]. now apply N.eqb_neq.
Qed.

Lemma regexPattern_head (p : jsstring) :
  exists h t, regexPattern p ++ [c_dollar] = h :: t /\ N.eqb h c_star = false.
Proof.
  destruct p as [|c p].
  - eexists _, _. split; reflexivity.
  - rewrite regexPattern_cons, <- app_assoc. apply encode_head.
Qed.

Lemma quantified_plain (a : atom) (h : char) (t : jsstring) k :
  N.eqb h c_star = false ->
  quantified a (h :: t) k = option_map (cons (TAtom a)) (k (h :: t)).
Proof. intros H. unfold quantified. now rewrite H. Qed.

Lemma quantified_star (a : atom) (rest : jsstring) k :
  quantified a (c_star :: rest) k = option_map (cons (TStar a)) (k rest).
Proof. reflexivity. Qed.

Lemma parsePattern_escape (d : char) (rest : jsstring) :
  isSyntaxCharacter d = true ->
  parsePattern (c_backslash :: d :: rest) = quantified (AChar d) rest parsePattern.
Proof. intros H. cbn [parsePattern]. now rewrite H. Qed.

Lemma parsePattern_dot (rest : jsstring) :
  parsePattern (c_dot :: rest) = quantified ADot rest parsePattern.
Proof. reflexivity. Qed.

Lemma parsePattern_char (c : char) (rest : jsstring) :
  isSyntaxCharacter c = false ->
  parsePattern (c :: rest) = quantified (AChar c) rest parsePattern.
Proof.
  intros H. cbn [parsePattern].
  assert (Hs : forall k, In k syntaxChars -> N.eqb c k = false).
  { intros k Hk. destruct (N.eqb_spec c k) as [->|]; [|reflexivity].
    unfold isSyntaxCharacter in H.
    assert (existsb (N.eqb k) syntaxChars = true)
      by (apply existsb_exists; exists k; split; [assumption|apply N.eqb_refl]).
    congruence. }
  rewrite (Hs c_caret), (Hs c_dollar), (Hs c_backslash), (Hs c_dot), H;
    try reflexivity; unfold syntaxChars; simpl; tauto.
Qed.

(** The host always accepts the expression and reads it back as the terms
    of the pattern, one per code unit, between the two anchors. *)
Lemma parsePattern_regexPattern (p : jsstring) :
  parsePattern (regexPattern p ++ [c_dollar]) = Some (map termOf p ++ [TEol]).
Proof.
  induction p as [|c p IH]; [reflexivity|].
  rewrite regexPattern_cons, <- app_assoc.
  destruct (regexPattern_head p) as (h & t & Hht & Hh).
  rewrite Hht in *.
  cbn [map]. unfold encode. unfold termOf at 1.
  destruct (isSpecial c) eqn:Hsp.
  - destruct (isSpecial_not_wildcard c Hsp) as [-> ->].
    cbn [app]. rewrite parsePattern_escape, quantified_plain, IH; trivial.
    rewrite isSyntaxCharacter_split, Hsp; reflexivity.
  - destruct (N.eqb_spec c c_star) as [->|Hst].
    + cbn [app]. now rewrite parsePattern_dot, quantified_star, IH.
    + destruct (N.eqb c c_quest) eqn:Hqu.
      * cbn [app]. now rewrite parsePattern_dot, quantified_plain, IH.
      * cbn [app]. rewrite parsePattern_char, quantified_plain, IH; trivial.
        rewrite isSyntaxCharacter_split, Hsp, Hqu.
        apply N.eqb_neq in Hst. now rewrite Hst.
Qed.

Lemma RegExp_new_regexSource (p : jsstring) :
  RegExp_new (regexSource p) = Some (TBol :: map termOf p ++ [TEol]).
Proof.
  unfold RegExp_new, regexSource. cbn [app parsePattern].
  cbn [N.eqb c_caret Pos.eqb].
  now rewrite parsePattern_regexPattern.
Qed.

(** *** The matcher *)

Lemma star_true_iff (a : atom) (k : nat -> jsstring -> bool) (s : jsstring) :
  forall pos,
    star a k pos s = true <->
    exists w s', s = w ++ s' /\ forallb (atomMatches a) w = true
                 /\ k (pos + List.length w) s' = true.
Proof.
  induction s as [|x s IH]; intros pos; cbn [star].
  - split.
    + intros H. exists [], []. cbn. now rewrite Nat.add_0_r.
    + intros (w & s' & Hs & _ & Hk).
      symmetry in Hs. apply app_eq_nil in Hs as [-> ->].
      cbn in Hk. now rewrite Nat.add_0_r in Hk.
  - rewrite orb_true_iff, andb_true_iff, IH. split.
    + intros [[Hx (w & s' & -> & Hw & Hk)] | Hk].
      * exists (x :: w), s'. cbn [app forallb List.length].
        rewrite Hx, Hw, Nat.add_succ_r. auto.
      * exists [], (x :: s). cbn. now rewrite Nat.add_0_r.
    + intros ([|y w] & s' & Hs & Hw & Hk).
      * right. cbn in Hs, Hk. subst s'. now rewrite Nat.add_0_r in Hk.
      * left. cbn [app] in Hs. injection Hs as <- ->.
        cbn [forallb] in Hw. apply andb_true_iff in Hw as [Hx Hw].
        split; [assumption|]. exists w, s'.
        cbn [List.length] in Hk. rewrite Nat.add_succ_r in Hk. auto.
Qed.

Lemma termOf_star : termOf c_star = TStar ADot.
Proof. reflexivity. Qed.

Lemma termOf_quest : termOf c_quest = TAtom ADot.
Proof. reflexivity. Qed.

Lemma termOf_char (c : char) :
  c <> c_star -> c <> c_quest -> termOf c = TAtom (AChar c).
Proof.
  intros H1 H2. unfold termOf.
  apply N.eqb_neq in H1, H2. now rewrite H1, H2.
Qed.

(** The terms of a pattern, run to the end of the input, accept what the
    pattern produces with wildcards that stay off the line terminators. *)
Lemma run_body_iff (p : jsstring) :
  forall pos s,
    run (map termOf p ++ [TEol]) pos s = true <-> GlobBy notLineTerminator p s.
Proof.
  induction p as [|c p IH]; intros pos s.
  - cbn. destruct s; split; intros H; try constructor; try discriminate.
    inversion H.
  - cbn [map app].
    destruct (N.eqb_spec c c_star) as [->|Hst];
      [|destruct (N.eqb_spec c c_quest) as [->|Hqu]].
    + rewrite termOf_star. cbn [run]. rewrite star_true_iff. split.
      * intros (w & s' & -> & Hw & Hk). apply IH in Hk. now constructor.
      * intros H. inversion H; subst; try congruence.
        exists w, n. repeat split; trivial. now apply IH.
    + rewrite termOf_quest. cbn [run]. destruct s as [|x s].
      * split; [discriminate|]. intros H; inversion H; congruence.
      * cbn [atomMatches]. rewrite andb_true_iff, IH. split.
        -- intros [Hx Hp]. now constructor.
        -- intros H. inversion H; subst; try congruence. auto.
    + rewrite termOf_char by assumption. cbn [run]. destruct s as [|x s].
      * split; [discriminate|]. intros H; inversion H; congruence.
      * cbn [atomMatches]. rewrite andb_true_iff, IH, N.eqb_eq. split.
        -- intros [-> Hp]. now constructor.
        -- intros H. inversion H; subst; try congruence. auto.
Qed.

Lemma testFrom_after_start (re : RegExp) (s : jsstring) :
  forall pos, testFrom (TBol :: re) (S pos) s = false.
Proof. induction s as [|x s IH]; intros pos; cbn; [reflexivity|apply IH]. Qed.

Lemma RegExp_test_anchored (re : RegExp) (s : jsstring) :
  RegExp_test (TBol :: re) s = run re 0 s.
Proof.
  unfold RegExp_test. destruct s as [|x s]; cbn [testFrom run Nat.eqb andb].
  - apply orb_false_r.
  - now rewrite testFrom_after_start, orb_false_r.
Qed.

(** [matchGlobPattern] never raises, and this is its answer. *)
Lemma matchGlobPattern_eq (n p : jsstring) :
  matchGlobPattern n p
  = Some (str_eqb n p || run (map termOf p ++ [TEol]) 0 n).
Proof.
  unfold matchGlobPattern. rewrite RegExp_new_regexSource, RegExp_test_anchored.
  now destruct (str_eqb n p).
Qed.

Lemma matchGlobPattern_total (n p : jsstring) :
  exists b, matchGlobPattern n p = Some b.
Proof. rewrite matchGlobPattern_eq. eauto. Qed.

Lemma matchesExcludePattern_eq (n : jsstring) (ps : list jsstring) :
  matchesExcludePattern n ps
  = Some (existsb (fun p => str_eqb n p || run (map termOf p ++ [TEol]) 0 n) ps).
Proof.
  induction ps as [|p ps IH]; [reflexivity|].
  cbn [matchesExcludePattern existsb]. rewrite matchGlobPattern_eq.
  destruct (str_eqb n p || run (map termOf p ++ [TEol]) 0 n); [reflexivity|exact IH].
Qed.

(** *** The contract *)

Lemma GlobBy_mono (w1 w2 : char -> bool) (p n : jsstring) :
  (forall c, w1 c = true -> w2 c = true) -> GlobBy w1 p n -> GlobBy w2 p n.
Proof.
  intros Hw H. induction H; constructor; auto.
  rewrite forallb_forall in *. auto.
Qed.

Lemma GlobBy_restrict (wild : char -> bool) (p n : jsstring) :
  forallb wild n = true -> Glob p n -> GlobBy wild p n.
Proof.
  intros Hn H. revert Hn. unfold Glob in H.
  induction H as [|p w n Hw H IH|p x n Hx H IH|c p n H1 H2 H IH]; intros Hn.
  - constructor.
  - rewrite forallb_app in Hn. apply andb_true_iff in Hn as [Hn1 Hn2].
    constructor; auto.
  - cbn in Hn. apply andb_true_iff in Hn as [Hn1 Hn2]. constructor; auto.
  - cbn in Hn. apply andb_true_iff in Hn as [Hn1 Hn2]. constructor; auto.
Qed.

Lemma GlobBy_refl (wild : char -> bool) (p : jsstring) :
  wild c_star = true -> wild c_quest = true -> GlobBy wild p p.
Proof.
  intros Hs Hq. induction p as [|c p IH]; [constructor|].
  destruct (N.eqb_spec c c_star) as [->|Hst];
    [|destruct (N.eqb_spec c c_quest) as [->|Hqu]].
  - apply (glob_star (wild:=wild) (p:=p) [c_star] (n:=p)); [cbn; now rewrite Hs|exact IH].
  - now constructor.
  - now constructor.
Qed.

(** What [matchGlobPattern] accepts, exactly. *)
Lemma matchGlobPattern_true_iff (n p : jsstring) :
  matchGlobPattern n p = Some true <-> GlobBy notLineTerminator p n.
Proof.
  rewrite matchGlobPattern_eq. split.
  - intros H. injection H as H. apply orb_true_iff in H as [H|H].
    + apply str_eqb_eq in H as ->. now apply GlobBy_refl.
    + now apply run_body_iff in H.
  - intros H. apply (run_body_iff p 0 n) in H. rewrite H.
    now rewrite orb_true_r.
Qed.

(** It accepts nothing outside the contract, and on names without a line
    terminator it accepts the whole contract. *)
Lemma matchGlobPattern_sound (n p : jsstring) :
  matchGlobPattern n p = Some true -> Glob p n.
Proof.
  intros H. apply matchGlobPattern_true_iff in H.
  now apply GlobBy_mono with (w1 := notLineTerminator).
Qed.

Lemma matchGlobPattern_contract (n p : jsstring) :
  forallb notLineTerminator n = true ->
  (matchGlobPattern n p = Some true <-> Glob p n).
Proof.
  intros Hn. split; [apply matchGlobPattern_sound|].
  intros H. apply matchGlobPattern_true_iff. now apply GlobBy_restrict.
Qed.

(** Without a wildcard the terms are the code units of the pattern. *)
Lemma run_literal (p : jsstring) :
  hasWildcard p = false ->
  forall pos n, run (map termOf p ++ [TEol]) pos n = str_eqb n p.
Proof.
  induction p as [|c p IH]; intros Hp pos n.
  - now destruct n.
  - cbn [hasWildcard existsb] in Hp. apply orb_false_iff in Hp as [Hc Hp].
    apply orb_false_iff in Hc as [Hst Hqu].
    cbn [map app]. unfold termOf at 1. rewrite Hst, Hqu.
    destruct n as [|x n]; [reflexivity|].
    cbn [run atomMatches str_eqb]. now rewrite (IH Hp).
Qed.

(** *** The matcher against its contract *)

(** C2.  The matcher does not meet the glob contract on every name: a name
    with a line terminator where a wildcard has to stand is produced by
    the pattern, with [*] for any run of characters and [?] for any one,
    and [matchGlobPattern] answers false.  Here [a*b] and [a?b] against
    [a], U+2028, [b] and against [a], LF, [b]. *)
Theorem matchGlobPattern_misses_line_terminators :
  let ls_name := [97; 8232; 98]%N in
  let lf_name := [97; 10; 98]%N in
  Glob (js "a*b") ls_name
  /\ matchGlobPattern ls_name (js "a*b") = Some false
  /\ Glob (js "a?b") lf_name
  /\ matchGlobPattern lf_name (js "a?b") = Some false.
Proof.
  cbv zeta. repeat split; try reflexivity.
  - change (js "a*b") with [97%N; c_star; 98%N].
    apply glob_char; try discriminate.
    apply (glob_star (wild := fun _ => true) (p := [98%N]) [8232%N] (n := [98%N]));
      [reflexivity|].
    apply glob_char; try discriminate. constructor.
  - change (js "a?b") with [97%N; c_quest; 98%N].
    apply glob_char; try discriminate.
    apply glob_quest; [reflexivity|].
    apply glob_char; try discriminate. constructor.
Qed.

(** C3.  A pattern without [*] and [?] matches the name equal to it and no
    other; a name always matches the pattern equal to it, whatever
    characters the pattern holds; the empty pattern matches the empty name
    only. *)
Theorem matchGlobPattern_exact :
  (forall n p, hasWildcard p = false ->
     matchGlobPattern n p = Some (str_eqb n p)
     /\ (matchGlobPattern n p = Some true <-> n = p))
  /\ (forall s, matchGlobPattern s s = Some true)
  /\ (forall n, matchGlobPattern n [] = Some true <-> n = []).
Proof.
  assert (H : forall n p, hasWildcard p = false ->
                matchGlobPattern n p = Some (str_eqb n p)).
  { intros n p Hp. rewrite matchGlobPattern_eq, (run_literal p Hp).
    now rewrite orb_diag. }
  split; [|split].
  - intros n p Hp. split; [now apply H|].
    rewrite (H n p Hp). rewrite <- str_eqb_eq.
    split; [now intros [= ->]|now intros ->].
  - intros s. unfold matchGlobPattern. now rewrite str_eqb_refl.
  - intros n. rewrite (H n [] eq_refl), <- str_eqb_eq.
    split; [now intros [= ->]|now intros ->].
Qed.

Lemma matchGlobPattern_exact_witness :
  hasWildcard (js "fix/a.b+(c)") = false
  /\ matchGlobPattern (js "fix/a.b+(c)") (js "fix/a.b+(c)") = Some true
  /\ matchGlobPattern (js "fix/aXb+(c)") (js "fix/a.b+(c)") = Some false.
Proof.
  split; [reflexivity|]. split.
  - exact (proj1 (proj1 matchGlobPattern_exact
                    (js "fix/a.b+(c)") (js "fix/a.b+(c)") eq_refl)).
  - exact (proj1 (proj1 matchGlobPattern_exact
                    (js "fix/aXb+(c)") (js "fix/a.b+(c)") eq_refl)).
Defined.

End GlobProps.

(** ** The classifier *)

Module ClassifierProps.
Import Glob GlobProps Classifier Samples.



(** [anyRun] tries every split of the name. *)
Lemma anyRun_true_iff (rest : jsstring -> bool) (n : jsstring) :
  anyRun rest n = true <-> exists w n', n = w ++ n' /\ rest n' = true.
Proof.
  induction n as [|x n IH]; cbn [anyRun].
  - rewrite orb_false_r. split.
    + intros H. now exists [], [].
    + intros (w & n' & Hn & H). symmetry in Hn.
      apply app_eq_nil in Hn as [_ ->]. exact H.
  - rewrite orb_true_iff, IH. split.
    + intros [H|(w & n' & -> & H)].
      * now exists [], (x :: n).
      * now exists (x :: w), n'.
    + intros ([|y w] & n' & Hn & H).
      * left. cbn in Hn. now subst.
      * right. injection Hn as _ ->. now exists w, n'.
Qed.

(** The matcher of the specification decides its contract. *)
Lemma globMatches_Glob (p n : jsstring) :
  globMatches p n = true <-> Glob p n.
Proof.
  revert n. induction p as [|c p IH]; intros n; cbn [globMatches].
  - split.
    + destruct n; [constructor|discriminate].
    + intros H. inversion H. reflexivity.
  - destruct (N.eqb_spec c c_star) as [->|Hstar].
    + rewrite anyRun_true_iff. split.
      * intros (w & n' & -> & H). apply IH in H.
        apply glob_star; [|exact H]. now apply forallb_forall.
      * intros H. inversion H as [|q w n' _ Hg| |]; subst;
          [exists w, n'; split; [reflexivity|now apply IH]|congruence].
    + destruct n as [|x n].
      * split; [discriminate|]. intros H.
        inversion H as [|q w n' _ Hg Hq Hn| |]; subst; congruence.
      * rewrite andb_true_iff, orb_true_iff, IH. split.
        -- intros [[Hq|Hx] Hg].
           ++ apply N.eqb_eq in Hq as ->. now apply glob_quest.
           ++ apply N.eqb_eq in Hx as ->.
              destruct (N.eqb_spec c c_quest) as [->|Hquest].
              ** now apply glob_quest.
              ** now apply glob_char.
        -- intros H.
           inversion H as [|q w n' _ Hg Hq Hn|q y n' _ Hg|q d n' _ _ Hg];
             subst; [congruence| |].
           ++ split; [left; apply N.eqb_refl|exact Hg].
           ++ split; [right; apply N.eqb_refl|exact Hg].
Qed.

Lemma matches_Glob (n p : jsstring) : matches n p = true <-> Glob p n.
Proof.
  unfold matches. rewrite orb_true_iff, globMatches_Glob. split.
  - intros [H|H]; [|exact H]. apply str_eqb_eq in H as ->.
    now apply GlobBy_refl.
  - now right.
Qed.


(** On a name without a line terminator [matchGlobPattern] of
    [src/config.ts] answers what the matcher of the specification
    answers. *)
Lemma matches_as_source (n p : jsstring) :
  forallb notLineTerminator n = true ->
  matchGlobPattern n p = Some (matches n p).
Proof.
  intros Hn. destruct (matchGlobPattern_total n p) as [b Hb].
  rewrite Hb. f_equal.
  pose proof (matchGlobPattern_contract n p Hn) as Hc.
  pose proof (matches_Glob n p) as Hm.
  destruct b, (matches n p); try reflexivity.
  - rewrite Hb in Hc. symmetry. apply Hm, Hc. reflexivity.
  - rewrite Hb in Hc. assert (H : Some false = Some true)
      by (apply Hc, Hm; reflexivity). discriminate.
Qed.

(** The whole days are the days that [get_branch_info] of [src/index.ts]
    counts. *)
Lemma wholeDays_as_source (now last : Z) :
  wholeDays (now - last) = Tools.daysSinceLastCommit now last.
Proof. reflexivity. Qed.





End ClassifierProps.

(** ** The configuration *)

Module ConfigProps.
Import Config Samples.

Ltac run_M :=
  unfold readConfig, parseFailed, try_catch, bind, liftE, getProp, spread,
    console_log, console_warn, emit, ret, throw; cbn beta iota.

(** The [try] block with its [catch]: the merged configuration after the
    log line, or the defaults after a warning. *)
Lemma readConfig_caught (h : Host) (configPath : jsstring) (tr : trace) :
  (exists config,
      Loaded h configPath config
      /\ try_catch (readConfig h configPath) parseFailed tr
         = (Return config, tr ++ [loadedLine configPath]))
  \/ (exists tr',
      try_catch (readConfig h configPath) parseFailed tr
      = (Return DEFAULT_CONFIG, tr')).
Proof.
  unfold Loaded. run_M.
  destruct (readFileSync h configPath) as [e|content] eqn:Hread;
    [right; eauto|].
  destruct (JSON_parse h content) as [e|userConfig] eqn:Hparse;
    [right; eauto|].
  destruct (isNullish userConfig) eqn:Hnull; [right; eauto|].
  destruct (iterable (nullish (prop userConfig (js "excludePatterns")) (VArr [])))
    as [excludes|] eqn:Hex; [|right; eauto].
  destruct (iterable (nullish (prop userConfig (js "protectedBranches")) (VArr [])))
    as [protecteds|] eqn:Hpb; [|right; eauto].
  left. eexists. split; [|reflexivity].
  exists content, userConfig, excludes, protecteds. repeat split; trivial.
Qed.

(** A file that loads is answered by its merged configuration. *)
Lemma readConfig_loaded (h : Host) (configPath : jsstring) (config : Config)
    (tr : trace) :
  Loaded h configPath config ->
  try_catch (readConfig h configPath) parseFailed tr
  = (Return config, tr ++ [loadedLine configPath]).
Proof.
  intros (content & u & excludes & protecteds & Hr & Hp & Hn & Hex & Hpb & ->).
  run_M. rewrite Hr, Hp, Hn, Hex, Hpb. reflexivity.
Qed.

(** What fails to be read or to parse is answered by the defaults. *)
Lemma readConfig_failure (h : Host) (configPath : jsstring) (tr : trace)
    (error : thrown) :
  (readFileSync h configPath = inl error
   \/ exists content, readFileSync h configPath = inr content
                      /\ JSON_parse h content = inl error) ->
  try_catch (readConfig h configPath) parseFailed tr
  = (Return DEFAULT_CONFIG, tr ++ [parseWarning error]).
Proof.
  run_M. intros [Hread | (content & Hread & Hparse)]; rewrite Hread.
  - reflexivity.
  - now rewrite Hparse.
Qed.

(** [loadConfig], by the file it reads. *)
Lemma loadConfig_file (h : Host) (customPath : option jsstring)
    (configPath : jsstring) (tr : trace) :
  configFile h customPath = Some configPath ->
  loadConfig h customPath tr
  = try_catch (readConfig h configPath) parseFailed tr.
Proof.
  unfold configFile, loadConfig.
  destruct (truthy customPath) eqn:Hc.
  - destruct customPath as [custom|]; [|discriminate].
    destruct (existsSync h (path_resolve h custom)) eqn:Hex; cbn [negb].
    + destruct (truthy (Some (path_resolve h custom))) eqn:Ht; [|discriminate].
      now intros [= <-].
    + discriminate.
  - destruct (searchConfig h (process_cwd h) CONFIG_FILE_NAMES) as [found|];
      [|discriminate].
    destruct (truthy (Some found)) eqn:Ht; [|discriminate].
    cbn [negb]. now intros [= <-].
Qed.

Lemma loadConfig_no_file (h : Host) (customPath : option jsstring) (tr : trace) :
  configFile h customPath = None ->
  exists tr', loadConfig h customPath tr = (Return DEFAULT_CONFIG, tr').
Proof.
  unfold configFile, loadConfig.
  destruct (truthy customPath) eqn:Hc.
  - destruct customPath as [custom|]; [|discriminate].
    destruct (existsSync h (path_resolve h custom)) eqn:Hex; cbn [negb].
    + destruct (truthy (Some (path_resolve h custom))) eqn:Ht; [discriminate|].
      cbn [negb]. intros _. unfold ret. eauto.
    + intros _. run_M. eauto.
  - destruct (searchConfig h (process_cwd h) CONFIG_FILE_NAMES) as [found|].
    + destruct (truthy (Some found)) eqn:Ht; [discriminate|]. cbn [negb].
      intros _. unfold ret. eauto.
    + intros _. cbn. unfold ret. eauto.
Qed.

Lemma loadConfig_missing_explicit (h : Host) (custom : jsstring) (tr : trace) :
  truthy (Some custom) = true ->
  existsSync h (path_resolve h custom) = false ->
  loadConfig h (Some custom) tr
  = (Return DEFAULT_CONFIG, tr ++ [notFoundWarning (path_resolve h custom)]).
Proof.
  intros Hc Hex. unfold loadConfig. rewrite Hc, Hex. reflexivity.
Qed.

(** Every run of [loadConfig] returns: the defaults, or the configuration
    merged from the file it read. *)
Lemma loadConfig_result (h : Host) (customPath : option jsstring) (tr : trace) :
  exists config tr',
    loadConfig h customPath tr = (Return config, tr')
    /\ (config = DEFAULT_CONFIG
        \/ exists configPath, configFile h customPath = Some configPath
                              /\ Loaded h configPath config).
Proof.
  destruct (configFile h customPath) as [configPath|] eqn:Hfile.
  - rewrite (loadConfig_file h customPath tr Hfile).
    destruct (readConfig_caught h configPath tr)
      as [(config & Hl & ->) | (tr' & ->)]; eauto 8.
  - destruct (loadConfig_no_file h customPath tr Hfile) as (tr' & ->). eauto.
Qed.

(** *** What [loadConfig] guarantees *)

(** C4.  Whatever the custom path, the files and their content, [loadConfig]
    returns a configuration whose [protectedBranches] holds every name of
    the built-in list. *)
Theorem loadConfig_keeps_builtin_protected
    (h : Host) (customPath : option jsstring) (tr : trace) :
  exists config tr',
    loadConfig h customPath tr = (Return config, tr')
    /\ forall n, In n builtinProtected -> In (VStr n) (protectedBranches config).
Proof.
  destruct (loadConfig_result h customPath tr) as (config & tr' & Hrun & Hcfg).
  exists config, tr'. split; [assumption|]. intros n Hn.
  destruct Hcfg as [-> | (configPath & _ & Hl)].
  - cbn [protectedBranches DEFAULT_CONFIG]. now apply in_map.
  - destruct Hl as (content & u & excludes & protecteds & _ & _ & _ & _ & _ & ->).
    cbn [protectedBranches merged]. apply in_or_app. left. now apply in_map.
Qed.

Lemma loadConfig_keeps_builtin_protected_witness :
  exists config tr',
    loadConfig (staleDaysHost (VNum 60)) None [] = (Return config, tr')
    /\ In (VStr (js "main")) (protectedBranches config).
Proof.
  destruct (loadConfig_keeps_builtin_protected (staleDaysHost (VNum 60)) None [])
    as (config & tr' & Hrun & Hin).
  exists config, tr'. split; [exact Hrun|].
  apply Hin. now left.
Defined.

(** C5.  [loadConfig] never throws and never ends the process; an explicit
    path to a file that does not exist is answered by a warning and the
    built-in defaults, and so is a file whose content cannot be read or
    does not parse. *)
Theorem loadConfig_never_throws :
  (forall h customPath tr,
      exists config tr', loadConfig h customPath tr = (Return config, tr'))
  /\ (forall h custom tr,
      truthy (Some custom) = true ->
      existsSync h (path_resolve h custom) = false ->
      loadConfig h (Some custom) tr
      = (Return DEFAULT_CONFIG,
         tr ++ [notFoundWarning (path_resolve h custom)]))
  /\ (forall h customPath configPath error tr,
      configFile h customPath = Some configPath ->
      (readFileSync h configPath = inl error
       \/ exists content, readFileSync h configPath = inr content
                          /\ JSON_parse h content = inl error) ->
      loadConfig h customPath tr
      = (Return DEFAULT_CONFIG, tr ++ [parseWarning error]))
  /\ excludePatterns DEFAULT_CONFIG = []
  /\ staleDays DEFAULT_CONFIG = VNum 30
  /\ protectedBranches DEFAULT_CONFIG
     = map VStr
         [js "main"; js "master"; js "dev"; js "develop"; js "development";
          js "stage"; js "staging"; js "prod"; js "production"; js "preview";
          js "release"].
Proof.
  split; [|split; [|split; [|repeat split]]].
  - intros h customPath tr.
    destruct (loadConfig_result h customPath tr) as (config & tr' & Hrun & _).
    eauto.
  - intros h custom tr. apply loadConfig_missing_explicit.
  - intros h customPath configPath error tr Hfile Hfail.
    rewrite (loadConfig_file h customPath tr Hfile).
    now apply readConfig_failure.
Qed.

Lemma loadConfig_never_throws_witness :
  loadConfig bareHost (Some (js "nope.json")) []
  = (Return DEFAULT_CONFIG,
     [ConsoleWarn (js "Warning: Config file not found at /work/nope.json, using defaults")])
  /\ loadConfig brokenRcHost None []
     = (Return DEFAULT_CONFIG,
        [ConsoleWarn (js "Warning: Failed to parse config file: SyntaxError: Unexpected token")]).
Proof.
  split.
  - exact (proj1 (proj2 loadConfig_never_throws) bareHost (js "nope.json") []
             eq_refl eq_refl).
  - refine (proj1 (proj2 (proj2 loadConfig_never_throws)) brokenRcHost None
              (js "/work/.branchcleanerrc") syntaxError [] eq_refl _).
    right. exists (js "{...}"). split; reflexivity.
Defined.

(** C10.  The built-in names are folded into [excludePatterns] only when a
    configuration file is found, read and parsed: without a file, and with
    a file that cannot be read or does not parse, [excludePatterns] is
    empty, while [protectedBranches] still is the built-in list. *)
Theorem excludePatterns_folded_only_from_file
    (h : Host) (customPath : option jsstring) (tr tr' : trace) (config : Config) :
  loadConfig h customPath tr = (Return config, tr') ->
  (configFile h customPath = None ->
     excludePatterns config = []
     /\ protectedBranches config = map VStr builtinProtected)
  /\ (forall configPath error,
        configFile h customPath = Some configPath ->
        (readFileSync h configPath = inl error
         \/ exists content, readFileSync h configPath = inr content
                            /\ JSON_parse h content = inl error) ->
        excludePatterns config = []
        /\ protectedBranches config = map VStr builtinProtected)
  /\ (excludePatterns config <> [] ->
        exists configPath content userConfig excludes,
          configFile h customPath = Some configPath
          /\ readFileSync h configPath = inr content
          /\ JSON_parse h content = inr userConfig
          /\ excludePatterns config = map VStr builtinProtected ++ excludes)
  /\ (forall configPath loaded,
        configFile h customPath = Some configPath ->
        Loaded h configPath loaded ->
        config = loaded
        /\ exists excludes,
             excludePatterns config = map VStr builtinProtected ++ excludes).
Proof.
  intros Hrun. split; [|split; [|split]].
  - intros Hfile.
    destruct (loadConfig_no_file h customPath tr Hfile) as (tr0 & H0).
    rewrite H0 in Hrun. injection Hrun as <- _. split; reflexivity.
  - intros configPath error Hfile Hfail.
    rewrite (loadConfig_file h customPath tr Hfile),
      (readConfig_failure h configPath tr Hfail) in Hrun.
    injection Hrun as <- _. split; reflexivity.
  - intros Hne.
    destruct (loadConfig_result h customPath tr) as (c & tr0 & H0 & Hcfg).
    rewrite H0 in Hrun. injection Hrun as -> _.
    destruct Hcfg as [-> | (configPath & Hfile & Hl)]; [now elim Hne|].
    destruct Hl as (content & u & excludes & protecteds & Hr & Hp & _ & _ & _ & ->).
    exists configPath, content, u, excludes. repeat split; assumption.
  - intros configPath loaded Hfile Hl.
    rewrite (loadConfig_file h customPath tr Hfile),
      (readConfig_loaded tr Hl) in Hrun.
    injection Hrun as <- _. split; [reflexivity|].
    destruct Hl as (content & u & excludes & protecteds & _ & _ & _ & _ & _ & ->).
    now exists excludes.
Qed.

Lemma excludePatterns_folded_only_from_file_witness :
  excludePatterns DEFAULT_CONFIG = []
  /\ protectedBranches DEFAULT_CONFIG = map VStr builtinProtected.
Proof.
  exact (proj1 (excludePatterns_folded_only_from_file bareHost None [] eq_refl)
           eq_refl).
Defined.

End ConfigProps.

(** ** The stale-days threshold *)

Module StaleDaysProps.
Import Config ConfigProps Samples StaleDaysContract.

Lemma parseLoop_config (p : jsstring) (rest : list jsstring) (r : Cli.CliArgs) :
  Cli.parseLoop (js "-c" :: p :: rest) r
  = Cli.parseLoop rest (Cli.set_configPath r (Some p)).
Proof. reflexivity. Qed.

Lemma parseLoop_staleDays (long : bool) (v : jsstring)
    (rest : list jsstring) (r : Cli.CliArgs) :
  Cli.parseLoop (staleFlag long :: v :: rest) r
  = Cli.parseLoop rest
      (match Cli.parseInt (Some v) with
       | Some days => Cli.set_staleDays r days
       | None => r
       end).
Proof. destruct long; reflexivity. Qed.

(** What [parseArgs] makes of such a command line. *)
Lemma parseArgs_commandLine (customPath : option jsstring)
    (staleDaysArg : option (bool * jsstring)) (tr : trace) :
  exists args,
    Cli.parseArgs (commandLine customPath staleDaysArg) tr = (Return args, tr)
    /\ Cli.configPath args = customPath
    /\ Cli.staleDays args
       = match staleDaysArg with
         | Some (_, v) => Cli.parseInt (Some v)
         | None => None
         end.
Proof.
  unfold Cli.parseArgs, commandLine.
  destruct customPath as [p|]; destruct staleDaysArg as [[long v]|];
    cbn [app]; rewrite ?parseLoop_config, ?parseLoop_staleDays;
    cbn [Cli.parseLoop];
    try destruct (Cli.parseInt (Some v)) as [days|];
    eexists; (split; [reflexivity|split; reflexivity]).
Qed.

Lemma parseInt_number_iff (v : jsstring) :
  (exists days, Cli.parseInt (Some v) = Some days) <-> Cli.startsWithInteger v = true.
Proof.
  unfold Cli.parseInt, Cli.startsWithInteger.
  destruct (trimStart v) as [|c S']; cbn [Cli.leadingDigits].
  - split; [intros [d H]; discriminate|discriminate].
  - destruct (N.eqb c Cli.c_minus || N.eqb c Cli.c_plus).
    + destruct S' as [|d S'']; cbn [Cli.leadingDigits].
      * split; [intros [x H]; discriminate|discriminate].
      * destruct (Cli.isDigit d); split; eauto; try discriminate.
        intros [x H]; discriminate.
    + cbn [Cli.leadingDigits]. destruct (Cli.isDigit c); split; eauto;
        try discriminate. intros [x H]; discriminate.
Qed.

(** C6, as the sources have it.  The threshold of a run is the number
    [parseInt] reads from the stale-days option when it reads one, a
    negative one as well, and else the [staleDays] of the configuration.
    That is the value of the file, taken as it is whenever it is neither
    missing nor [null], when the file loads; it is 30 otherwise. *)
Theorem staleDays_resolution
    (h : Host) (customPath : option jsstring)
    (staleDaysArg : option (bool * jsstring)) (tr : trace) :
  exists config tr1 s tr2,
    loadConfig h customPath tr = (Return config, tr1)
    /\ Tools.runAgent_settings h (commandLine customPath staleDaysArg) tr
       = (Return s, tr2)
    /\ Tools.staleDays s
       = match staleDaysArg with
         | Some (_, v) =>
             match Cli.parseInt (Some v) with
             | Some days => VNum (inject_Z days)
             | None => staleDays config
             end
         | None => staleDays config
         end
    /\ (forall v, (exists days, Cli.parseInt (Some v) = Some days)
                  <-> Cli.startsWithInteger v = true)
    /\ (config = DEFAULT_CONFIG
        \/ exists configPath content userConfig,
             configFile h customPath = Some configPath
             /\ readFileSync h configPath = inr content
             /\ JSON_parse h content = inr userConfig
             /\ Loaded h configPath config
             /\ staleDays config
                = nullish (prop userConfig (js "staleDays")) (VNum 30))
    /\ (forall configPath loaded,
          configFile h customPath = Some configPath ->
          Loaded h configPath loaded -> config = loaded)
    /\ staleDays DEFAULT_CONFIG = VNum 30.
Proof.
  destruct (loadConfig_result h customPath tr) as (config & tr1 & Hrun & Hcfg).
  destruct (parseArgs_commandLine customPath staleDaysArg tr)
    as (args & Hargs & Hpath & Hdays).
  exists config, tr1, (Tools.settings h args config), tr1.
  split; [assumption|]. split; [|split; [|split; [|split; [|split]]]].
  - unfold Tools.runAgent_settings, bind. now rewrite Hargs, Hpath, Hrun.
  - cbn [Tools.staleDays Tools.settings]. rewrite Hdays.
    destruct staleDaysArg as [[long v]|]; reflexivity.
  - apply parseInt_number_iff.
  - destruct Hcfg as [-> | (configPath & Hfile & Hl)]; [now left|].
    pose proof Hl as Hl'.
    destruct Hl as (content & u & excludes & protecteds & Hr & Hp & _ & _ & _ & ->).
    right. exists configPath, content, u. repeat split; assumption.
  - intros configPath loaded Hfile Hl.
    rewrite (loadConfig_file h customPath tr Hfile),
      (readConfig_loaded tr Hl) in Hrun.
    now injection Hrun.
  - reflexivity.
Qed.

Lemma staleDays_resolution_witness :
  exists config tr1 s tr2,
    loadConfig (staleDaysHost (VNum 60)) None [] = (Return config, tr1)
    /\ Tools.runAgent_settings (staleDaysHost (VNum 60))
         (commandLine None (Some (false, js "abc"))) []
       = (Return s, tr2)
    /\ Tools.staleDays s = staleDays config.
Proof.
  destruct (staleDays_resolution (staleDaysHost (VNum 60)) None
              (Some (false, js "abc")) [])
    as (config & tr1 & s & tr2 & H1 & H2 & H3 & _).
  exists config, tr1, s, tr2. auto.
Defined.

(** The claim as the specification words it fails twice: a negative
    stale-days option replaces the configured value, and a value of the
    file that is not an integer is kept. *)
Lemma staleDays_contract_fails :
  let negative := commandLine None (Some (false, js "-5")) in
  let fraction := VNum (3 # 2) in
  (staleDaysOf (Tools.runAgent_settings bareHost negative [])
   = Some (VNum (inject_Z (-5)))
   /\ effective VUndefined (Some (js "-5")) = VNum 30
   /\ staleDaysOf (Tools.runAgent_settings bareHost negative [])
      <> Some (effective VUndefined (Some (js "-5"))))
  /\ (staleDaysOf (Tools.runAgent_settings (staleDaysHost fraction)
                     (commandLine None None) [])
      = Some fraction
      /\ effective fraction None = VNum 30
      /\ staleDaysOf (Tools.runAgent_settings (staleDaysHost fraction)
                        (commandLine None None) [])
         <> Some (effective fraction None)).
Proof. cbv zeta. repeat split; try reflexivity; discriminate. Qed.

(** The scenario of the specification: 60 in the file, and a stale-days
    option that is not a number. *)
Example staleDays_file_60 :
  staleDaysOf (Tools.runAgent_settings (staleDaysHost (VNum 60))
                 (commandLine None (Some (false, js "abc"))) [])
  = Some (VNum 60)
  /\ staleDaysOf (Tools.runAgent_settings (staleDaysHost (VNum 60))
                    (commandLine None (Some (true, js "12abc"))) [])
     = Some (VNum 12).
Proof. split; reflexivity. Qed.

End StaleDaysProps.

(** ** The tools *)

Module ToolsProps.
Import Tools Samples.

Lemma execGit_ok (h : Host) (command cwd out : jsstring) (tr : trace) :
  execSync h tr command cwd = inr out ->
  execGit h command cwd tr = (Return (trim out), tr ++ [Exec command cwd]).
Proof. intros H. unfold execGit. now rewrite H. Qed.

Lemma execGit_fails (h : Host) (command cwd : jsstring) (e : thrown) (tr : trace) :
  execSync h tr command cwd = inl e ->
  exists e', execGit h command cwd tr = (Throw e', tr ++ [Exec command cwd]).
Proof.
  intros H. unfold execGit. rewrite H.
  destruct (isError e); [destruct (stderr e)|]; eauto.
Qed.

(** C7.  When [git] names the branch to delete as the current branch,
    [delete_local_branch] answers the refusal, with its own error text, and
    the only command it has run is the one that asked for the current
    branch: no [git branch -d] or [-D] is run.  The text is not one a
    failing [git] command is reported with. *)
Theorem delete_local_branch_refuses_current
    (h : Host) (repoPath branch_name out : jsstring) (force : option bool)
    (tr : trace) :
  execSync h tr c_currentBranch repoPath = inr out ->
  trim out = branch_name ->
  delete_local_branch h repoPath branch_name force tr
  = (Return refusal, tr ++ [Exec c_currentBranch repoPath])
  /\ (forall command cwd,
        In (Exec command cwd) (snd (delete_local_branch h repoPath branch_name force tr)) ->
        In (Exec command cwd) tr \/ command = c_currentBranch)
  /\ (forall err, js "Git command failed: " ++ err <> cannotDeleteCurrent)
  /\ js "Unknown error" <> cannotDeleteCurrent.
Proof.
  intros Hout Hcur.
  assert (Hrun : delete_local_branch h repoPath branch_name force tr
                 = (Return refusal, tr ++ [Exec c_currentBranch repoPath])).
  { unfold delete_local_branch, bind.
    fold c_currentBranch. rewrite (execGit_ok h _ _ tr Hout), Hcur.
    now rewrite str_eqb_refl. }
  split; [exact Hrun|]. split; [|split].
  - rewrite Hrun. cbn [snd]. intros command cwd Hin.
    apply in_app_or in Hin as [Hin|[Hin|[]]]; [now left|].
    right. now injection Hin.
  - intros err. discriminate.
  - discriminate.
Qed.

Lemma delete_local_branch_refuses_current_witness :
  delete_local_branch (gitHost onFeatureX) (js "/repo") (js "feature-x")
    (Some true) []
  = (Return refusal, [Exec c_currentBranch (js "/repo")]).
Proof.
  exact (proj1 (@delete_local_branch_refuses_current (gitHost onFeatureX)
                  (js "/repo") (js "feature-x") (js "feature-x" ++ [10]%N)
                  (Some true) [] eq_refl eq_refl)).
Defined.

(** Another branch is deleted, forced or not. *)
Example delete_local_branch_other :
  fst (delete_local_branch
         (gitHost (fun c => if str_eqb c c_currentBranch then inr (js "main")
                            else inr []))
         (js "/repo") (js "feature-x") None [])
  = Return (VObj [field "success" (VBool true);
                  field "message"
                    (VStr (js "Local branch 'feature-x' deleted successfully"))]).
Proof. reflexivity. Qed.

Lemma startsWith_app (p s : jsstring) : startsWith (p ++ s) p = true.
Proof.
  induction p as [|x p IH]; cbn; [reflexivity|].
  now rewrite N.eqb_refl, IH.
Qed.

Lemma replaceFirst_unfold (pat rep s : jsstring) :
  replaceFirst pat rep s
  = if startsWith s pat then rep ++ skipn (List.length pat) s
    else match s with
         | [] => []
         | c :: s' => c :: replaceFirst pat rep s'
         end.
Proof. destruct s; reflexivity. Qed.

(** A prefix is what [replace] finds first. *)
Lemma replaceFirst_prefix (pre rest : jsstring) :
  replaceFirst pre [] (pre ++ rest) = rest.
Proof.
  rewrite replaceFirst_unfold, startsWith_app. cbn [app].
  induction pre as [|x pre IH]; [reflexivity|exact IH].
Qed.

(** C8.  [get_main_branch] answers [main] when that reference resolves;
    else [master] when that one resolves; else what the symbolic reference
    [refs/remotes/origin/HEAD] names, its prefix taken off; and [main]
    when none of the three resolves. *)
Theorem get_main_branch_fallback (h : Host) (repoPath : jsstring) (tr : trace) :
  let tr1 := tr ++ [Exec c_verifyMain repoPath] in
  let tr2 := tr1 ++ [Exec c_verifyMaster repoPath] in
  let tr3 := tr2 ++ [Exec c_remoteHead repoPath] in
  (forall out,
      execSync h tr c_verifyMain repoPath = inr out ->
      get_main_branch h repoPath tr = (Return (mainBranchIs (js "main")), tr1))
  /\ (forall e out,
      execSync h tr c_verifyMain repoPath = inl e ->
      execSync h tr1 c_verifyMaster repoPath = inr out ->
      get_main_branch h repoPath tr = (Return (mainBranchIs (js "master")), tr2))
  /\ (forall e1 e2 out,
      execSync h tr c_verifyMain repoPath = inl e1 ->
      execSync h tr1 c_verifyMaster repoPath = inl e2 ->
      execSync h tr2 c_remoteHead repoPath = inr out ->
      get_main_branch h repoPath tr
      = (Return (mainBranchIs
                   (replaceFirst (js "refs/remotes/origin/") [] (trim out))),
         tr3))
  /\ (forall e1 e2 e3,
      execSync h tr c_verifyMain repoPath = inl e1 ->
      execSync h tr1 c_verifyMaster repoPath = inl e2 ->
      execSync h tr2 c_remoteHead repoPath = inl e3 ->
      get_main_branch h repoPath tr = (Return (mainBranchIs (js "main")), tr3))
  /\ (forall n,
      replaceFirst (js "refs/remotes/origin/") [] (js "refs/remotes/origin/" ++ n)
      = n).
Proof.
  cbv zeta. unfold get_main_branch, try_catch, bind.
  fold c_verifyMain c_verifyMaster c_remoteHead.
  split; [|split; [|split; [|split]]].
  - intros out H1. now rewrite (execGit_ok h _ _ tr H1).
  - intros e out H1 H2.
    destruct (execGit_fails h _ _ tr H1) as (e' & ->).
    now rewrite (execGit_ok h _ _ _ H2).
  - intros e1 e2 out H1 H2 H3.
    destruct (execGit_fails h _ _ tr H1) as (e1' & ->).
    destruct (execGit_fails h _ _ _ H2) as (e2' & ->).
    now rewrite (execGit_ok h _ _ _ H3).
  - intros e1 e2 e3 H1 H2 H3.
    destruct (execGit_fails h _ _ tr H1) as (e1' & ->).
    destruct (execGit_fails h _ _ _ H2) as (e2' & ->).
    now destruct (execGit_fails h _ _ _ H3) as (e3' & ->).
  - intros n. apply replaceFirst_prefix.
Qed.

Lemma get_main_branch_fallback_witness :
  get_main_branch (gitHost onFeatureX) (js "/repo") []
  = (Return (mainBranchIs (js "develop")),
     [Exec c_verifyMain (js "/repo"); Exec c_verifyMaster (js "/repo");
      Exec c_remoteHead (js "/repo")]).
Proof.
  exact (proj1 (proj2 (proj2 (get_main_branch_fallback (gitHost onFeatureX)
                                 (js "/repo") [])))
           (gitFailure "fatal: Needed a single revision")
           (gitFailure "fatal: Needed a single revision")
           (js "refs/remotes/origin/develop" ++ [10]%N)
           eq_refl eq_refl eq_refl).
Defined.

(** *** The confirmation *)

Lemma forEach_console_log (line : jsstring -> jsstring) (bs : list jsstring) :
  forall tr,
    forEach bs (fun b => console_log (line b)) tr
    = (Return tt, tr ++ map (fun b => ConsoleLog (line b)) bs).
Proof.
  induction bs as [|b bs IH]; intros tr; cbn [forEach map].
  - unfold ret. now rewrite app_nil_r.
  - unfold bind at 1. unfold console_log at 1, emit. rewrite IH.
    now rewrite <- app_assoc.
Qed.

Lemma bind_console_log {A} (line : jsstring) (k : unit -> M A) (tr : trace) :
  bind (console_log line) k tr = k tt (tr ++ [ConsoleLog line]).
Proof. reflexivity. Qed.

Lemma bind_forEach_console_log {A} (line : jsstring -> jsstring)
    (bs : list jsstring) (k : unit -> M A) (tr : trace) :
  bind (forEach bs (fun b => console_log (line b))) k tr
  = k tt (tr ++ map (fun b => ConsoleLog (line b)) bs).
Proof. unfold bind. now rewrite forEach_console_log. Qed.

Lemma askUserConfirmation_run (h : Host) (message : jsstring)
    (branches : list jsstring) (tr : trace) :
  let pre := tr ++ banner message branches in
  let answer := question h pre proceedPrompt in
  askUserConfirmation h message branches tr
  = (Return (confirmedBy h answer),
     pre ++ [Question proceedPrompt answer;
             ConsoleLog (verdictLine (confirmedBy h answer))]).
Proof.
  cbv zeta. unfold askUserConfirmation.
  rewrite !bind_console_log, bind_forEach_console_log, bind_console_log.
  unfold bind at 1, promptUser. fold proceedPrompt.
  rewrite bind_console_log. unfold ret, banner, verdictLine.
  repeat rewrite <- app_assoc. reflexivity.
Qed.

Lemma askUserConfirmation_plain_run (h : Host) (message : jsstring)
    (branches : list jsstring) (tr : trace) :
  let pre := tr ++ ToolsPlain.plainBanner message branches in
  let answer := question h pre ToolsPlain.plainPrompt in
  ToolsPlain.askUserConfirmation h message branches tr
  = (Return (confirmedBy h answer),
     pre ++ [Question ToolsPlain.plainPrompt answer;
             ConsoleLog (ToolsPlain.plainVerdict (confirmedBy h answer))]).
Proof.
  cbv zeta. unfold ToolsPlain.askUserConfirmation.
  rewrite !bind_console_log, bind_forEach_console_log, bind_console_log.
  fold ToolsPlain.plainPrompt.
  rewrite bind_console_log. unfold ret, ToolsPlain.plainBanner, ToolsPlain.plainVerdict.
  repeat rewrite <- app_assoc. reflexivity.
Qed.

Lemma asciiLower_inv (a k : char) :
  asciiLower a = k -> a = k \/ (a + 32 = k /\ 65 <= a <= 90)%N.
Proof.
  unfold asciiLower.
  destruct (N.leb_spec 65 a); destruct (N.leb_spec a 90); cbn [andb]; auto.
Qed.

(** The strings that lower to [yes] or to [y]. *)
Lemma confirmedBy_iff (h : Host) (answer : jsstring) :
  LowerCaseLaws h ->
  (confirmedBy h answer = true <-> In answer yesWords).
Proof.
  intros [Hascii Hother]. split.
  - intros Hc.
    assert (Hlow : toLowerCase h answer = js "yes" \/ toLowerCase h answer = js "y").
    { unfold confirmedBy in Hc. apply orb_true_iff in Hc.
      now rewrite !str_eqb_eq in Hc. }
    assert (Ha : forallb isAscii answer = true).
    { destruct (forallb isAscii answer) eqn:E; [reflexivity|].
      specialize (Hother answer E).
      destruct Hlow as [Hl|Hl]; rewrite Hl in Hother; discriminate. }
    rewrite (Hascii answer Ha) in Hlow.
    destruct Hlow as [Hl|Hl].
    + destruct answer as [|a [|b [|c [|d rest]]]]; try discriminate.
      change (js "yes") with [121; 101; 115]%N in Hl.
      cbn [map] in Hl. injection Hl as H1 H2 H3.
      apply asciiLower_inv in H1, H2, H3.
      assert (Ea : a = 121%N \/ a = 89%N) by lia.
      assert (Eb : b = 101%N \/ b = 69%N) by lia.
      assert (Ec : c = 115%N \/ c = 83%N) by lia.
      clear H1 H2 H3.
      destruct Ea as [-> | ->], Eb as [-> | ->], Ec as [-> | ->];
        vm_compute; tauto.
    + destruct answer as [|a [|b rest]]; try discriminate.
      change (js "y") with [121]%N in Hl.
      cbn [map] in Hl. injection Hl as H1.
      apply asciiLower_inv in H1.
      assert (Ea : a = 121%N \/ a = 89%N) by lia.
      destruct Ea as [-> | ->]; vm_compute; tauto.
  - intros Hin. unfold confirmedBy.
    assert (Ha : forallb isAscii answer = true).
    { revert Hin. unfold yesWords. cbn [In].
      intros H; repeat (destruct H as [<- | H]; [reflexivity|]). destruct H. }
    rewrite (Hascii answer Ha).
    revert Hin. unfold yesWords. cbn [In].
    intros H; repeat (destruct H as [<- | H]; [reflexivity|]). destruct H.
Qed.

(** C9.  [askUserConfirmation] answers [true] exactly when what was typed,
    lowered, is [yes] or [y]; that is, when it is one of those two words in
    some letter case.  Every other answer, the empty one, [ok] and [sure]
    among them, is a cancellation.  Both variants of the function agree. *)
Theorem askUserConfirmation_yes_only
    (h : Host) (message : jsstring) (branches : list jsstring) (tr : trace) :
  LowerCaseLaws h ->
  let typed := question h (tr ++ banner message branches) proceedPrompt in
  let typed' :=
    question h (tr ++ ToolsPlain.plainBanner message branches)
      ToolsPlain.plainPrompt in
  fst (askUserConfirmation h message branches tr)
  = Return (str_eqb (toLowerCase h typed) (js "yes")
            || str_eqb (toLowerCase h typed) (js "y"))
  /\ (fst (askUserConfirmation h message branches tr) = Return true
      <-> In typed yesWords)
  /\ fst (ToolsPlain.askUserConfirmation h message branches tr)
     = Return (str_eqb (toLowerCase h typed') (js "yes")
               || str_eqb (toLowerCase h typed') (js "y"))
  /\ (fst (ToolsPlain.askUserConfirmation h message branches tr) = Return true
      <-> In typed' yesWords)
  /\ confirmedBy h [] = false
  /\ confirmedBy h (js "ok") = false
  /\ confirmedBy h (js "sure") = false.
Proof.
  intros Hlaws. cbv zeta.
  rewrite askUserConfirmation_run, askUserConfirmation_plain_run. cbn [fst].
  assert (Hno : forall w, ~ In w yesWords -> confirmedBy h w = false).
  { intros w Hw. destruct (confirmedBy h w) eqn:E; [|reflexivity].
    now apply (@confirmedBy_iff h w Hlaws) in E. }
  assert (Hnot : forall w, existsb (str_eqb w) yesWords = false -> ~ In w yesWords).
  { intros w Hw Hin. apply Bool.not_true_iff_false in Hw. apply Hw.
    apply existsb_exists. exists w. split; [assumption|apply str_eqb_refl]. }
  repeat split.
  - intros [= Hc]. now apply (@confirmedBy_iff h _ Hlaws).
  - intros Hin. f_equal. now apply (@confirmedBy_iff h _ Hlaws).
  - intros [= Hc]. now apply (@confirmedBy_iff h _ Hlaws).
  - intros Hin. f_equal. now apply (@confirmedBy_iff h _ Hlaws).
  - apply Hno, Hnot. reflexivity.
  - apply Hno, Hnot. reflexivity.
  - apply Hno, Hnot. reflexivity.
Qed.

(** The sample hosts lower by [asciiLower]; the laws hold of them. *)
Lemma asciiLower_laws (h : Host) :
  toLowerCase h = map asciiLower -> LowerCaseLaws h.
Proof.
  intros E. split; intros s Hs; rewrite E; [reflexivity|].
  induction s as [|c s IH]; [discriminate|].
  cbn [forallb] in Hs. cbn [map existsb].
  destruct (isAscii c) eqn:Hc; cbn [andb] in Hs.
  - rewrite (IH Hs). apply orb_true_r.
  - assert (El : asciiLower c = c).
    { unfold asciiLower. unfold isAscii in Hc. apply N.ltb_ge in Hc.
      destruct (N.leb_spec c 90); [lia|]. now rewrite andb_false_r. }
    rewrite El. unfold tellsNonAscii. now rewrite Hc.
Qed.

Lemma askUserConfirmation_yes_only_witness :
  fst (askUserConfirmation bareHost (js "Delete?") [js "feature-x"] [])
  = Return true
  /\ fst (askUserConfirmation (gitHost onFeatureX) (js "Delete?")
            [js "feature-x"] [])
     = Return false.
Proof.
  split.
  - apply (@askUserConfirmation_yes_only bareHost (js "Delete?")
             [js "feature-x"] [] (@asciiLower_laws bareHost eq_refl)).
    vm_compute. tauto.
  - exact (proj1 (@askUserConfirmation_yes_only (gitHost onFeatureX)
                    (js "Delete?") [js "feature-x"] []
                    (@asciiLower_laws (gitHost onFeatureX) eq_refl))).
Defined.

End ToolsProps.

(** ** More on the glob matcher *)

Module GlobMore.
Import Glob GlobProps.

Lemma option_bool_ext (a b : option bool) :
  (exists x, a = Some x) -> (exists y, b = Some y) ->
  (a = Some true <-> b = Some true) -> a = b.
Proof.
  intros [x ->] [y ->] H. destruct x, y; trivial.
  - symmetry. now apply H.
  - now apply H.
Qed.

(** A pattern in two parts produces the names in two parts. *)
Lemma GlobBy_app (wild : char -> bool) (p q : jsstring) :
  forall n,
    GlobBy wild (p ++ q) n <->
    exists n1 n2, n = n1 ++ n2 /\ GlobBy wild p n1 /\ GlobBy wild q n2.
Proof.
  induction p as [|c p IH]; intros n; cbn [app].
  - split.
    + intros H. exists [], n. repeat split; [constructor|assumption].
    + intros (n1 & n2 & -> & Ha & Hb). inversion Ha. exact Hb.
  - split.
    + intros H. inversion H; subst;
        match goal with
        | G : GlobBy _ (p ++ q) _ |- _ =>
            apply IH in G as (n1 & n2 & -> & Ha & Hb)
        end.
      * exists (w ++ n1), n2. rewrite app_assoc. repeat split; trivial.
        now constructor.
      * exists (x :: n1), n2. repeat split; trivial. now constructor.
      * exists (c :: n1), n2. repeat split; trivial. now constructor.
    + intros (n1 & n2 & -> & Ha & Hb). inversion Ha; subst.
      * rewrite <- app_assoc. constructor; [assumption|].
        apply IH. eauto.
      * cbn [app]. constructor; [assumption|]. apply IH. eauto.
      * cbn [app]. constructor; trivial. apply IH. eauto.
Qed.

Lemma GlobBy_star_only (wild : char -> bool) (n : jsstring) :
  GlobBy wild [c_star] n <-> forallb wild n = true.
Proof.
  split.
  - intros H. inversion H; subst; try congruence.
    match goal with G : GlobBy _ [] _ |- _ => inversion G end.
    now rewrite app_nil_r.
  - intros H. rewrite <- (app_nil_r n). constructor; [assumption|constructor].
Qed.

Lemma GlobBy_literal (wild : char -> bool) (p n : jsstring) :
  hasWildcard p = false -> (GlobBy wild p n <-> n = p).
Proof.
  revert n. induction p as [|c p IH]; intros n Hp.
  - split; [intros H; now inversion H|intros ->; constructor].
  - cbn [hasWildcard existsb] in Hp. apply orb_false_iff in Hp as [Hc Hp].
    apply orb_false_iff in Hc as [Hst Hqu].
    apply N.eqb_neq in Hst, Hqu. split.
    + intros H. inversion H; subst; try congruence.
      f_equal. now apply IH.
    + intros ->. constructor; trivial. now apply IH.
Qed.

(** X1.  Whatever the pattern, the regular expression built from it is
    accepted: the escaping leaves no syntax character to be read as
    syntax, and the expression is read back as one term for each code unit
    of the pattern, between the two anchors. *)
Theorem regexSource_always_compiles (pattern : jsstring) :
  exists regex,
    RegExp_new (regexSource pattern) = Some regex
    /\ List.length regex = (List.length pattern + 2)%nat
    /\ hd_error regex = Some TBol
    /\ last regex TBol = TEol
    /\ forall str, exists b, matchGlobPattern str pattern = Some b.
Proof.
  exists (TBol :: map termOf pattern ++ [TEol]).
  split; [apply RegExp_new_regexSource|]. split; [|split; [|split]].
  - cbn [List.length]. rewrite length_app, length_map. cbn. lia.
  - reflexivity.
  - change (TBol :: map termOf pattern ++ [TEol])
      with ((TBol :: map termOf pattern) ++ [TEol]).
    apply last_last.
  - intros str. apply matchGlobPattern_total.
Qed.

(** X2.  The [str === pattern] shortcut of [matchGlobPattern] never changes
    the answer: the regular expression alone accepts a name equal to the
    pattern, so the function answers what [regex.test(str)] answers. *)
Theorem equality_shortcut_redundant (str pattern : jsstring) :
  exists regex,
    RegExp_new (regexSource pattern) = Some regex
    /\ RegExp_test regex pattern = true
    /\ matchGlobPattern str pattern = Some (RegExp_test regex str).
Proof.
  exists (TBol :: map termOf pattern ++ [TEol]).
  split; [apply RegExp_new_regexSource|].
  assert (Hself : forall p, run (map termOf p ++ [TEol]) 0 p = true).
  { intros p. apply run_body_iff. now apply GlobBy_refl. }
  rewrite !RegExp_test_anchored. split; [apply Hself|].
  rewrite matchGlobPattern_eq.
  destruct (str_eqb_spec str pattern) as [->|_]; [|reflexivity].
  now rewrite Hself.
Qed.

(** X3.  Matching composes: a name matches the pattern [p ++ q] exactly
    when it splits into a part that matches [p] followed by a part that
    matches [q]. *)
Theorem matchGlobPattern_app (n p q : jsstring) :
  matchGlobPattern n (p ++ q) = Some true <->
  exists n1 n2,
    n = n1 ++ n2
    /\ matchGlobPattern n1 p = Some true
    /\ matchGlobPattern n2 q = Some true.
Proof.
  rewrite matchGlobPattern_true_iff, GlobBy_app.
  split; intros (n1 & n2 & Hn & H1 & H2); exists n1, n2;
    (split; [assumption|]); split; now apply matchGlobPattern_true_iff.
Qed.

(** X4.  A literal followed by [*] matches the names that start with the
    literal, and [*] followed by a literal the names that end with it; in
    both cases the part under the [*] holds no line terminator. *)
Theorem matchGlobPattern_prefix_suffix (n literal : jsstring) :
  hasWildcard literal = false ->
  (matchGlobPattern n (literal ++ [c_star]) = Some true <->
   exists rest, n = literal ++ rest /\ forallb notLineTerminator rest = true)
  /\ (matchGlobPattern n (c_star :: literal) = Some true <->
      exists front, n = front ++ literal
                    /\ forallb notLineTerminator front = true).
Proof.
  intros Hl. split.
  - rewrite matchGlobPattern_true_iff, GlobBy_app. split.
    + intros (n1 & n2 & -> & H1 & H2).
      apply GlobBy_literal in H1; [subst n1|assumption].
      apply GlobBy_star_only in H2. eauto.
    + intros (rest & -> & Hr). exists literal, rest. repeat split.
      * now apply GlobBy_literal.
      * now apply GlobBy_star_only.
  - rewrite matchGlobPattern_true_iff.
    change (c_star :: literal) with ([c_star] ++ literal).
    rewrite GlobBy_app. split.
    + intros (n1 & n2 & -> & H1 & H2).
      apply GlobBy_literal in H2; [subst n2|assumption].
      apply GlobBy_star_only in H1. eauto.
    + intros (front & -> & Hf). exists front, literal. repeat split.
      * now apply GlobBy_star_only.
      * now apply GlobBy_literal.
Qed.

Lemma matchGlobPattern_prefix_suffix_witness :
  matchGlobPattern (js "release/1.2") (js "release/*") = Some true
  /\ matchGlobPattern (js "wip-login.bak") (js "*.bak") = Some true.
Proof.
  split.
  - apply (proj1 (matchGlobPattern_prefix_suffix (js "release/1.2")
                    (js "release/") eq_refl)).
    exists (js "1.2"). split; reflexivity.
  - apply (proj2 (matchGlobPattern_prefix_suffix (js "wip-login.bak")
                    (js ".bak") eq_refl)).
    exists (js "wip-login"). split; reflexivity.
Defined.

(** X5.  Two [*] in a row match what one does, wherever they stand in the
    pattern. *)
Theorem matchGlobPattern_double_star (n p q : jsstring) :
  matchGlobPattern n (p ++ c_star :: c_star :: q)
  = matchGlobPattern n (p ++ c_star :: q).
Proof.
  apply option_bool_ext; try apply matchGlobPattern_total.
  rewrite !matchGlobPattern_true_iff, !GlobBy_app.
  assert (H : forall m, GlobBy notLineTerminator (c_star :: c_star :: q) m
                        <-> GlobBy notLineTerminator (c_star :: q) m).
  { intros m. split; intros H.
    - inversion H as [|p1 w1 m1 Hw1 G1| |]; subst; try congruence.
      inversion G1 as [|p2 w2 m2 Hw2 G2| |]; subst; try congruence.
      rewrite app_assoc. constructor; [|assumption].
      rewrite forallb_app. now rewrite Hw1, Hw2.
    - inversion H as [|p1 w1 m1 Hw1 G1| |]; subst; try congruence.
      constructor; [assumption|].
      change m1 with ([] ++ m1). now constructor. }
  split; intros (n1 & n2 & Hn & H1 & H2); exists n1, n2;
    repeat split; trivial; now apply H.
Qed.

(** X6.  [matchesExcludePattern] never raises; it answers true exactly when
    some pattern of the list matches, so an empty list excludes nothing, a
    name written out in the list is excluded whatever characters it holds,
    and a longer list or another order never lets a name through that was
    excluded. *)
Theorem matchesExcludePattern_list (n : jsstring) (patterns : list jsstring) :
  (exists b, matchesExcludePattern n patterns = Some b)
  /\ (matchesExcludePattern n patterns = Some true <->
      exists p, In p patterns /\ matchGlobPattern n p = Some true)
  /\ matchesExcludePattern n [] = Some false
  /\ (In n patterns -> matchesExcludePattern n patterns = Some true)
  /\ (forall more,
        (forall p, In p patterns -> In p more) ->
        matchesExcludePattern n patterns = Some true ->
        matchesExcludePattern n more = Some true).
Proof.
  assert (Hiff : forall ps,
             matchesExcludePattern n ps = Some true <->
             exists p, In p ps /\ matchGlobPattern n p = Some true).
  { intros ps. rewrite matchesExcludePattern_eq. split.
    - intros [= H]. apply existsb_exists in H as (p & Hp & H).
      exists p. split; [assumption|]. now rewrite matchGlobPattern_eq, H.
    - intros (p & Hp & H). f_equal. apply existsb_exists. exists p.
      split; [assumption|]. rewrite matchGlobPattern_eq in H. now injection H. }
  split; [|split; [|split; [|split]]].
  - rewrite matchesExcludePattern_eq. eauto.
  - apply Hiff.
  - reflexivity.
  - intros Hin. apply Hiff. exists n. split; [assumption|].
    unfold matchGlobPattern. now rewrite str_eqb_refl.
  - intros more Hincl H. apply Hiff in H as (p & Hp & H).
    apply Hiff. exists p. auto.
Qed.

Lemma matchesExcludePattern_list_witness :
  matchesExcludePattern (js "hotfix/a+b") [js "release-*"; js "hotfix/a+b"]
  = Some true.
Proof.
  apply (proj1 (proj2 (proj2 (proj2
           (matchesExcludePattern_list (js "hotfix/a+b")
              [js "release-*"; js "hotfix/a+b"]))))).
  right. now left.
Defined.

End GlobMore.

Unset Implicit Arguments.

(** ** Splitting, joining and trimming *)

Module TextFacts.
Import Text.

Lemma split_not_nil (sep : char) (s : jsstring) : split sep s <> [].
Proof.
  induction s as [|c s IH]; cbn; [discriminate|].
  destruct (N.eqb c sep); [discriminate|].
  destruct (split sep s); [contradiction|discriminate].
Qed.

Lemma split_free (sep : char) (a : jsstring) :
  free sep a = true -> split sep a = [a].
Proof.
  induction a as [|c a IH]; cbn; [reflexivity|].
  intros H. apply andb_true_iff in H as [Hc Ha].
  apply negb_true_iff in Hc. rewrite Hc, (IH Ha). reflexivity.
Qed.

Lemma split_app (sep : char) (a b : jsstring) :
  free sep a = true -> split sep (a ++ sep :: b) = a :: split sep b.
Proof.
  induction a as [|c a IH]; cbn.
  - intros _. now rewrite N.eqb_refl.
  - intros H. apply andb_true_iff in H as [Hc Ha].
    apply negb_true_iff in Hc. rewrite Hc, (IH Ha). reflexivity.
Qed.

Lemma split_join (sep : char) (pieces : list jsstring) :
  pieces <> [] ->
  forallb (free sep) pieces = true ->
  split sep (join [sep] pieces) = pieces.
Proof.
  induction pieces as [|p pieces IH]; [contradiction|].
  intros _ H. cbn [forallb] in H. apply andb_true_iff in H as [Hp Hps].
  destruct pieces as [|q pieces].
  - cbn [join]. now apply split_free.
  - change (join [sep] (p :: q :: pieces))
      with (p ++ sep :: join [sep] (q :: pieces)).
    rewrite (split_app sep p _ Hp), IH; [reflexivity|discriminate|assumption].
Qed.

Lemma join_split (sep : char) (s : jsstring) :
  join [sep] (split sep s) = s.
Proof.
  induction s as [|c s IH]; [reflexivity|].
  cbn [split]. destruct (N.eqb_spec c sep) as [->|Hc].
  - pose proof (split_not_nil sep s) as Hne.
    destruct (split sep s) as [|q qs]; [contradiction|].
    change (join [sep] ([] :: q :: qs)) with (sep :: join [sep] (q :: qs)).
    now rewrite IH.
  - pose proof (split_not_nil sep s) as Hne.
    destruct (split sep s) as [|q qs]; [contradiction|].
    destruct qs as [|q' qs].
    + cbn [join] in *. now rewrite IH.
    + change (join [sep] ((c :: q) :: q' :: qs))
        with (c :: (q ++ sep :: join [sep] (q' :: qs))).
      change (join [sep] (q :: q' :: qs))
        with (q ++ sep :: join [sep] (q' :: qs)) in IH.
      now rewrite IH.
Qed.

Lemma trimStart_indent (indent s : jsstring) :
  forallb isStrWhiteSpaceChar indent = true ->
  trimStart (indent ++ s) = trimStart s.
Proof.
  induction indent as [|c indent IH]; cbn; [reflexivity|].
  intros H. apply andb_true_iff in H as [Hc Hi]. now rewrite Hc, IH.
Qed.

Lemma trim_trimmed (s : jsstring) : trimmed s = true -> trim s = s.
Proof.
  unfold trimmed, trim, trimEnd. destruct s as [|c s]; [reflexivity|].
  destruct (rev (c :: s)) as [|d r] eqn:Hr.
  - apply (f_equal (@List.length char)) in Hr. rewrite length_rev in Hr.
    discriminate.
  - intros H. apply andb_true_iff in H as [Hc Hd].
    apply negb_true_iff in Hc, Hd.
    cbn [trimStart]. rewrite Hc, Hr. cbn [trimStart]. rewrite Hd, <- Hr.
    apply rev_involutive.
Qed.

Lemma trim_indent (indent s : jsstring) :
  forallb isStrWhiteSpaceChar indent = true ->
  trimmed s = true ->
  trim (indent ++ s) = s.
Proof.
  intros Hi Hs. unfold trim. rewrite (trimStart_indent _ _ Hi).
  now apply trim_trimmed.
Qed.

End TextFacts.

(** ** More on the configuration *)

Module ConfigMore.
Import Config ConfigProps Samples MoreTools.

Lemma searchConfig_none (h : Host) (cwd : jsstring) (names : list jsstring) :
  (forall name, In name names -> existsSync h (path_join h cwd name) = false) ->
  searchConfig h cwd names = None.
Proof.
  induction names as [|name names IH]; intros H; cbn; [reflexivity|].
  rewrite (H name) by now left. apply IH. intros n Hn. apply H. now right.
Qed.

Lemma searchConfig_first (h : Host) (cwd : jsstring)
    (before : list jsstring) (name : jsstring) (after : list jsstring) :
  (forall b, In b before -> existsSync h (path_join h cwd b) = false) ->
  existsSync h (path_join h cwd name) = true ->
  searchConfig h cwd (before ++ name :: after) = Some (path_join h cwd name).
Proof.
  induction before as [|b before IH]; intros Hb Hn; cbn.
  - now rewrite Hn.
  - rewrite (Hb b) by now left. apply IH; [|assumption].
    intros x Hx. apply Hb. now right.
Qed.

(** X7.  Without an explicit path the conventional names are tried in their
    order: when none of the four files exists the defaults are returned and
    nothing is printed; else the first one that exists is the file read,
    whatever files of the later names exist. *)
Theorem loadConfig_conventional_search
    (h : Host) (customPath : option jsstring) (tr : trace) :
  truthy customPath = false ->
  ((forall name, In name CONFIG_FILE_NAMES ->
      existsSync h (path_join h (process_cwd h) name) = false) ->
   loadConfig h customPath tr = (Return DEFAULT_CONFIG, tr))
  /\ (forall before name after,
        CONFIG_FILE_NAMES = before ++ name :: after ->
        (forall b, In b before ->
           existsSync h (path_join h (process_cwd h) b) = false) ->
        existsSync h (path_join h (process_cwd h) name) = true ->
        truthy (Some (path_join h (process_cwd h) name)) = true ->
        configFile h customPath = Some (path_join h (process_cwd h) name)
        /\ loadConfig h customPath tr
           = try_catch (readConfig h (path_join h (process_cwd h) name))
               parseFailed tr).
Proof.
  intros Hc. split.
  - intros Hnone. unfold loadConfig. rewrite Hc.
    now rewrite (searchConfig_none h _ _ Hnone).
  - intros before name after Hnames Hb Hn Ht.
    assert (Hfile : configFile h customPath
                    = Some (path_join h (process_cwd h) name)).
    { unfold configFile. rewrite Hc, Hnames.
      rewrite (searchConfig_first h _ before name after Hb Hn).
      now rewrite Ht. }
    split; [exact Hfile|]. now apply loadConfig_file.
Qed.

Lemma loadConfig_conventional_search_witness :
  loadConfig bareHost None [] = (Return DEFAULT_CONFIG, [])
  /\ configFile (staleDaysHost (VNum 60)) None
     = Some (js "/work/.branchcleanerrc").
Proof.
  split.
  - apply (proj1 (loadConfig_conventional_search bareHost None [] eq_refl)).
    reflexivity.
  - apply (proj2 (loadConfig_conventional_search (staleDaysHost (VNum 60))
                    None [] eq_refl)
             [] (js ".branchcleanerrc")
             [js ".branchcleanerrc.json"; js ".branchcleaner.json";
              js "branchcleaner.config.json"]); try reflexivity.
    intros b [].
Defined.

(** X8.  A file that parses but has the wrong shape loses all its
    settings: when the content is [null], or [excludePatterns] or
    [protectedBranches] is present and is neither a list nor a string, the
    line that the configuration was loaded is printed, then the warning,
    and the defaults are returned, a valid [staleDays] of the file
    included. *)
Theorem loadConfig_wrong_shape
    (h : Host) (customPath : option jsstring) (configPath content : jsstring)
    (userConfig : value) (tr : trace) :
  configFile h customPath = Some configPath ->
  readFileSync h configPath = inr content ->
  JSON_parse h content = inr userConfig ->
  (isNullish userConfig = true
   \/ iterable (nullish (prop userConfig (js "excludePatterns")) (VArr []))
      = None
   \/ iterable (nullish (prop userConfig (js "protectedBranches")) (VArr []))
      = None) ->
  exists error,
    isError error = true
    /\ loadConfig h customPath tr
       = (Return DEFAULT_CONFIG,
          tr ++ [loadedLine configPath; parseWarning error]).
Proof.
  intros Hfile Hread Hparse Hshape.
  rewrite (loadConfig_file h customPath tr Hfile).
  run_M. rewrite Hread, Hparse. unfold loadedLine, parseWarning.
  destruct (isNullish userConfig) eqn:Hnull.
  - eexists. split; [|rewrite <- app_assoc; reflexivity]. reflexivity.
  - destruct (iterable (nullish (prop userConfig (js "excludePatterns")) (VArr [])))
      as [excludes|] eqn:Hex.
    + destruct (iterable (nullish (prop userConfig (js "protectedBranches")) (VArr [])))
        as [protecteds|] eqn:Hpb.
      * destruct Hshape as [H|[H|H]]; discriminate.
      * eexists. split; [|rewrite <- app_assoc; reflexivity]. reflexivity.
    + eexists. split; [|rewrite <- app_assoc; reflexivity]. reflexivity.
Qed.

Lemma loadConfig_wrong_shape_witness :
  exists error,
    loadConfig
      (hostWithFiles rcFile
         (fun _ => inr (VObj [(js "staleDays", VNum 60);
                              (js "excludePatterns", VNum 5)])))
      None []
    = (Return DEFAULT_CONFIG,
       [loadedLine (js "/work/.branchcleanerrc"); parseWarning error]).
Proof.
  destruct (loadConfig_wrong_shape
              (hostWithFiles rcFile
                 (fun _ => inr (VObj [(js "staleDays", VNum 60);
                                      (js "excludePatterns", VNum 5)])))
              None (js "/work/.branchcleanerrc") (js "{...}")
              (VObj [(js "staleDays", VNum 60);
                     (js "excludePatterns", VNum 5)])
              [] eq_refl eq_refl eq_refl (or_intror (or_introl eq_refl)))
    as (error & _ & H).
  exists error. exact H.
Defined.

Lemma codePoints_step (c d : char) (s : jsstring) :
  codePoints (c :: d :: s)
  = if isHighSurrogate c && isLowSurrogate d
    then [c; d] :: codePoints s
    else [c] :: codePoints (d :: s).
Proof. reflexivity. Qed.

Lemma codePoints_concat_aux (s : jsstring) :
  List.concat (codePoints s) = s
  /\ forall c, List.concat (codePoints (c :: s)) = c :: s.
Proof.
  induction s as [|d s [IH1 IH2]]; [split; reflexivity|].
  split; [apply IH2|]. intros c. rewrite codePoints_step.
  destruct (isHighSurrogate c && isLowSurrogate d).
  - cbn [List.concat app]. now rewrite IH1.
  - cbn [List.concat app]. now rewrite IH2.
Qed.

Lemma codePoints_sizes_aux (s : jsstring) :
  Forall (fun cp => 1 <= List.length cp <= 2) (codePoints s)
  /\ forall c, Forall (fun cp => 1 <= List.length cp <= 2) (codePoints (c :: s)).
Proof.
  induction s as [|d s [IH1 IH2]].
  - split; [constructor|]. intros c. cbn. constructor; [cbn; lia|constructor].
  - split; [apply IH2|]. intros c. rewrite codePoints_step.
    destruct (isHighSurrogate c && isLowSurrogate d);
      constructor; cbn; try lia; [apply IH1|apply IH2].
Qed.

(** X9.  A string where a list of patterns is expected is taken apart: its
    code points, one or two code units each and the string again when put
    together, become the patterns after the built-in names. *)
Theorem loadConfig_string_for_list
    (h : Host) (customPath : option jsstring) (configPath content : jsstring)
    (userConfig : value) (s : jsstring) (protecteds : list value) (tr : trace) :
  configFile h customPath = Some configPath ->
  readFileSync h configPath = inr content ->
  JSON_parse h content = inr userConfig ->
  isNullish userConfig = false ->
  prop userConfig (js "excludePatterns") = VStr s ->
  iterable (nullish (prop userConfig (js "protectedBranches")) (VArr []))
  = Some protecteds ->
  exists config,
    loadConfig h customPath tr = (Return config, tr ++ [loadedLine configPath])
    /\ excludePatterns config
       = map VStr builtinProtected ++ map VStr (codePoints s)
    /\ List.concat (codePoints s) = s
    /\ Forall (fun cp => 1 <= List.length cp <= 2) (codePoints s).
Proof.
  intros Hfile Hread Hparse Hnull Hex Hpb.
  exists (merged userConfig (map VStr (codePoints s)) protecteds).
  split; [|split; [reflexivity|split]].
  - rewrite (loadConfig_file h customPath tr Hfile).
    apply readConfig_loaded.
    exists content, userConfig, (map VStr (codePoints s)), protecteds.
    repeat split; trivial. now rewrite Hex.
  - apply codePoints_concat_aux.
  - apply codePoints_sizes_aux.
Qed.

Lemma loadConfig_string_for_list_witness :
  exists config tr',
    loadConfig
      (hostWithFiles rcFile
         (fun _ => inr (VObj [(js "excludePatterns", VStr (js "wip"))])))
      None []
    = (Return config, tr')
    /\ excludePatterns config
       = map VStr builtinProtected ++ [VStr (js "w"); VStr (js "i"); VStr (js "p")].
Proof.
  destruct (loadConfig_string_for_list
              (hostWithFiles rcFile
                 (fun _ => inr (VObj [(js "excludePatterns", VStr (js "wip"))])))
              None (js "/work/.branchcleanerrc") (js "{...}")
              (VObj [(js "excludePatterns", VStr (js "wip"))]) (js "wip") []
              [] eq_refl eq_refl eq_refl eq_refl eq_refl eq_refl)
    as (config & Hrun & Hex & _).
  exists config, ([] ++ [loadedLine (js "/work/.branchcleanerrc")]).
  split; [exact Hrun|exact Hex].
Defined.

(** X10.  [loadConfig] writes to the console and does nothing else: it
    adds at most two lines to what was printed, runs no command and asks no
    question. *)
Theorem loadConfig_console_only
    (h : Host) (customPath : option jsstring) (tr : trace) :
  exists config printed,
    loadConfig h customPath tr = (Return config, tr ++ printed)
    /\ List.length printed <= 2
    /\ forallb isConsole printed = true.
Proof.
  destruct (configFile h customPath) as [configPath|] eqn:Hfile.
  - rewrite (loadConfig_file h customPath tr Hfile).
    run_M.
    destruct (readFileSync h configPath) as [e|content];
      [eexists _, [_]; repeat split; cbn; lia|].
    destruct (JSON_parse h content) as [e|userConfig];
      [eexists _, [_]; repeat split; cbn; lia|].
    destruct (isNullish userConfig);
      [eexists _, [_; _]; rewrite <- app_assoc; repeat split; cbn; lia|].
    destruct (iterable (nullish (prop userConfig (js "excludePatterns")) (VArr [])));
      [|eexists _, [_; _]; rewrite <- app_assoc; repeat split; cbn; lia].
    destruct (iterable (nullish (prop userConfig (js "protectedBranches")) (VArr [])));
      [|eexists _, [_; _]; rewrite <- app_assoc; repeat split; cbn; lia].
    eexists _, [_]; repeat split; cbn; lia.
  - revert Hfile. unfold configFile, loadConfig.
    destruct (truthy customPath) eqn:Hc.
    + destruct customPath as [custom|]; [|discriminate].
      destruct (existsSync h (path_resolve h custom)); cbn [negb].
      * destruct (truthy (Some (path_resolve h custom))); [discriminate|].
        intros _. exists DEFAULT_CONFIG, []. rewrite app_nil_r.
        repeat split; cbn; lia.
      * intros _. run_M. eexists _, [_]. repeat split; cbn; lia.
    + destruct (searchConfig h (process_cwd h) CONFIG_FILE_NAMES) as [found|].
      * destruct (truthy (Some found)); [discriminate|]. intros _.
        exists DEFAULT_CONFIG, []. rewrite app_nil_r. repeat split; cbn; lia.
      * intros _. exists DEFAULT_CONFIG, []. rewrite app_nil_r.
        repeat split; cbn; lia.
Qed.

End ConfigMore.

(** ** More on the command line *)

Module CliMore.
Import Cli CliLines StaleDaysContract Samples.

Ltac known_option arg key :=
  destruct (str_eqb_spec arg (js key)) as [->|_]; [discriminate|].

(** An argument that is none of the ten spellings matches no case. *)
Lemma isOption_unknown (arg : jsstring) :
  isKnownOption arg = false ->
  isOption arg "-h" "--help" = false
  /\ isOption arg "-p" "--path" = false
  /\ isOption arg "-c" "--config" = false
  /\ isOption arg "-e" "--exclude" = false
  /\ isOption arg "-s" "--stale-days" = false.
Proof.
  unfold isOption. intros H.
  known_option arg "-h"%string. known_option arg "--help"%string.
  known_option arg "-p"%string. known_option arg "--path"%string.
  known_option arg "-c"%string. known_option arg "--config"%string.
  known_option arg "-e"%string. known_option arg "--exclude"%string.
  known_option arg "-s"%string. known_option arg "--stale-days"%string.
  repeat split.
Qed.

Lemma positional_unknown (arg : jsstring) :
  isPositional arg = true -> isKnownOption arg = false.
Proof.
  intros H. destruct (isKnownOption arg) eqn:E; [|reflexivity].
  unfold isKnownOption in E. apply existsb_exists in E as (o & Ho & E).
  apply str_eqb_eq in E. subst o.
  unfold optionSpellings in Ho. cbn [In] in Ho.
  repeat (destruct Ho as [<- | Ho]; [discriminate|]). destruct Ho.
Qed.

Lemma parseLoop_other (arg : jsstring) (rest : list jsstring) (r : CliArgs) :
  isKnownOption arg = false ->
  parseLoop (arg :: rest) r
  = parseLoop rest
      (if negb (startsWith arg (js "-")) && negb (truthy (repoPath r))
       then set_repoPath r (Some arg) else r).
Proof.
  intros H. destruct (isOption_unknown arg H) as (H1 & H2 & H3 & H4 & H5).
  cbn [parseLoop]. now rewrite H1, H2, H3, H4, H5.
Qed.

Lemma parseLoop_exclude (long : bool) (p : jsstring)
    (rest : list jsstring) (r : CliArgs) :
  parseLoop (excludeFlag long :: p :: rest) r
  = parseLoop rest (if nonEmpty p then push_excludePattern r p else r).
Proof. destruct long; reflexivity. Qed.

(** Pushing patterns one after the other. *)
Lemma push_excludePatterns_fields (ps : list jsstring) (r : CliArgs) :
  let r' := fold_left push_excludePattern ps r in
  excludePatterns r' = excludePatterns r ++ ps
  /\ repoPath r' = repoPath r
  /\ configPath r' = configPath r
  /\ staleDays r' = staleDays r
  /\ help r' = help r.
Proof.
  cbv zeta. revert r. induction ps as [|p ps IH]; intros r.
  - cbn. rewrite app_nil_r. repeat split.
  - cbn [fold_left]. destruct (IH (push_excludePattern r p))
      as (H1 & H2 & H3 & H4 & H5).
    rewrite H1, H2, H3, H4, H5. cbn. rewrite <- app_assoc. repeat split.
Qed.

Lemma parseLoop_exclude_args
    (ps : list (bool * jsstring)) (rest : list jsstring) (r : CliArgs) :
  parseLoop (excludeArgs ps ++ rest) r
  = parseLoop rest
      (fold_left push_excludePattern (filter nonEmpty (map snd ps)) r).
Proof.
  revert r. induction ps as [|[long p] ps IH]; intros r; [reflexivity|].
  cbn [excludeArgs flat_map fst snd app map filter].
  fold (excludeArgs ps). rewrite parseLoop_exclude, IH.
  destruct (nonEmpty p); reflexivity.
Qed.

(** X11.  The exclude options accumulate: after [-e p1 -e p2 ...], short
    or long, the patterns of the result are the earlier ones followed by
    the [p] that are not empty, in the order given; the other fields are as
    before, and what follows on the command line is read as if it came
    first. *)
Theorem parseLoop_exclude_accumulates
    (ps : list (bool * jsstring)) (rest : list jsstring) (r : CliArgs) :
  let r' := parseLoop (excludeArgs ps) r in
  excludePatterns r' = excludePatterns r ++ filter nonEmpty (map snd ps)
  /\ repoPath r' = repoPath r
  /\ configPath r' = configPath r
  /\ staleDays r' = staleDays r
  /\ help r' = help r
  /\ parseLoop (excludeArgs ps ++ rest) r = parseLoop rest r'.
Proof.
  cbv zeta.
  assert (Hrun : parseLoop (excludeArgs ps) r
                 = fold_left push_excludePattern
                     (filter nonEmpty (map snd ps)) r).
  { rewrite <- (app_nil_r (excludeArgs ps)) at 1.
    now rewrite parseLoop_exclude_args. }
  rewrite Hrun, parseLoop_exclude_args.
  destruct (push_excludePatterns_fields (filter nonEmpty (map snd ps)) r)
    as (H1 & H2 & H3 & H4 & H5).
  repeat split; assumption.
Qed.

(** X12.  An argument that starts with [-] and is none of the ten option
    spellings is passed over: [-v] and [--verbose], which [index.ts] reads
    for itself, and any misspelt option change nothing, and take no value
    with them. *)
Theorem parseLoop_unknown_dash_ignored
    (arg : jsstring) (rest : list jsstring) (r : CliArgs) :
  startsWith arg (js "-") = true ->
  isKnownOption arg = false ->
  parseLoop (arg :: rest) r = parseLoop rest r.
Proof.
  intros Hdash Hunknown. rewrite (parseLoop_other arg rest r Hunknown).
  now rewrite Hdash.
Qed.

Lemma parseLoop_unknown_dash_ignored_witness :
  parseLoop [js "--verbose"; js "-s"; js "45"] initial
  = set_staleDays initial 45.
Proof.
  rewrite (parseLoop_unknown_dash_ignored (js "--verbose")
             [js "-s"; js "45"] initial eq_refl eq_refl).
  reflexivity.
Defined.

Lemma parseLoop_positionals_skipped (ps rest : list jsstring) (r : CliArgs) :
  truthy (repoPath r) = true ->
  forallb isPositional ps = true ->
  parseLoop (ps ++ rest) r = parseLoop rest r.
Proof.
  intros Hr. induction ps as [|a ps IH]; intros Hps; [reflexivity|].
  cbn [forallb] in Hps. apply andb_true_iff in Hps as [Ha Hps].
  cbn [app]. rewrite (parseLoop_other a _ r (positional_unknown a Ha)).
  rewrite Hr, andb_false_r. now apply IH.
Qed.

(** X13.  The first argument without a leading [-] is the repository path
    when none was given before; the arguments without a leading [-] that
    follow it are dropped. *)
Theorem parseLoop_first_positional_wins
    (a : jsstring) (ps rest : list jsstring) (r : CliArgs) :
  isPositional a = true ->
  nonEmpty a = true ->
  truthy (repoPath r) = false ->
  forallb isPositional ps = true ->
  parseLoop (a :: ps ++ rest) r = parseLoop rest (set_repoPath r (Some a)).
Proof.
  intros Ha Hne Hr Hps.
  rewrite (parseLoop_other a _ r (positional_unknown a Ha)).
  unfold isPositional in Ha. rewrite Ha, Hr. cbn [negb andb].
  now apply parseLoop_positionals_skipped.
Qed.

Lemma parseLoop_first_positional_wins_witness :
  repoPath (parseLoop [js "/repo"; js "/other"; js "-s"; js "7"] initial)
  = Some (js "/repo").
Proof.
  exact (f_equal repoPath
           (parseLoop_first_positional_wins (js "/repo") [js "/other"]
              [js "-s"; js "7"] initial eq_refl eq_refl eq_refl eq_refl)).
Defined.

Lemma parseLoop_stale (long : bool) (v : jsstring)
    (rest : list jsstring) (r : CliArgs) :
  parseLoop (staleFlag long :: v :: rest) r
  = parseLoop rest
      (match parseInt (Some v) with
       | Some days => set_staleDays r days
       | None => r
       end).
Proof. destruct long; reflexivity. Qed.

Lemma parseLoop_stale_invalid (vs : list (bool * jsstring)) (r : CliArgs) :
  (forall x, In x vs -> parseInt (Some (snd x)) = None) ->
  parseLoop (staleArgs vs) r = r.
Proof.
  revert r. induction vs as [|[long v] vs IH]; intros r H; [reflexivity|].
  cbn [staleArgs flat_map fst snd app]. fold (staleArgs vs).
  rewrite parseLoop_stale.
  pose proof (H (long, v) (or_introl eq_refl)) as Hv. cbn [snd] in Hv.
  rewrite Hv. apply IH. intros x Hx. apply H. now right.
Qed.

(** X14.  Of several stale-days options the last one [parseInt] reads a
    number from decides; options after it whose value is no number do not
    undo it, and when no value is a number the field stays as it was. *)
Theorem parseLoop_last_number_wins
    (before after : list (bool * jsstring)) (long : bool) (v : jsstring)
    (days : Z) (r : CliArgs) :
  parseInt (Some v) = Some days ->
  (forall x, In x after -> parseInt (Some (snd x)) = None) ->
  staleDays (parseLoop (staleArgs (before ++ (long, v) :: after)) r)
  = Some days
  /\ parseLoop (staleArgs after) r = r.
Proof.
  intros Hv Hafter. split; [|now apply parseLoop_stale_invalid].
  revert r. induction before as [|[l b] before IH]; intros r.
  - cbn [app staleArgs flat_map fst snd]. fold (staleArgs after).
    rewrite parseLoop_stale, Hv.
    now rewrite (parseLoop_stale_invalid after _ Hafter).
  - cbn [app staleArgs flat_map fst snd]. fold (staleArgs (before ++ (long, v) :: after)).
    rewrite parseLoop_stale. apply IH.
Qed.

Lemma parseLoop_last_number_wins_witness :
  staleDays (parseLoop [js "-s"; js "10"; js "--stale-days"; js "20";
                        js "-s"; js "soon"] initial)
  = Some 20%Z.
Proof.
  refine (proj1 (parseLoop_last_number_wins [(false, js "10")]
                   [(false, js "soon")] true (js "20") 20 initial eq_refl _)).
  intros x [<-|[]]. reflexivity.
Defined.

Lemma help_preserved (n : nat) :
  forall args r,
    List.length args <= n -> help r = true -> help (parseLoop args r) = true.
Proof.
  induction n as [|n IH]; intros args r Hn Hr.
  - destruct args; [exact Hr|cbn in Hn; lia].
  - destruct args as [|arg rest]; [exact Hr|].
    cbn [List.length] in Hn.
    assert (Hrest : forall r', help r' = true -> help (parseLoop rest r') = true)
      by (intros r' Hr'; apply IH; [lia|assumption]).
    assert (Hrest' : forall v rest' r', rest = v :: rest' -> help r' = true ->
                       help (parseLoop rest' r') = true).
    { intros v rest' r' -> Hr'. apply IH; [cbn in Hn; lia|assumption]. }
    cbn [parseLoop].
    destruct (isOption arg "-h" "--help"); [now apply Hrest|].
    destruct (isOption arg "-p" "--path").
    { destruct rest as [|v rest']; [exact Hr|]. now apply (Hrest' v). }
    destruct (isOption arg "-c" "--config").
    { destruct rest as [|v rest']; [exact Hr|]. now apply (Hrest' v). }
    destruct (isOption arg "-e" "--exclude").
    { destruct rest as [|v rest']; [exact Hr|]. apply (Hrest' v); trivial.
      now destruct (truthy (Some v)). }
    destruct (isOption arg "-s" "--stale-days").
    { destruct rest as [|v rest'].
      - now destruct (parseInt None).
      - apply (Hrest' v); trivial. now destruct (parseInt (Some v)). }
    apply Hrest.
    now destruct (negb (startsWith arg (js "-")) && negb (truthy (repoPath r))).
Qed.

(** X15.  [parseArgs] never throws.  It prints the usage and ends the
    process with status 0, or returns arguments whose [help] is false and
    prints nothing.  A help option in first place always ends the process,
    whatever follows it; one that stands where a value is expected is the
    value and no call for help. *)
Theorem parseArgs_help (args : list jsstring) (tr : trace) :
  (parseArgs args tr = (Exit 0, tr ++ [ConsoleLog usage])
   \/ exists result, parseArgs args tr = (Return result, tr)
                     /\ help result = false)
  /\ (forall long : bool,
        parseArgs ((if long then js "--help" else js "-h") :: args) tr
        = (Exit 0, tr ++ [ConsoleLog usage]))
  /\ (forall long : bool,
        parseArgs [js "-p"; if long then js "--help" else js "-h"] tr
        = (Return (set_repoPath initial
                     (Some (if long then js "--help" else js "-h"))), tr)).
Proof.
  split; [|split].
  - unfold parseArgs.
    destruct (help (parseLoop args _)) eqn:Hh; [now left|].
    right. eexists. split; [reflexivity|exact Hh].
  - intros long. unfold parseArgs.
    assert (H : help (parseLoop ((if long then js "--help" else js "-h") :: args)
                        initial) = true).
    { assert (E : parseLoop ((if long then js "--help" else js "-h") :: args) initial
                  = parseLoop args (set_help initial))
        by (destruct long; reflexivity).
      rewrite E. now apply (help_preserved (List.length args)). }
    unfold initial in H. now rewrite H.
  - intros long. destruct long; reflexivity.
Qed.

End CliMore.

(** ** More on the tools *)

Module ToolsMore.
Import Text TextFacts Tools ToolsProps MoreTools Samples MoreSamples CliLines
  StaleDaysContract.

Lemma execGit_throws (h : Host) (command cwd : jsstring) (e : thrown)
    (tr : trace) :
  execSync h tr command cwd = inl e ->
  execGit h command cwd tr = (Throw (rethrown e), tr ++ [Exec command cwd]).
Proof.
  intros H. unfold execGit, rethrown. rewrite H.
  destruct (isError e); [destruct (stderr e)|]; reflexivity.
Qed.

Lemma delete_local_branch_eq (h : Host) (repoPath branch_name : jsstring)
    (force : option bool) :
  delete_local_branch h repoPath branch_name force
  = bind (execGit h c_currentBranch repoPath)
      (fun currentBranch =>
         if str_eqb currentBranch branch_name then ret refusal
         else
           try_catch
             (bind (execGit h (gitBranchDelete force branch_name) repoPath)
                (fun _ => ret (localDeleted branch_name)))
             (fun error =>
                ret (VObj [field "success" (VBool false);
                           field "error" (VStr (errorMessage error))]))).
Proof. reflexivity. Qed.

(** X16.  For a branch that is not the current one [delete_local_branch]
    runs one deletion, [git branch -D] when [force] is true and
    [git branch -d] when it is false or absent, and answers by a result in
    both cases: a failure of the deletion is reported with its message, it
    is not thrown. *)
Theorem delete_local_branch_other_branch
    (h : Host) (repoPath branch_name out : jsstring) (force : option bool)
    (tr : trace) :
  execSync h tr c_currentBranch repoPath = inr out ->
  trim out <> branch_name ->
  let tr1 := tr ++ [Exec c_currentBranch repoPath] in
  let command := gitBranchDelete force branch_name in
  let tr2 := tr1 ++ [Exec command repoPath] in
  (forall out2,
      execSync h tr1 command repoPath = inr out2 ->
      delete_local_branch h repoPath branch_name force tr
      = (Return (localDeleted branch_name), tr2))
  /\ (forall e,
      execSync h tr1 command repoPath = inl e ->
      delete_local_branch h repoPath branch_name force tr
      = (Return (failed e), tr2)).
Proof.
  intros Hout Hother. cbv zeta.
  apply str_eqb_neq in Hother.
  rewrite delete_local_branch_eq. unfold bind, try_catch.
  rewrite (@execGit_ok h _ _ _ tr Hout), Hother.
  split.
  - intros out2 H2. now rewrite (@execGit_ok h _ _ _ _ H2).
  - intros e H2. now rewrite (execGit_throws h _ _ _ _ H2).
Qed.

Lemma delete_local_branch_other_branch_witness :
  delete_local_branch (gitHost onFeatureX) (js "/repo") (js "old-topic")
    (Some true) []
  = (Return (failed (gitFailure "fatal: Needed a single revision")),
     [Exec c_currentBranch (js "/repo");
      Exec (js "git branch -D old-topic") (js "/repo")]).
Proof.
  refine (proj2 (delete_local_branch_other_branch (gitHost onFeatureX)
                   (js "/repo") (js "old-topic") (js "feature-x" ++ [10]%N)
                   (Some true) [] eq_refl _) _ eq_refl).
  discriminate.
Defined.

(** X17.  When [git] cannot tell the current branch, [delete_local_branch]
    throws instead of answering, and has run no deletion. *)
Theorem delete_local_branch_unknown_current
    (h : Host) (repoPath branch_name : jsstring) (force : option bool)
    (e : thrown) (tr : trace) :
  execSync h tr c_currentBranch repoPath = inl e ->
  delete_local_branch h repoPath branch_name force tr
  = (Throw (rethrown e), tr ++ [Exec c_currentBranch repoPath]).
Proof.
  intros H. rewrite delete_local_branch_eq. unfold bind.
  now rewrite (execGit_throws h _ _ _ tr H).
Qed.

Lemma delete_local_branch_unknown_current_witness :
  delete_local_branch bareHost (js "/work") (js "feature-x") None []
  = (Throw (newError (js "Git command failed: fatal: not a git repository")),
     [Exec c_currentBranch (js "/work")]).
Proof.
  exact (delete_local_branch_unknown_current bareHost (js "/work")
           (js "feature-x") None (gitFailure "fatal: not a git repository")
           [] eq_refl).
Defined.

(** X18.  [get_current_branch] and [delete_local_branch] agree on the
    current branch: the name the first reports is refused by the second,
    as long as [git] names the same branch when asked again. *)
Theorem reported_current_branch_is_refused
    (h : Host) (repoPath out : jsstring) (force : option bool) (tr : trace) :
  let tr1 := tr ++ [Exec c_currentBranch repoPath] in
  execSync h tr c_currentBranch repoPath = inr out ->
  execSync h tr1 c_currentBranch repoPath = inr out ->
  get_current_branch h repoPath tr
  = (Return (VObj [field "currentBranch" (VStr (trim out))]), tr1)
  /\ delete_local_branch h repoPath (trim out) force tr1
     = (Return refusal, tr1 ++ [Exec c_currentBranch repoPath]).
Proof.
  cbv zeta. intros H1 H2. split.
  - unfold get_current_branch, bind. fold c_currentBranch.
    now rewrite (@execGit_ok h _ _ _ tr H1).
  - rewrite delete_local_branch_eq. unfold bind.
    rewrite (@execGit_ok h _ _ _ _ H2). now rewrite str_eqb_refl.
Qed.

Lemma reported_current_branch_is_refused_witness :
  get_current_branch (gitHost onFeatureX) (js "/repo") []
  = (Return (VObj [field "currentBranch" (VStr (js "feature-x"))]),
     [Exec c_currentBranch (js "/repo")]).
Proof.
  exact (proj1 (reported_current_branch_is_refused (gitHost onFeatureX)
                  (js "/repo") (js "feature-x" ++ [10]%N) None []
                  eq_refl eq_refl)).
Defined.

(** X19.  [get_main_branch] never throws: whatever [git] answers it
    returns a main branch, after one, two or three of its three queries, in
    their order, and no other command. *)
Theorem get_main_branch_total (h : Host) (repoPath : jsstring) (tr : trace) :
  exists n commands,
    get_main_branch h repoPath tr
    = (Return (mainBranchIs n),
       tr ++ map (fun c => Exec c repoPath) commands)
    /\ (commands = [c_verifyMain]
        \/ commands = [c_verifyMain; c_verifyMaster]
        \/ commands = [c_verifyMain; c_verifyMaster; c_remoteHead]).
Proof.
  unfold get_main_branch, try_catch, bind.
  fold c_verifyMain c_verifyMaster c_remoteHead.
  destruct (execSync h tr c_verifyMain repoPath) as [e1|o1] eqn:H1.
  - rewrite (execGit_throws h _ _ _ tr H1).
    destruct (execSync h (tr ++ [Exec c_verifyMain repoPath]) c_verifyMaster
                repoPath) as [e2|o2] eqn:H2.
    + rewrite (execGit_throws h _ _ _ _ H2).
      destruct (execSync h ((tr ++ [Exec c_verifyMain repoPath])
                            ++ [Exec c_verifyMaster repoPath])
                  c_remoteHead repoPath) as [e3|o3] eqn:H3.
      * rewrite (execGit_throws h _ _ _ _ H3).
        exists (js "main"), [c_verifyMain; c_verifyMaster; c_remoteHead].
        cbn [map]. rewrite <- !app_assoc. split; [reflexivity|auto].
      * rewrite (@execGit_ok h _ _ _ _ H3).
        exists (replaceFirst (js "refs/remotes/origin/") [] (trim o3)),
          [c_verifyMain; c_verifyMaster; c_remoteHead].
        cbn [map]. rewrite <- !app_assoc. split; [reflexivity|auto].
    + rewrite (@execGit_ok h _ _ _ _ H2).
      exists (js "master"), [c_verifyMain; c_verifyMaster].
      cbn [map]. rewrite <- !app_assoc. split; [reflexivity|auto].
  - rewrite (@execGit_ok h _ _ _ tr H1).
    exists (js "main"), [c_verifyMain]. split; [reflexivity|auto].
Qed.

(** *** [check_merged_status] *)

Lemma check_merged_status_eq (h : Host) (repoPath branch_name : jsstring) :
  check_merged_status h repoPath branch_name
  = bind
      (try_catch
         (bind (execGit h c_verifyMain repoPath)
            (fun _ => ret (Some (js "main"))))
         (fun _ =>
            try_catch
              (bind (execGit h c_verifyMaster repoPath)
                 (fun _ => ret (Some (js "master"))))
              (fun _ => ret None)))
      (fun found =>
         match found with
         | None => ret noMainBranch
         | Some mainBranch =>
             try_catch
               (bind (execGit h (gitBranchMerged mainBranch) repoPath)
                  (fun mergedBranches =>
                     ret (mergedAnswer branch_name mainBranch
                            (existsb
                               (fun b => str_eqb (branchOfLine b) branch_name)
                               (split c_lf mergedBranches)))))
               (fun error =>
                  ret (VObj [field "branch" (VStr branch_name);
                             field "error" (VStr (errorMessage error));
                             field "merged" (VBool false)]))
         end).
Proof. reflexivity. Qed.

(** The rest of [check_merged_status] once the main branch is known. *)
Lemma merged_query_total (h : Host) (repoPath branch_name mainBranch : jsstring)
    (tr : trace) :
  exists payload m,
    try_catch
      (bind (execGit h (gitBranchMerged mainBranch) repoPath)
         (fun mergedBranches =>
            ret (mergedAnswer branch_name mainBranch
                   (existsb (fun b => str_eqb (branchOfLine b) branch_name)
                      (split c_lf mergedBranches)))))
      (fun error =>
         ret (VObj [field "branch" (VStr branch_name);
                    field "error" (VStr (errorMessage error));
                    field "merged" (VBool false)]))
      tr
    = (Return payload, tr ++ [Exec (gitBranchMerged mainBranch) repoPath])
    /\ prop payload (js "merged") = VBool m.
Proof.
  unfold try_catch, bind.
  destruct (execSync h tr (gitBranchMerged mainBranch) repoPath)
    as [e|out] eqn:H.
  - rewrite (execGit_throws h _ _ _ _ H). eexists _, _.
    split; reflexivity.
  - rewrite (@execGit_ok h _ _ _ _ H). eexists _, _. split; reflexivity.
Qed.

(** X20.  [check_merged_status] never throws: it always answers an object
    with a boolean [merged].  It looks for [main] and then [master] only:
    when neither resolves it answers that no main branch was found, with
    [merged] false, after those two queries and no other command. *)
Theorem check_merged_status_total
    (h : Host) (repoPath branch_name : jsstring) (tr : trace) :
  (exists payload tr' m,
      check_merged_status h repoPath branch_name tr = (Return payload, tr')
      /\ prop payload (js "merged") = VBool m)
  /\ (forall e1 e2,
        execSync h tr c_verifyMain repoPath = inl e1 ->
        execSync h (tr ++ [Exec c_verifyMain repoPath]) c_verifyMaster repoPath
        = inl e2 ->
        check_merged_status h repoPath branch_name tr
        = (Return noMainBranch,
           tr ++ [Exec c_verifyMain repoPath; Exec c_verifyMaster repoPath])).
Proof.
  rewrite check_merged_status_eq. split.
  - unfold bind at 1. unfold try_catch at 1. unfold bind at 1.
    destruct (execSync h tr c_verifyMain repoPath) as [e1|o1] eqn:H1.
    + rewrite (execGit_throws h _ _ _ _ H1).
      unfold try_catch at 1. unfold bind at 1.
      destruct (execSync h (tr ++ [Exec c_verifyMain repoPath]) c_verifyMaster
                  repoPath) as [e2|o2] eqn:H2.
      * rewrite (execGit_throws h _ _ _ _ H2).
        eexists _, _, _. split; reflexivity.
      * rewrite (@execGit_ok h _ _ _ _ H2). unfold ret at 1.
        destruct (merged_query_total h repoPath branch_name (js "master")
                    ((tr ++ [Exec c_verifyMain repoPath])
                     ++ [Exec c_verifyMaster repoPath]))
          as (payload & m & -> & Hm). eauto.
    + rewrite (@execGit_ok h _ _ _ _ H1). unfold ret at 1.
      destruct (merged_query_total h repoPath branch_name (js "main")
                  (tr ++ [Exec c_verifyMain repoPath]))
        as (payload & m & -> & Hm). eauto.
  - intros e1 e2 H1 H2. unfold bind, try_catch.
    rewrite (execGit_throws h _ _ _ _ H1), (execGit_throws h _ _ _ _ H2).
    unfold ret. now rewrite <- app_assoc.
Qed.

Lemma check_merged_status_total_witness :
  check_merged_status bareHost (js "/work") (js "feature-x") []
  = (Return noMainBranch,
     [Exec c_verifyMain (js "/work"); Exec c_verifyMaster (js "/work")]).
Proof.
  exact (proj2 (check_merged_status_total bareHost (js "/work")
                  (js "feature-x") [])
           (gitFailure "fatal: not a git repository")
           (gitFailure "fatal: not a git repository") eq_refl eq_refl).
Defined.

Lemma noWhiteSpace_In (s : jsstring) (c : char) :
  noWhiteSpace s = true -> In c s -> isStrWhiteSpaceChar c = false.
Proof.
  unfold noWhiteSpace. rewrite forallb_forall. intros H Hc.
  apply negb_true_iff. now apply H.
Qed.

Lemma replaceFirst_no_mark (s : jsstring) :
  noWhiteSpace s = true -> replaceFirst (js "* ") [] s = s.
Proof.
  induction s as [|c s IH]; intros H; [reflexivity|].
  rewrite replaceFirst_unfold.
  assert (Hs : startsWith (c :: s) (js "* ") = false).
  { change (js "* ") with [42%N; 32%N]. cbn [startsWith].
    destruct s as [|d s]; [apply andb_false_r|].
    assert (Hd : isStrWhiteSpaceChar d = false)
      by (apply (noWhiteSpace_In (c :: d :: s)); [assumption|right; now left]).
    destruct (N.eqb_spec d 32) as [->|_]; [discriminate|].
    cbn [andb]. apply andb_false_r. }
  rewrite Hs. f_equal. apply IH.
  unfold noWhiteSpace in *. cbn [forallb] in H.
  now apply andb_true_iff in H as [_ H].
Qed.

Lemma marked_trimmed (current : bool) (n : jsstring) :
  n <> [] -> noWhiteSpace n = true ->
  trimmed ((if current then js "* " else []) ++ n) = true.
Proof.
  intros Hne Hn. unfold trimmed.
  destruct ((if current then js "* " else []) ++ n) as [|c s] eqn:E.
  - destruct current; [discriminate|]. cbn in E. contradiction.
  - rewrite <- E, rev_app_distr.
    destruct (rev n) as [|d r] eqn:Hr.
    + apply (f_equal (@rev char)) in Hr. rewrite rev_involutive in Hr.
      contradiction.
    + cbn [app].
      assert (Hd : isStrWhiteSpaceChar d = false).
      { apply (noWhiteSpace_In n); [assumption|].
        apply in_rev. rewrite Hr. now left. }
      assert (Hc : isStrWhiteSpaceChar c = false).
      { destruct current.
        - cbn in E. injection E as <- _. reflexivity.
        - cbn in E. apply (noWhiteSpace_In n); [assumption|].
          rewrite E. now left. }
      now rewrite Hc, Hd.
Qed.

Lemma branchOfLine_mergedLine (indent : jsstring) (current : bool)
    (n : jsstring) :
  forallb isStrWhiteSpaceChar indent = true ->
  n <> [] -> noWhiteSpace n = true ->
  branchOfLine (mergedLine (indent, current, n)) = n.
Proof.
  intros Hi Hne Hn. unfold branchOfLine, mergedLine. cbn [fst snd].
  rewrite (trim_indent indent _ Hi (marked_trimmed current n Hne Hn)).
  destruct current.
  - apply replaceFirst_prefix.
  - now apply replaceFirst_no_mark.
Qed.

(** X21.  With [main] resolving, and [git branch --merged main] answering
    lines of an indentation, the mark of the current branch or none, and a
    name, [check_merged_status] answers [merged] true exactly for the names
    on those lines, the marked current branch among them. *)
Theorem check_merged_status_lists
    (h : Host) (repoPath branch_name o1 out : jsstring)
    (lines : list (jsstring * bool * jsstring)) (tr : trace) :
  let tr1 := tr ++ [Exec c_verifyMain repoPath] in
  execSync h tr c_verifyMain repoPath = inr o1 ->
  execSync h tr1 (gitBranchMerged (js "main")) repoPath = inr out ->
  split c_lf (trim out) = map mergedLine lines ->
  Forall goodMergedLine lines ->
  exists isMerged,
    check_merged_status h repoPath branch_name tr
    = (Return (mergedAnswer branch_name (js "main") isMerged),
       tr1 ++ [Exec (gitBranchMerged (js "main")) repoPath])
    /\ (isMerged = true <-> In branch_name (map snd lines)).
Proof.
  cbv zeta. intros H1 H2 Hsplit Hgood.
  exists (existsb (fun b => str_eqb (branchOfLine b) branch_name)
            (split c_lf (trim out))).
  split.
  - rewrite check_merged_status_eq. unfold bind, try_catch.
    rewrite (@execGit_ok h _ _ _ _ H1). unfold ret at 1.
    now rewrite (@execGit_ok h _ _ _ _ H2).
  - rewrite Hsplit. clear Hsplit. induction Hgood as [|[[indent cur] n] ls Hl _ IH].
    + cbn. split; [discriminate|contradiction].
    + destruct Hl as (Hi & Hne & Hn). cbn [fst snd] in Hi, Hne, Hn.
      cbn [map existsb In snd].
      rewrite (branchOfLine_mergedLine indent cur n Hi Hne Hn).
      rewrite orb_true_iff, IH, str_eqb_eq. tauto.
Qed.

Lemma check_merged_status_lists_witness :
  exists isMerged,
    check_merged_status (gitHost mergedSample) (js "/repo") (js "main") []
    = (Return (mergedAnswer (js "main") (js "main") isMerged),
       [Exec c_verifyMain (js "/repo");
        Exec (gitBranchMerged (js "main")) (js "/repo")])
    /\ (isMerged = true <-> In (js "main") [js "feature-x"; js "main"]).
Proof.
  refine (check_merged_status_lists (gitHost mergedSample) (js "/repo")
            (js "main") (js "0a1b2c3")
            (js "  feature-x" ++ [10]%N ++ js "* main" ++ [10]%N)
            [([], false, js "feature-x"); ([], true, js "main")] []
            eq_refl eq_refl eq_refl _).
  repeat constructor; discriminate.
Defined.

(** *** [get_branch_info] *)

Lemma split_pieces_free (sep : char) (s : jsstring) :
  forallb (free sep) (split sep s) = true.
Proof.
  induction s as [|c s IH]; [reflexivity|].
  cbn [split]. destruct (N.eqb_spec c sep) as [->|Hc].
  - cbn [forallb]. now rewrite IH.
  - pose proof (split_not_nil sep s) as Hne.
    destruct (split sep s) as [|q qs]; [contradiction|].
    cbn [forallb] in *. apply andb_true_iff in IH as [Hq Hqs].
    cbn [free forallb]. fold (free sep q).
    apply N.eqb_neq in Hc. now rewrite Hc, Hq, Hqs.
Qed.

(** What [upToBar] keeps and what it drops. *)
Lemma upToBar_spec (subject : jsstring) :
  free c_bar (upToBar subject) = true
  /\ exists rest,
       subject = upToBar subject ++ rest
       /\ (rest = [] \/ exists r, rest = c_bar :: r).
Proof.
  unfold upToBar. split.
  - pose proof (split_pieces_free c_bar subject) as H.
    destruct (split c_bar subject); [reflexivity|].
    cbn [forallb] in H. now apply andb_true_iff in H as [H _].
  - pose proof (join_split c_bar subject) as H.
    pose proof (split_not_nil c_bar subject) as Hne.
    destruct (split c_bar subject) as [|p ps]; [contradiction|].
    destruct ps as [|q ps].
    + exists []. cbn [join] in H. rewrite app_nil_r. auto.
    + exists (c_bar :: join [c_bar] (q :: ps)). split; [|eauto].
      now rewrite <- H.
Qed.

(** X22.  [get_branch_info] never throws: a failure of [git log] is
    answered by an object with the error.  Of the answer of [git log] the
    first five pieces between bars are the hash, the author, the mail, the
    date and the message: a subject with a bar in it is cut at its first
    bar.  An answer without a bar gives the hash alone, and no number of
    days. *)
Theorem get_branch_info_fields
    (h : Host) (clock : Clock) (repoPath branch_name : jsstring) (tr : trace) :
  let tr1 := tr ++ [Exec (gitLog branch_name) repoPath] in
  (forall e,
      execSync h tr (gitLog branch_name) repoPath = inl e ->
      get_branch_info h clock repoPath branch_name tr
      = (Return (InfoError branch_name (errorMessage (rethrown e))), tr1))
  /\ (forall out hash author email date subject,
        execSync h tr (gitLog branch_name) repoPath = inr out ->
        trim out = join [c_bar] [hash; author; email; date; subject] ->
        free c_bar hash = true -> free c_bar author = true ->
        free c_bar email = true -> free c_bar date = true ->
        get_branch_info h clock repoPath branch_name tr
        = (Return
             (Info branch_name
                {| MoreTools.hash := Some hash; MoreTools.author := Some author;
                   MoreTools.email := Some email; MoreTools.date := Some date;
                   message := Some (upToBar subject) |}
                (option_map (daysSinceLastCommit (Date_now clock tr1))
                   (Date_getTime clock date))),
           tr1))
  /\ (forall out,
        execSync h tr (gitLog branch_name) repoPath = inr out ->
        free c_bar (trim out) = true ->
        get_branch_info h clock repoPath branch_name tr
        = (Return
             (Info branch_name
                {| MoreTools.hash := Some (trim out); MoreTools.author := None;
                   MoreTools.email := None; MoreTools.date := None;
                   message := None |}
                None),
           tr1))
  /\ (forall subject,
        free c_bar (upToBar subject) = true
        /\ exists rest,
             subject = upToBar subject ++ rest
             /\ (rest = [] \/ exists r, rest = c_bar :: r)).
Proof.
  cbv zeta. unfold get_branch_info, try_catch, bind.
  split; [|split; [|split]].
  - intros e H. now rewrite (execGit_throws h _ _ _ _ H).
  - intros out hash author email date subject H Hout Hh Ha He Hd.
    rewrite (@execGit_ok h _ _ _ _ H), Hout.
    change (join [c_bar] [hash; author; email; date; subject])
      with (hash ++ c_bar :: author ++ c_bar :: email ++ c_bar :: date
            ++ c_bar :: subject).
    rewrite (split_app c_bar hash _ Hh), (split_app c_bar author _ Ha),
      (split_app c_bar email _ He), (split_app c_bar date _ Hd).
    cbn [nth_error]. unfold upToBar.
    pose proof (split_not_nil c_bar subject) as Hne.
    destruct (split c_bar subject) as [|p ps]; [contradiction|].
    cbn [nth_error]. now destruct (Date_getTime clock date).
  - intros out H Hfree.
    rewrite (@execGit_ok h _ _ _ _ H), (split_free c_bar _ Hfree).
    reflexivity.
  - apply upToBar_spec.
Qed.

Lemma get_branch_info_fields_witness :
  get_branch_info
    (gitHost (fun _ =>
       inr (js "0a1b2c3|Ann|ann@example.org|2024-01-01|fix a|b" ++ [10]%N)))
    {| Date_now := fun _ => 172800000%Z; Date_getTime := fun _ => Some 0%Z |}
    (js "/repo") (js "topic") []
  = (Return
       (Info (js "topic")
          {| MoreTools.hash := Some (js "0a1b2c3");
             MoreTools.author := Some (js "Ann");
             MoreTools.email := Some (js "ann@example.org");
             MoreTools.date := Some (js "2024-01-01");
             message := Some (js "fix a") |}
          (Some 2%Z)),
     [Exec (gitLog (js "topic")) (js "/repo")]).
Proof.
  exact (proj1 (proj2 (get_branch_info_fields
           (gitHost (fun _ =>
              inr (js "0a1b2c3|Ann|ann@example.org|2024-01-01|fix a|b"
                   ++ [10]%N)))
           {| Date_now := fun _ => 172800000%Z;
              Date_getTime := fun _ => Some 0%Z |}
           (js "/repo") (js "topic") []))
           (js "0a1b2c3|Ann|ann@example.org|2024-01-01|fix a|b" ++ [10]%N)
           (js "0a1b2c3") (js "Ann") (js "ann@example.org") (js "2024-01-01")
           (js "fix a|b") eq_refl eq_refl eq_refl eq_refl eq_refl eq_refl).
Defined.

(** X23.  The days since the last commit are whole days rounded down: a
    commit less than a day old is 0 days old, one a day to less than two
    days old is 1 day old, and a commit dated after now is a negative
    number of days old, -1 from the first millisecond. *)
Theorem daysSinceLastCommit_rounds_down (now lastCommitDate : Z) :
  let days := daysSinceLastCommit now lastCommitDate in
  (days * msPerDay <= now - lastCommitDate < (days + 1) * msPerDay)%Z
  /\ ((0 <= now - lastCommitDate < msPerDay)%Z -> days = 0%Z)
  /\ ((now < lastCommitDate)%Z -> (days < 0)%Z)
  /\ (forall d, (d * msPerDay <= now - lastCommitDate < (d + 1) * msPerDay)%Z ->
                days = d).
Proof.
  cbv zeta. unfold daysSinceLastCommit.
  assert (Hms : (0 < msPerDay)%Z) by reflexivity.
  pose proof (Z.mul_div_le (now - lastCommitDate) msPerDay Hms) as Hle.
  pose proof (Z.mul_succ_div_gt (now - lastCommitDate) msPerDay Hms) as Hgt.
  split; [lia|]. split; [|split].
  - intros H. now apply Z.div_small.
  - intros H. apply Z.div_lt_upper_bound; lia.
  - intros d Hd. symmetry. apply (Z.div_unique_pos _ _ d (now - lastCommitDate - d * msPerDay)); lia.
Qed.

Lemma daysSinceLastCommit_rounds_down_witness :
  daysSinceLastCommit (2 * msPerDay - 1) 0 = 1%Z
  /\ (daysSinceLastCommit 0 1 < 0)%Z.
Proof.
  split.
  - apply (proj2 (proj2 (proj2 (daysSinceLastCommit_rounds_down
                                   (2 * msPerDay - 1) 0))) 1%Z).
    vm_compute. split; [discriminate|reflexivity].
  - apply (proj1 (proj2 (proj2 (daysSinceLastCommit_rounds_down 0 1)))).
    reflexivity.
Defined.

(** *** [list_branches] *)

Lemma list_branches_eq (h : Host) (repoPath : jsstring)
    (include_local include_remote : option bool) :
  list_branches h repoPath include_local include_remote
  = bind
      (if match include_local with Some b => b | None => true end
       then bind (execGit h c_heads repoPath)
              (fun localOutput => ret (entriesOf type_local localOutput))
       else ret [])
      (fun locals =>
         bind
           (if match include_remote with Some b => b | None => true end
            then bind
                   (try_catch
                      (bind (execGit h c_fetch repoPath) (fun _ => ret tt))
                      (fun _ => ret tt))
                   (fun _ =>
                      bind (execGit h c_remotes repoPath)
                        (fun remoteOutput =>
                           ret (entriesOf type_remote remoteOutput)))
            else ret [])
           (fun remotes => ret (locals ++ remotes))).
Proof. reflexivity. Qed.

(** The fetch is run and its outcome dropped. *)
Lemma fetch_ignored (h : Host) (repoPath : jsstring) (tr : trace) :
  try_catch (bind (execGit h c_fetch repoPath) (fun _ => ret tt))
    (fun _ => ret tt) tr
  = (Return tt, tr ++ [Exec c_fetch repoPath]).
Proof.
  unfold try_catch, bind.
  destruct (execSync h tr c_fetch repoPath) as [e|out] eqn:H.
  - now rewrite (execGit_throws h _ _ _ _ H).
  - now rewrite (@execGit_ok h _ _ _ _ H).
Qed.

Lemma entriesOf_good (t : BranchType) (output : jsstring) :
  Forall (fun e => type e = t /\ goodEntry e) (entriesOf t output).
Proof.
  unfold entriesOf. destruct (truthy (Some output)); [|constructor].
  induction (split c_lf output) as [|line lines IH]; [constructor|].
  cbn [flat_map]. apply Forall_app. split; [|exact IH].
  unfold entryOfLine.
  pose proof (split_pieces_free c_bar line) as Hfree.
  pose proof (split_not_nil c_bar line) as Hne.
  destruct (split c_bar line) as [|n parts]; [contradiction|].
  cbn [forallb] in Hfree. apply andb_true_iff in Hfree as [Hn _].
  destruct t; cbv beta iota zeta.
  - match goal with |- context [if ?b then _ else _] => destruct b eqn:Ht end;
      constructor; [|constructor].
    split; [reflexivity|]. repeat split; cbn [name type]; trivial.
    + intros ->. discriminate.
    + discriminate.
  - match goal with |- context [if ?b then _ else _] => destruct b eqn:Ht end;
      constructor; [|constructor].
    apply andb_true_iff in Ht as [Ht He]. apply negb_true_iff in He.
    split; [reflexivity|]. repeat split; cbn [name type]; trivial.
    intros ->. discriminate.
Qed.

(** X24.  Whatever [git] answers, the branches [list_branches] returns are
    the local ones followed by the remote ones; every name is not empty
    and holds no bar, and no remote name ends with [/HEAD]. *)
Theorem list_branches_entries
    (h : Host) (repoPath : jsstring) (include_local include_remote : option bool)
    (tr tr' : trace) (branches : list BranchEntry) :
  list_branches h repoPath include_local include_remote tr
  = (Return branches, tr') ->
  exists locals remotes,
    branches = locals ++ remotes
    /\ Forall (fun e => type e = type_local /\ goodEntry e) locals
    /\ Forall (fun e => type e = type_remote /\ goodEntry e) remotes.
Proof.
  rewrite list_branches_eq. unfold bind at 1.
  destruct (match include_local with Some b => b | None => true end).
  - unfold bind at 1.
    destruct (execSync h tr c_heads repoPath) as [e|out] eqn:H.
    { rewrite (execGit_throws h _ _ _ _ H). discriminate. }
    rewrite (@execGit_ok h _ _ _ _ H). unfold ret at 1. unfold bind at 1.
    destruct (match include_remote with Some b => b | None => true end).
    + unfold bind at 1. rewrite fetch_ignored. unfold bind at 1.
      destruct (execSync h ((tr ++ [Exec c_heads repoPath])
                            ++ [Exec c_fetch repoPath]) c_remotes repoPath)
        as [e|out2] eqn:H2.
      { rewrite (execGit_throws h _ _ _ _ H2). discriminate. }
      rewrite (@execGit_ok h _ _ _ _ H2). unfold ret.
      intros [= <- _]. eexists _, _. split; [reflexivity|].
      split; apply entriesOf_good.
    + unfold ret. intros [= <- _]. eexists _, []. split; [reflexivity|].
      split; [apply entriesOf_good|constructor].
  - unfold ret at 1. unfold bind at 1.
    destruct (match include_remote with Some b => b | None => true end).
    + unfold bind at 1. rewrite fetch_ignored. unfold bind at 1.
      destruct (execSync h (tr ++ [Exec c_fetch repoPath]) c_remotes repoPath)
        as [e|out2] eqn:H2.
      { rewrite (execGit_throws h _ _ _ _ H2). discriminate. }
      rewrite (@execGit_ok h _ _ _ _ H2). unfold ret.
      intros [= <- _]. exists [], (entriesOf type_remote (trim out2)).
      split; [reflexivity|]. split; [constructor|apply entriesOf_good].
    + unfold ret. intros [= <- _]. exists [], [].
      split; [reflexivity|]. split; constructor.
Qed.

Lemma list_branches_entries_witness :
  exists locals remotes,
    map (entryOf type_local)
      [(js "main", js "2024-01-02", js "0a1b2c3");
       (js "feature-x", js "2024-01-01", js "4d5e6f7")]
    = locals ++ remotes
    /\ Forall (fun e => type e = type_local /\ goodEntry e) locals
    /\ Forall (fun e => type e = type_remote /\ goodEntry e) remotes.
Proof.
  exact (list_branches_entries (gitHost refsSample) (js "/repo") None
           (Some false) [] [Exec c_heads (js "/repo")] _ eq_refl).
Defined.

(** X25.  The commands of [list_branches]: with both kinds switched off it
    runs nothing and returns no branch; for the local branches alone it
    runs the one listing and never the fetch; for the remote branches it
    runs the fetch first and lists whatever the fetch did, failing or not.
    A failing listing is thrown, not answered. *)
Theorem list_branches_commands (h : Host) (repoPath : jsstring) (tr : trace) :
  list_branches h repoPath (Some false) (Some false) tr = (Return [], tr)
  /\ (forall include_local out,
        include_local <> Some false ->
        execSync h tr c_heads repoPath = inr out ->
        list_branches h repoPath include_local (Some false) tr
        = (Return (entriesOf type_local (trim out)),
           tr ++ [Exec c_heads repoPath]))
  /\ (forall include_local include_remote e,
        include_local <> Some false ->
        execSync h tr c_heads repoPath = inl e ->
        list_branches h repoPath include_local include_remote tr
        = (Throw (rethrown e), tr ++ [Exec c_heads repoPath]))
  /\ (forall include_remote out,
        include_remote <> Some false ->
        execSync h (tr ++ [Exec c_fetch repoPath]) c_remotes repoPath
        = inr out ->
        list_branches h repoPath (Some false) include_remote tr
        = (Return (entriesOf type_remote (trim out)),
           tr ++ [Exec c_fetch repoPath; Exec c_remotes repoPath])).
Proof.
  assert (Hon : forall o : option bool,
             o <> Some false -> match o with Some b => b | None => true end = true).
  { intros [[|]|] H; trivial. now elim H. }
  split; [reflexivity|]. split; [|split].
  - intros include_local out Hl H. rewrite list_branches_eq, (Hon _ Hl).
    unfold bind. rewrite (@execGit_ok h _ _ _ _ H). unfold ret.
    now rewrite app_nil_r.
  - intros include_local include_remote e Hl H.
    rewrite list_branches_eq, (Hon _ Hl). unfold bind.
    now rewrite (execGit_throws h _ _ _ _ H).
  - intros include_remote out Hr H. rewrite list_branches_eq, (Hon _ Hr).
    unfold bind at 1. unfold ret at 1. unfold bind at 1. unfold bind at 1.
    rewrite fetch_ignored. unfold bind.
    rewrite (@execGit_ok h _ _ _ _ H). unfold ret.
    now rewrite <- app_assoc.
Qed.

Lemma list_branches_commands_witness :
  list_branches (gitHost onFeatureX) (js "/repo") None None []
  = (Throw (newError (js "Git command failed: fatal: Needed a single revision")),
     [Exec c_heads (js "/repo")]).
Proof.
  refine (proj1 (proj2 (proj2 (list_branches_commands (gitHost onFeatureX)
                                 (js "/repo") [])))
            None None (gitFailure "fatal: Needed a single revision") _ eq_refl).
  discriminate.
Defined.

Lemma refLine_split (r : jsstring * jsstring * jsstring) :
  wellFormedRef r = true ->
  split c_bar (refLine r) = [fst (fst r); snd (fst r); snd r]
  /\ free c_lf (refLine r) = true
  /\ truthy (Some (fst (fst r))) = true.
Proof.
  destruct r as [[n d] hh]. unfold wellFormedRef, refLine. cbn [fst snd].
  rewrite !andb_true_iff.
  intros ((((((Hn & Hnb) & Hnl) & Hdb) & Hdl) & Hhb) & Hhl).
  split; [|split; [|assumption]].
  - cbn [app]. rewrite (split_app c_bar n _ Hnb), (split_app c_bar d _ Hdb).
    now rewrite (split_free c_bar hh Hhb).
  - unfold free in *. rewrite !forallb_app. cbn [forallb].
    repeat (apply andb_true_iff; split); trivial.
Qed.

Lemma entryOfLine_refLine (t : BranchType) (r : jsstring * jsstring * jsstring) :
  wellFormedRef r = true ->
  entryOfLine t (refLine r)
  = if match t with
       | type_local => true
       | type_remote => negb (isRemoteHead r)
       end
    then [entryOf t r] else [].
Proof.
  intros H. destruct (refLine_split r H) as (Hs & _ & Hn).
  unfold entryOfLine. rewrite Hs. unfold isRemoteHead, entryOf.
  destruct r as [[n d] hh]. cbn [fst snd] in *.
  destruct n as [|c n]; [discriminate|].
  destruct t; reflexivity.
Qed.

(** X26.  Reading back what was asked for: when [git] answers lines of a
    name, a date and a hash between bars, the name not empty and no field
    holding a bar or a line feed, [list_branches] returns one entry for
    each line, in the order of the lines, with those three fields; of the
    remote lines the ones whose name ends with [/HEAD] are left out. *)
Theorem list_branches_reads_refs
    (h : Host) (repoPath out : jsstring)
    (refs : list (jsstring * jsstring * jsstring)) (tr : trace) :
  forallb wellFormedRef refs = true ->
  trim out = join [c_lf] (map refLine refs) ->
  (execSync h tr c_heads repoPath = inr out ->
   list_branches h repoPath None (Some false) tr
   = (Return (map (entryOf type_local) refs), tr ++ [Exec c_heads repoPath]))
  /\ (execSync h (tr ++ [Exec c_fetch repoPath]) c_remotes repoPath = inr out ->
      list_branches h repoPath (Some false) None tr
      = (Return (map (entryOf type_remote)
                   (filter (fun r => negb (isRemoteHead r)) refs)),
         tr ++ [Exec c_fetch repoPath; Exec c_remotes repoPath])).
Proof.
  intros Hwf Hout.
  assert (Hentries : forall t,
             entriesOf t (trim out)
             = map (entryOf t)
                 (filter (fun r => match t with
                                   | type_local => true
                                   | type_remote => negb (isRemoteHead r)
                                   end) refs)).
  { intros t. rewrite Hout. unfold entriesOf.
    destruct refs as [|r0 rs]; [now destruct t|].
    assert (Hne : truthy (Some (join [c_lf] (map refLine (r0 :: rs)))) = true).
    { cbn [forallb] in Hwf. apply andb_true_iff in Hwf as [Hr _].
      destruct (refLine_split r0 Hr) as (_ & _ & Hn).
      destruct r0 as [[n d] hh]. cbn [fst] in Hn.
      destruct n as [|c n]; [discriminate|].
      cbn [map]. destruct (map refLine rs); reflexivity. }
    remember (r0 :: rs) as refs eqn:E.
    rewrite Hne. rewrite split_join.
    - clear Hne Hout E. induction refs as [|r rs' IH]; [reflexivity|].
      cbn [forallb] in Hwf. apply andb_true_iff in Hwf as [Hr Hrs].
      cbn [map flat_map filter]. rewrite (entryOfLine_refLine t r Hr), (IH Hrs).
      destruct t; [reflexivity|]. now destruct (negb (isRemoteHead r)).
    - subst refs. discriminate.
    - clear Hne Hout E. induction refs as [|r rs' IH]; [reflexivity|].
      cbn [forallb] in Hwf. apply andb_true_iff in Hwf as [Hr Hrs].
      cbn [map forallb]. rewrite (IH Hrs).
      destruct (refLine_split r Hr) as (_ & Hl & _). now rewrite Hl. }
  split.
  - intros H. rewrite list_branches_eq. unfold bind.
    rewrite (@execGit_ok h _ _ _ _ H). unfold ret.
    rewrite (Hentries type_local), app_nil_r.
    assert (Hall : forall l : list (jsstring * jsstring * jsstring),
               filter (fun _ => true) l = l)
      by (induction l as [|x l IHl]; cbn; congruence).
    now rewrite Hall.
  - intros H. rewrite list_branches_eq.
    unfold bind at 1. unfold ret at 1. unfold bind at 1. unfold bind at 1.
    rewrite fetch_ignored. unfold bind.
    rewrite (@execGit_ok h _ _ _ _ H). unfold ret.
    now rewrite (Hentries type_remote), <- app_assoc.
Qed.

Lemma list_branches_reads_refs_witness :
  list_branches (gitHost refsSample) (js "/repo") None (Some false) []
  = (Return (map (entryOf type_local)
               [(js "main", js "2024-01-02", js "0a1b2c3");
                (js "feature-x", js "2024-01-01", js "4d5e6f7")]),
     [Exec c_heads (js "/repo")]).
Proof.
  exact (proj1 (list_branches_reads_refs (gitHost refsSample) (js "/repo")
                  (js "main|2024-01-02|0a1b2c3" ++ [10]%N
                   ++ js "feature-x|2024-01-01|4d5e6f7" ++ [10]%N)
                  [(js "main", js "2024-01-02", js "0a1b2c3");
                   (js "feature-x", js "2024-01-01", js "4d5e6f7")]
                  [] eq_refl eq_refl) eq_refl).
Defined.

(** *** [delete_remote_branch] *)

Lemma parsePattern_plain (s : jsstring) :
  plain s = true -> Glob.parsePattern s = Some (map literal s).
Proof.
  induction s as [|c s IH]; [reflexivity|].
  unfold plain. cbn [forallb]. fold (plain s).
  intros H. apply andb_true_iff in H as [Hc Hs]. apply negb_true_iff in Hc.
  rewrite (GlobProps.parsePattern_char c s Hc).
  destruct s as [|d s]; [reflexivity|].
  assert (Hd : N.eqb d c_star = false).
  { unfold plain in Hs. cbn [forallb] in Hs.
    apply andb_true_iff in Hs as [Hd _]. apply negb_true_iff in Hd.
    destruct (N.eqb_spec d c_star) as [->|]; [discriminate|reflexivity]. }
  rewrite (GlobProps.quantified_plain (Glob.AChar c) d s Glob.parsePattern Hd).
  now rewrite (IH Hs).
Qed.

Lemma exec_literals (s : jsstring) :
  forall pos input,
    exec (map literal s) pos input
    = if startsWith input s then Some (skipn (List.length s) input) else None.
Proof.
  induction s as [|c s IH]; intros pos input; [reflexivity|].
  cbn [map exec literal]. fold literal.
  destruct input as [|x input]; [reflexivity|].
  cbn [startsWith Glob.atomMatches List.length skipn].
  destruct (N.eqb x c); [apply IH|reflexivity].
Qed.

Lemma replaceFrom_anchored (re : Glob.RegExp) (rep s : jsstring) :
  forall pos, replaceFrom (Glob.TBol :: re) rep (S pos) s = s.
Proof.
  induction s as [|c s IH]; intros pos; [reflexivity|].
  cbn [replaceFrom exec Nat.eqb]. now rewrite IH.
Qed.

Lemma replaceRegExp_prefix (lit s : jsstring) :
  replaceRegExp (Glob.TBol :: map literal lit) [] s
  = if startsWith s lit then skipn (List.length lit) s else s.
Proof.
  unfold replaceRegExp.
  destruct s as [|c s]; cbn [replaceFrom exec Nat.eqb];
    rewrite exec_literals.
  - destruct (startsWith [] lit) eqn:E; [|reflexivity].
    destruct lit; [reflexivity|discriminate].
  - destruct (startsWith (c :: s) lit); [reflexivity|].
    now rewrite replaceFrom_anchored.
Qed.

(** X27.  For a remote name without a syntax character of regular
    expressions ([origin] when none is given) [delete_remote_branch] takes
    the prefix [remote/] off the branch name when it is there, once, and
    leaves another name as it is; it runs the one [git push --delete] on
    that name and answers by a result in both cases: a failure of the push
    is reported with its message, it is not thrown. *)
Theorem delete_remote_branch_strips_prefix
    (h : Host) (repoPath branch_name : jsstring) (remote : option jsstring) :
  let r := match remote with Some r => r | None => js "origin" end in
  let clean := stripRemote r branch_name in
  plain r = true ->
  exists tool,
    delete_remote_branch h repoPath branch_name remote = Some tool
    /\ (forall tr out,
          execSync h tr (pushDelete r clean) repoPath = inr out ->
          tool tr = (Return (remoteDeleted r clean),
                     tr ++ [Exec (pushDelete r clean) repoPath]))
    /\ (forall tr e,
          execSync h tr (pushDelete r clean) repoPath = inl e ->
          tool tr = (Return (failed e),
                     tr ++ [Exec (pushDelete r clean) repoPath]))
    /\ (forall rest, stripRemote r (r ++ js "/" ++ rest) = rest)
    /\ (startsWith branch_name (r ++ js "/") = false -> clean = branch_name).
Proof.
  cbv zeta. intros Hplain.
  set (r := match remote with Some r => r | None => js "origin" end) in *.
  assert (Hparse : Glob.RegExp_new ([c_caret] ++ r ++ js "/")
                   = Some (Glob.TBol :: map literal (r ++ js "/"))).
  { unfold Glob.RegExp_new. cbn [app Glob.parsePattern].
    cbn [N.eqb c_caret Pos.eqb]. rewrite parsePattern_plain; [reflexivity|].
    unfold plain in *. rewrite forallb_app, Hplain. reflexivity. }
  assert (Hclean : replaceRegExp (Glob.TBol :: map literal (r ++ js "/")) []
                     branch_name
                   = stripRemote r branch_name).
  { rewrite replaceRegExp_prefix. unfold stripRemote.
    now rewrite length_app. }
  unfold delete_remote_branch. fold r. rewrite Hparse, Hclean.
  eexists. split; [reflexivity|]. split; [|split; [|split]].
  - intros tr out H. unfold try_catch, bind.
    now rewrite (@execGit_ok h _ _ _ _ H).
  - intros tr e H. unfold try_catch, bind.
    now rewrite (execGit_throws h _ _ _ _ H).
  - intros rest. unfold stripRemote.
    rewrite app_assoc, startsWith_app.
    replace (List.length r + 1) with (List.length (r ++ js "/"))
      by (rewrite length_app; reflexivity).
    clear. generalize (r ++ js "/"). intros l.
    induction l as [|x l IHl]; [reflexivity|exact IHl].
  - intros H. unfold stripRemote. now rewrite H.
Qed.

Lemma delete_remote_branch_strips_prefix_witness :
  exists tool,
    delete_remote_branch (gitHost (fun _ => inr [])) (js "/repo")
      (js "origin/feature-x") None
    = Some tool
    /\ tool []
       = (Return (remoteDeleted (js "origin") (js "feature-x")),
          [Exec (js "git push origin --delete feature-x") (js "/repo")]).
Proof.
  destruct (delete_remote_branch_strips_prefix (gitHost (fun _ => inr []))
              (js "/repo") (js "origin/feature-x") None eq_refl)
    as (tool & Htool & Hok & _).
  exists tool. split; [exact Htool|].
  exact (Hok [] [] eq_refl).
Defined.

(** *** [ask_confirmation] *)

(** X28.  [ask_confirmation] neither throws nor runs a command: it prints,
    asks its one question and answers [confirmed] with the matching
    message, [confirmed] being true exactly for [yes] and [y] in some
    letter case. *)
Theorem ask_confirmation_only_asks
    (h : Host) (message : jsstring) (branches : list jsstring) (tr : trace) :
  LowerCaseLaws h ->
  exists typed confirmed done,
    ask_confirmation h message branches tr
    = (Return (VObj [field "confirmed" (VBool confirmed);
                     field "message"
                       (VStr (if confirmed
                              then js "User approved the deletion"
                              else js "User cancelled the operation"))]),
       tr ++ done)
    /\ (confirmed = true <-> In typed yesWords)
    /\ existsb isExec done = false
    /\ filter (fun e => negb (isConsole e)) done = [Question proceedPrompt typed].
Proof.
  intros Hlaws.
  exists (question h (tr ++ banner message branches) proceedPrompt).
  exists (confirmedBy h (question h (tr ++ banner message branches) proceedPrompt)).
  eexists. split; [|split; [now apply confirmedBy_iff|]].
  - unfold ask_confirmation, bind. rewrite askUserConfirmation_run.
    unfold ret. rewrite <- app_assoc. reflexivity.
  - assert (Hb : forall bs : list jsstring,
               existsb isExec
                 (map (fun b => ConsoleLog (js "  " ++ colors_red ++ js "- " ++ b
                                            ++ colors_reset)) bs) = false
               /\ filter (fun e => negb (isConsole e))
                    (map (fun b => ConsoleLog (js "  " ++ colors_red ++ js "- "
                                               ++ b ++ colors_reset)) bs) = []).
    { induction bs as [|b bs [IH1 IH2]]; split; trivial. }
    destruct (Hb branches) as [H1 H2].
    unfold banner. split.
    + rewrite !existsb_app, H1. reflexivity.
    + rewrite !filter_app, H2. reflexivity.
Qed.

Lemma ask_confirmation_only_asks_witness :
  exists typed confirmed done,
    ask_confirmation bareHost (js "Delete?") [js "feature-x"] []
    = (Return (VObj [field "confirmed" (VBool confirmed);
                     field "message"
                       (VStr (if confirmed
                              then js "User approved the deletion"
                              else js "User cancelled the operation"))]),
       [] ++ done)
    /\ (confirmed = true <-> In typed yesWords)
    /\ existsb isExec done = false
    /\ filter (fun e => negb (isConsole e)) done = [Question proceedPrompt typed].
Proof.
  exact (ask_confirmation_only_asks bareHost (js "Delete?") [js "feature-x"]
           [] (asciiLower_laws bareHost eq_refl)).
Defined.

End ToolsMore.

(** ** The settings of a run *)

Module SettingsMore.
Import Config ConfigProps Cli CliLines CliMore StaleDaysContract Samples.

(** X29.  The exclude patterns of a run are those of the configuration
    followed by those of the command line that are not empty, in their
    order: the command line adds patterns and removes none.  Without a
    stale-days option and a path the threshold is the configuration's and
    the repository is the working directory. *)
Theorem runAgent_settings_excludes
    (h : Host) (customPath : option jsstring) (ps : list (bool * jsstring))
    (tr : trace) :
  exists config tr1 s,
    loadConfig h customPath tr = (Return config, tr1)
    /\ Tools.runAgent_settings h (commandLine customPath None ++ excludeArgs ps)
         tr
       = (Return s, tr1)
    /\ Tools.excludePatterns s
       = Config.excludePatterns config
         ++ map VStr (filter nonEmpty (map snd ps))
    /\ Tools.staleDays s = Config.staleDays config
    /\ Tools.repoPath s = process_cwd h.
Proof.
  destruct (loadConfig_result h customPath tr) as (config & tr1 & Hrun & _).
  set (start := match customPath with
                | Some p => set_configPath initial (Some p)
                | None => initial
                end).
  assert (Hloop : parseLoop (commandLine customPath None ++ excludeArgs ps)
                    initial
                  = parseLoop (excludeArgs ps) start).
  { unfold commandLine, start. rewrite app_nil_r.
    destruct customPath as [p|]; [|reflexivity].
    cbn [app]. apply StaleDaysProps.parseLoop_config. }
  assert (Hfold : parseLoop (excludeArgs ps) start
                  = fold_left push_excludePattern
                      (filter nonEmpty (map snd ps)) start).
  { rewrite <- (app_nil_r (excludeArgs ps)) at 1.
    now rewrite parseLoop_exclude_args. }
  destruct (push_excludePatterns_fields (filter nonEmpty (map snd ps)) start)
    as (Hex & Hrepo & Hcfg & Hstale & Hhelp).
  rewrite <- Hfold in Hex, Hrepo, Hcfg, Hstale, Hhelp.
  assert (Hstart : excludePatterns start = [] /\ repoPath start = None
                   /\ configPath start = customPath /\ staleDays start = None
                   /\ help start = false)
    by (unfold start; destruct customPath; repeat split).
  destruct Hstart as (S1 & S2 & S3 & S4 & S5).
  exists config, tr1,
    (Tools.settings h (parseLoop (excludeArgs ps) start) config).
  split; [exact Hrun|]. split; [|split; [|split]].
  - unfold Tools.runAgent_settings, bind, parseArgs. fold initial.
    rewrite Hloop, Hhelp, S5. unfold ret at 1. rewrite Hcfg, S3, Hrun.
    reflexivity.
  - cbn [Tools.excludePatterns Tools.settings]. now rewrite Hex, S1.
  - cbn [Tools.staleDays Tools.settings]. now rewrite Hstale, S4.
  - cbn [Tools.repoPath Tools.settings]. now rewrite Hrepo, S2.
Qed.

End SettingsMore.
